(** * RoboBlocks: lowering a Blockly workspace to the robot workflow IR

  A shallow embedding of [pyqt_app/resources/robot_generator.js] (the
  generator that turns the visual block graph into the IR document), of
  the [IRobotActions] / [BaseRobot] declarations of RobotLib, and of the
  percentage rule of the IR validator.

  JavaScript values are modelled as the code has them: numbers are IEEE
  doubles ([PrimFloat.float]), objects used as records with optional keys
  are [gmap string _], arrays are lists.  Exceptions are an explicit
  result type, and the state the generator threads through its calls
  (the metadata object, the console, the id generator) is passed
  explicitly. *)

From Stdlib Require Import PrimFloat FloatOps SpecFloat Ascii.
From stdpp Require Import gmap strings list fin_maps pretty.

Set Default Proof Using "Type".
Set Warnings "-register-all".
#[local] Unset Elimination Schemes.
Local Open Scope string_scope.
Local Open Scope list_scope.

(** ** JavaScript values *)

Module JS.

(** The primitive values a Blockly field can hold. *)
Inductive Value :=
| VNull
| VBool (b : bool)
| VNum (x : float)
| VStr (s : string).

(** ToBoolean on numbers: [0], [-0] and [NaN] are falsy. *)
Definition truthy_num (x : float) : bool :=
  negb (PrimFloat.eqb x 0%float) && PrimFloat.eqb x x.

Definition truthy_str (s : string) : bool :=
  match s with EmptyString => false | _ => true end.

Definition truthy (v : Value) : bool :=
  match v with
  | VNull => false
  | VBool b => b
  | VNum x => truthy_num x
  | VStr s => truthy_str s
  end.

(** [a || b] *)
Definition or (a b : Value) : Value := if truthy a then a else b.

(** [v === s] for a string literal [s]. *)
Definition strict_eq_str (v : Value) (s : string) : bool :=
  match v with VStr t => String.eqb t s | _ => false end.

(** What a [throw] or a failing built-in raises. *)
Inductive Exn :=
| Error (msg : string)
| TypeError (msg : string).

Inductive Res (A : Type) :=
| Ok (a : A)
| Throw (e : Exn).
Arguments Ok {A} a.
Arguments Throw {A} e.

Definition res_bind {A B} (r : Res A) (k : A -> Res B) : Res B :=
  match r with Ok a => k a | Throw e => Throw e end.

End JS.
Export JS.

(** ** The block graph

  A Blockly block as the generator reads it: its [type], the optional
  [data] string, its [id], its named fields, its named inputs (each with
  the block connected to it, if any) and the next statement block. *)

Inductive Block := mkBlock {
  block_type : string;
  block_data : option string;
  block_id : string;
  fields : list (string * Value);
  inputList : list (string * option Block);
  nextBlock : option Block
}.

(** [block.getFieldValue(name)]: the value of the first field of that name,
  [null] when the block has no such field. *)
Fixpoint lookupField (name : string) (fs : list (string * Value)) : Value :=
  match fs with
  | [] => VNull
  | (n, v) :: rest => if String.eqb n name then v else lookupField name rest
  end.

Definition getFieldValue (b : Block) (name : string) : Value :=
  lookupField name (fields b).

(** [block.getInput(name)]: the first input of that name, if any. *)
Fixpoint lookupInput (name : string) (ins : list (string * option Block))
: option (option Block) :=
  match ins with
  | [] => None
  | (n, t) :: rest => if String.eqb n name then Some t else lookupInput name rest
  end.

Definition getInput (b : Block) (name : string) : option (option Block) :=
  lookupInput name (inputList b).

(** [block.getInputTargetBlock(name)]: the block connected to that input,
  [null] when the input is missing or nothing is connected. *)
Definition getInputTargetBlock (b : Block) (name : string) : option Block :=
  match getInput b name with
  | Some t => t
  | None => None
  end.

Definition getNextBlock (b : Block) : option Block := nextBlock b.

(** The same lookup with the consumer of the target passed in: this is the
  form the recursive lowering functions use, so that their recursive calls
  are visibly on sub-blocks.  [withInputTarget_spec] relates it to
  [getInputTargetBlock]. *)
Section WithInputTarget.
Context {A : Type} (k : Block -> A) (d : A) (name : string).

Fixpoint withInputTarget (ins : list (string * option Block)) : A :=
  match ins with
  | [] => d
  | (n, t) :: rest =>
      if String.eqb n name
      then match t with Some c => k c | None => d end
      else withInputTarget rest
  end.
End WithInputTarget.

(** ** The IR *)

Inductive Expr :=
| LiteralNumber (value : float)
| LiteralBoolean (value : bool)
| LiteralNull
| Comparison (op : string) (left right : Expr)
| LogicBinary (op : string) (left right : Expr)
| LogicNot (argument : Expr)
| Ternary (condition when_true when_false : Expr)
| Arithmetic (op : string) (left right : Expr)
| MathSingle (op : string) (argument : Expr)
| MathTrig (op : string) (argument : Expr)
| MathConstant (constant : string)
| MathRound (op : string) (argument : Expr)
| MathModulo (left right : Expr)
| MathConstrain (value low high : Expr)
| MathRandomInt (low high : Expr)
| MathRandomFloat.

(** A parameter value: a primitive, a nested object (cartesian point) or an
  array (tool / user coordinates). *)
Inductive ParamValue :=
| PValue (v : Value)
| PObject (o : gmap string Value)
| PArray (a : list Value).

Inductive LoopMode := mode_while | mode_until.

(** A statement node.  [parameters] and [else_branch] are [None] when the
  object has no such key (or holds [undefined]). *)
Inductive Node :=
| Command (id : string) (command : string)
        (parameters : option (gmap string ParamValue))
| If (id : string) (branches : list (Expr * list Node))
   (else_branch : option (list Node))
| Repeat (id : string) (count : Expr) (body : list Node)
| While (id : string) (mode : LoopMode) (condition : Expr) (body : list Node)
| ForRange (id : string) (variable : Value) (from to by_ : Expr)
         (body : list Node)
| ForEach (id : string) (variable : Value) (collection : Expr)
        (body : list Node)
| Flow (id : string) (flow : string).

Definition node_id (n : Node) : string :=
  match n with
  | Command i _ _ | If i _ _ | Repeat i _ _ | While i _ _ _
  | ForRange i _ _ _ _ _ | ForEach i _ _ _ | Flow i _ => i
  end.

Record Document := mkDocument {
  version : string;
  metadata : gmap string Value;
  sequence : list Node
}.

(** ** The generator *)

(** Built-ins of the host the generator calls: [Number(s)] on a string,
    [String.prototype.toLowerCase], and Blockly's
    [utils.idGenerator.genUid], a generator with its own state. *)
Class Host := {
  Gen : Type;
  StringToNumber : string -> float;
  toLowerCase : string -> string;
  genUid : Gen -> string * Gen
}.

Section Generator.
Context `{Host}.

(** [Number(v)] *)
Definition Number (v : Value) : float :=
  match v with
  | VNull => 0%float
  | VBool b => if b then 1%float else 0%float
  | VNum x => x
  | VStr s => StringToNumber s
  end.

(** [v.toLowerCase()]: only strings have the method. *)
Definition callToLowerCase (v : Value) : Res string :=
  match v with
  | VStr s => Ok (toLowerCase s)
  | _ => Throw (TypeError "toLowerCase is not a function")
  end.

(** [(block.getFieldValue(name) || dflt).toLowerCase()] *)
Definition lowerField (b : Block) (name dflt : string) : Res string :=
  callToLowerCase (JS.or (getFieldValue b name) (VStr dflt)).

(** [expressionFrom(block)] for a block that is present. *)
Fixpoint expressionFromBlock (block : Block) : Res Expr :=
  let sub name :=
    withInputTarget expressionFromBlock (Ok (LiteralNumber 0%float)) name
      (inputList block) in
  let type := block_type block in
  if String.eqb type "math_number" then
    Ok (LiteralNumber
          (Number (JS.or (getFieldValue block "NUM") (VNum 0%float))))
  else if String.eqb type "logic_boolean" then
    Ok (LiteralBoolean (strict_eq_str (getFieldValue block "BOOL") "TRUE"))
  else if String.eqb type "logic_compare" then
    res_bind (lowerField block "OP" "EQ") (fun op =>
    res_bind (sub "A") (fun l =>
    res_bind (sub "B") (fun r => Ok (Comparison op l r))))
  else if String.eqb type "logic_operation" then
    res_bind (lowerField block "OP" "AND") (fun op =>
    res_bind (sub "A") (fun l =>
    res_bind (sub "B") (fun r => Ok (LogicBinary op l r))))
  else if String.eqb type "logic_negate" then
    res_bind (sub "BOOL") (fun a => Ok (LogicNot a))
  else if String.eqb type "logic_null" then
    Ok LiteralNull
  else if String.eqb type "logic_ternary" then
    res_bind (sub "IF") (fun c =>
    res_bind (sub "THEN") (fun t =>
    res_bind (sub "ELSE") (fun e => Ok (Ternary c t e))))
  else if String.eqb type "math_arithmetic" then
    res_bind (lowerField block "OP" "ADD") (fun op =>
    res_bind (sub "A") (fun l =>
    res_bind (sub "B") (fun r => Ok (Arithmetic op l r))))
  else if String.eqb type "math_single" then
    res_bind (lowerField block "OP" "ROOT") (fun op =>
    res_bind (sub "NUM") (fun a => Ok (MathSingle op a)))
  else if String.eqb type "math_trig" then
    res_bind (lowerField block "OP" "SIN") (fun op =>
    res_bind (sub "NUM") (fun a => Ok (MathTrig op a)))
  else if String.eqb type "math_constant" then
    res_bind (lowerField block "CONSTANT" "PI") (fun c =>
    Ok (MathConstant c))
  else if String.eqb type "math_round" then
    res_bind (lowerField block "OP" "ROUND") (fun op =>
    res_bind (sub "NUM") (fun a => Ok (MathRound op a)))
  else if String.eqb type "math_modulo" then
    res_bind (sub "DIVIDEND") (fun l =>
    res_bind (sub "DIVISOR") (fun r => Ok (MathModulo l r)))
  else if String.eqb type "math_constrain" then
    res_bind (sub "VALUE") (fun v =>
    res_bind (sub "LOW") (fun l =>
    res_bind (sub "HIGH") (fun h => Ok (MathConstrain v l h))))
  else if String.eqb type "math_random_int" then
    res_bind (sub "FROM") (fun l =>
    res_bind (sub "TO") (fun h => Ok (MathRandomInt l h)))
  else if String.eqb type "math_random_float" then
    Ok MathRandomFloat
  else
    Throw (Error ("Unsupported expression block: " +:+ type)).

(** [expressionFrom(block)], [block] possibly [null]. *)
Definition expressionFrom (block : option Block) : Res Expr :=
  match block with
  | None => Ok (LiteralNumber 0%float)
  | Some b => expressionFromBlock b
  end.

(** *** State and effects

    What the statement lowering reads and writes besides its arguments: the
    [metadata] object created by [workspaceToDocument] and passed by
    reference to every call, the console ([console.warn]), and the state of
    the id generator. *)

Record State := mkState {
  st_metadata : gmap string Value;
  st_console : list string;
  st_gen : Gen
}.

Definition M (A : Type) : Type := State -> Res (A * State).

Definition ret {A} (a : A) : M A := fun s => Ok (a, s).

Definition bind {A B} (m : M A) (k : A -> M B) : M B :=
  fun s => match m s with
           | Ok (a, s') => k a s'
           | Throw e => Throw e
           end.

Definition lift {A} (r : Res A) : M A :=
  fun s => match r with Ok a => Ok (a, s) | Throw e => Throw e end.

Notation "'let*' x ':=' m 'in' k" := (bind m (fun x => k))
  (at level 10, x name, m at level 200, k at level 200, only parsing).

(** [console.warn(...args)], the arguments joined by a space. *)
Definition console_warn (msg : string) : M unit :=
  fun s => Ok (tt, mkState (st_metadata s) (st_console s ++ [msg]) (st_gen s)).

Definition callGenUid : M string :=
  fun s => let '(u, g) := genUid (st_gen s) in
           Ok (u, mkState (st_metadata s) (st_console s) g).

(** [block.data || block.id || Blockly.utils.idGenerator.genUid()] *)
Definition blockId (block : Block) : M string :=
  match block_data block with
  | Some d =>
      if truthy_str d then ret d
      else if truthy_str (block_id block) then ret (block_id block)
      else callGenUid
  | None =>
      if truthy_str (block_id block) then ret (block_id block)
      else callGenUid
  end.

(** *** Command parameters *)

Definition commandsWithoutParameters : gset string :=
  list_to_set
    ["disconnect_robot"; "power_on_servo"; "power_off_servo";
     "grab"; "release"; "print_numbers"].

(** [Number(block.getFieldValue(name) || dflt)] *)
Definition numberField (block : Block) (name : string) (dflt : float)
  : float :=
  Number (JS.or (getFieldValue block name) (VNum dflt)).

Definition pointFrom (block : Block) (x y z rx ry rz : string) : ParamValue :=
  PObject
    (list_to_map
       [("x", VNum (numberField block x 0%float));
        ("y", VNum (numberField block y 0%float));
        ("z", VNum (numberField block z 0%float));
        ("rx", VNum (numberField block rx 0%float));
        ("ry", VNum (numberField block ry 0%float));
        ("rz", VNum (numberField block rz 0%float))]).

Definition arrayFrom (block : Block) (keys : list string) : ParamValue :=
  PArray (map (fun k => VNum (numberField block k 0%float)) keys).

Definition numberParam (block : Block) (name : string) (dflt : float)
  : ParamValue :=
  PValue (VNum (numberField block name dflt)).

(** The [store] readers of the query commands:
    [store ? { store_as: store } : {}]. *)
Definition storeReader (block : Block) : gmap string ParamValue :=
  let store := JS.or (getFieldValue block "STORE") (VStr "") in
  if truthy store then {[ "store_as" := PValue store ]} else ∅.

(** The table [parameterReaders], with the keys the source writes.  The
    source indexes an object literal, which answers for the member names of
    [Object.prototype] as well ([objectPrototypeNames] below) and then hands
    back a function that is no reader.  A statement block of such a type is
    outside this model: what is proved of the blocks that reach the table is
    proved of graphs in which none has such a type ([ownTypes]). *)
Definition parameterReaders : gmap string (Block -> gmap string ParamValue) :=
  list_to_map
    [("connect_robot", fun block =>
        list_to_map
          [("ip_address",
            PValue (JS.or (getFieldValue block "IP") (VStr "192.168.0.10")));
           ("port", numberParam block "PORT" 60008%float);
           ("timeout_ms", numberParam block "TIMEOUT" 0%float)]);
     ("set_speed", fun block =>
        {[ "percentage" := numberParam block "PERCENTAGE" 0%float ]});
     ("set_acceleration", fun block =>
        {[ "percentage" := numberParam block "PERCENTAGE" 0%float ]});
     ("move_to", fun block =>
        list_to_map
          [("x", numberParam block "X" 0%float);
           ("y", numberParam block "Y" 0%float);
           ("z", numberParam block "Z" 0%float);
           ("speed_percentage", numberParam block "SPEED" 0%float)]);
     ("move_joint", fun block =>
        list_to_map
          [("j1", numberParam block "J1" 0%float);
           ("j2", numberParam block "J2" 0%float);
           ("j3", numberParam block "J3" 0%float);
           ("j4", numberParam block "J4" 0%float);
           ("j5", numberParam block "J5" 0%float);
           ("j6", numberParam block "J6" 0%float);
           ("speed_percentage", numberParam block "SPEED" 0%float)]);
     ("move_linear", fun block =>
        list_to_map
          [("x", numberParam block "X" 0%float);
           ("y", numberParam block "Y" 0%float);
           ("z", numberParam block "Z" 0%float);
           ("rx", numberParam block "RX" 0%float);
           ("ry", numberParam block "RY" 0%float);
           ("rz", numberParam block "RZ" 0%float);
           ("speed_percentage", numberParam block "SPEED" 0%float)]);
     ("move_circular", fun block =>
        list_to_map
          [("via_point", pointFrom block "VX" "VY" "VZ" "VRX" "VRY" "VRZ");
           ("end_point", pointFrom block "EX" "EY" "EZ" "ERX" "ERY" "ERZ")]);
     ("stop_motion", fun block =>
        let stop := JS.or (getFieldValue block "STOP_TYPE") (VStr "") in
        if truthy stop then {[ "stop_type" := PValue stop ]} else ∅);
     ("wait_for_move_finish", fun block =>
        let timeout := numberField block "TIMEOUT" 0%float in
        if truthy_num timeout
        then {[ "timeout_ms" := PValue (VNum timeout) ]} else ∅);
     ("set_tool_coordinate", fun block =>
        {[ "tool_data" :=
             arrayFrom block ["TX"; "TY"; "TZ"; "TRX"; "TRY"; "TRZ"] ]});
     ("set_user_coordinate", fun block =>
        {[ "user_data" :=
             arrayFrom block ["UX"; "UY"; "UZ"; "URX"; "URY"; "URZ"] ]});
     ("get_current_joint_position", storeReader);
     ("get_current_cartesian_position", storeReader);
     ("get_robot_status", storeReader);
     ("set_digital_output", fun block =>
        list_to_map
          [("port", numberParam block "PORT" 0%float);
           ("value",
            PValue (VBool (strict_eq_str
                             (JS.or (getFieldValue block "VALUE")
                                (VStr "FALSE")) "TRUE")))]);
     ("get_digital_input", fun block =>
        let store := JS.or (getFieldValue block "STORE") (VStr "") in
        let params : gmap string ParamValue :=
          {[ "port" := numberParam block "PORT" 0%float ]} in
        if truthy store then <[ "store_as" := PValue store ]> params
        else params)].

(** [convertCommandBlock(block)].  The reader is looked up among the keys
    the table writes; [parameterReaders] says for which types the source
    finds something else. *)
Definition convertCommandBlock (block : Block) : M Node :=
  let commandName := block_type block in
  let params :=
    match parameterReaders !! commandName with
    | Some paramsReader => paramsReader block
    | None => ∅
    end in
  if bool_decide (commandName ∈ commandsWithoutParameters) then
    let* id := blockId block in
    ret (Command id commandName None)
  else
    let* id := blockId block in
    ret (Command id commandName (Some params)).

(** *** Statements

    The converters of control-flow blocks call [sequenceFrom] on the blocks
    connected to their statement inputs.  They are written here over
    [sequenceFromInput name], which stands for
    [sequenceFrom(block.getInputTargetBlock(name), metadata)]; the knot is
    tied in [sequenceFromBlock] below. *)

Section Converters.
Variable sequenceFromInput : string -> M (list Node).
Variable block : Block.

Definition expressionFromInput (name : string) : M Expr :=
  lift (expressionFrom (getInputTargetBlock block name)).

(** The loop of [convertIfBlock]: [index] runs while the block has an input
    ["IF" + index].  [fuel] bounds the number of iterations; the number of
    inputs of the block is always enough ([ifBranches_fuel]). *)
Fixpoint ifBranches (fuel index : nat) : M (list (Expr * list Node)) :=
  match fuel with
  | 0 => ret []
  | S fuel' =>
      match getInput block ("IF" +:+ pretty index) with
      | None => ret []
      | Some _ =>
          let* condition := expressionFromInput ("IF" +:+ pretty index) in
          let* body := sequenceFromInput ("DO" +:+ pretty index) in
          let* rest := ifBranches fuel' (S index) in
          ret ((condition, body) :: rest)
      end
  end.

Definition convertIfBlock : M Node :=
  let* branches := ifBranches (length (inputList block)) 0 in
  let* elseBody := sequenceFromInput "ELSE" in
  let* id := blockId block in
  ret (If id branches
         (match elseBody with [] => None | _ => Some elseBody end)).

Definition convertRepeatBlock : M Node :=
  let* id := blockId block in
  let* count := expressionFromInput "TIMES" in
  let* body := sequenceFromInput "DO" in
  ret (Repeat id count body).

Definition convertWhileBlock : M Node :=
  let mode :=
    if strict_eq_str (getFieldValue block "MODE") "UNTIL"
    then mode_until else mode_while in
  let* id := blockId block in
  let* condition := expressionFromInput "BOOL" in
  let* body := sequenceFromInput "DO" in
  ret (While id mode condition body).

Definition convertForBlock : M Node :=
  if String.eqb (block_type block) "controls_for" then
    let* id := blockId block in
    let variable := JS.or (getFieldValue block "VAR") (VStr "i") in
    let* from := expressionFromInput "FROM" in
    let* to := expressionFromInput "TO" in
    let* by_ := expressionFromInput "BY" in
    let* body := sequenceFromInput "DO" in
    ret (ForRange id variable from to by_ body)
  else
    let* id := blockId block in
    let variable := JS.or (getFieldValue block "VAR") (VStr "item") in
    let* collection := expressionFromInput "LIST" in
    let* body := sequenceFromInput "DO" in
    ret (ForEach id variable collection body).

Definition convertFlowStatement : M Node :=
  let* flow := lift (lowerField block "FLOW" "BREAK") in
  let* id := blockId block in
  ret (Flow id flow).

Definition convertStatementBlock : M (list Node) :=
  let type := block_type block in
  if String.eqb type "controls_if" then
    let* n := convertIfBlock in ret [n]
  else if String.eqb type "controls_repeat_ext" then
    let* n := convertRepeatBlock in ret [n]
  else if String.eqb type "controls_whileUntil" then
    let* n := convertWhileBlock in ret [n]
  else if String.eqb type "controls_for"
          || String.eqb type "controls_forEach" then
    let* n := convertForBlock in ret [n]
  else if String.eqb type "controls_flow_statements" then
    let* n := convertFlowStatement in ret [n]
  else if bool_decide (is_Some (parameterReaders !! type))
          || bool_decide (type ∈ commandsWithoutParameters) then
    let* n := convertCommandBlock block in ret [n]
  else
    let* _ := console_warn ("Ignoring unsupported statement block: " +:+ type) in
    ret [].

End Converters.

Definition applyMetadata (block : Block) : M unit :=
  fun s =>
    let metadata := st_metadata s in
    let metadata :=
      <[ "robot_brand" :=
           JS.or (getFieldValue block "ROBOT_BRAND") (VStr "default") ]>
        metadata in
    let metadata :=
      <[ "namespace" :=
           JS.or (getFieldValue block "NAMESPACE")
             (VStr "GeneratedWorkflows") ]> metadata in
    let metadata :=
      <[ "class_name" :=
           JS.or (getFieldValue block "CLASS_NAME") (VStr "RobotProgram") ]>
        metadata in
    let metadata :=
      <[ "method_name" :=
           JS.or (getFieldValue block "METHOD_NAME") (VStr "Run") ]>
        metadata in
    let metadata :=
      <[ "attach_console_logger" :=
           VBool (strict_eq_str (getFieldValue block "ATTACH_LOGGER")
                    "TRUE") ]> metadata in
    Ok (tt, mkState metadata (st_console s) (st_gen s)).

(** [sequenceFrom(block, metadata)] for a block that is present: the
    [while (current)] loop, one iteration per unfolding. *)
Fixpoint sequenceFromBlock (current : Block) : M (list Node) :=
  let* nodes :=
    if String.eqb (block_type current) "set_metadata" then
      let* _ := applyMetadata current in ret []
    else
      convertStatementBlock
        (fun name =>
           withInputTarget sequenceFromBlock (ret []) name
             (inputList current))
        current in
  let* rest :=
    match getNextBlock current with
    | Some next => sequenceFromBlock next
    | None => ret []
    end in
  ret (nodes ++ rest).

(** [sequenceFrom(block, metadata)], [block] possibly [null]. *)
Definition sequenceFrom (block : option Block) : M (list Node) :=
  match block with
  | None => ret []
  | Some b => sequenceFromBlock b
  end.

(** A workspace, as the generator sees it: the blocks returned by
    [workspace.getTopBlocks(true)], in that order. *)
Definition Workspace := list Block.

(** The body of the [forEach] over the top blocks. *)
Fixpoint sequenceFromTopBlocks (topBlocks : list Block) : M (list Node) :=
  match topBlocks with
  | [] => ret []
  | block :: rest =>
      let* nodes := sequenceFromBlock block in
      let* more := sequenceFromTopBlocks rest in
      ret (nodes ++ more)
  end.

(** [Generator.workspaceToDocument(workspace)].  The generator and the
    console outlive the call; the metadata object is created by it.  The
    result comes with the console and the generator as the call leaves
    them. *)
Definition workspaceToDocument (workspace : Workspace)
    (console : list string) (gen : Gen)
  : Res (Document * list string * Gen) :=
  match sequenceFromTopBlocks workspace (mkState ∅ console gen) with
  | Ok (sequence, s) =>
      Ok (mkDocument "1.0" (st_metadata s) sequence, st_console s, st_gen s)
  | Throw e => Throw e
  end.

End Generator.

(** ** Notions used to state the properties of the lowering *)

#[local] Set Elimination Schemes.

(** The blocks of a statement chain, following the next-statement links. *)
Fixpoint chainFromBlock (b : Block) : list Block :=
  b :: match nextBlock b with
       | Some next => chainFromBlock next
       | None => []
       end.

Definition chain (block : option Block) : list Block :=
  match block with
  | Some b => chainFromBlock b
  | None => []
  end.

Fixpoint block_size (b : Block) : nat :=
  S (foldr (fun '(_, t) acc =>
              match t with Some c => block_size c + acc | None => acc end)
       0 (inputList b)
     + match nextBlock b with Some next => block_size next | None => 0 end).

(** The id a block fixes for its node: [block.data || block.id], when one of
    the two is a non-empty string. *)
Definition ownId (b : Block) : option string :=
  match block_data b with
  | Some d =>
      if truthy_str d then Some d
      else if truthy_str (block_id b) then Some (block_id b) else None
  | None => if truthy_str (block_id b) then Some (block_id b) else None
  end.


(** Every block of the graph rooted at [b] (inputs and next statements)
    carries a non-empty [data] or [id]. *)
Fixpoint allHaveIds (b : Block) : bool :=
  bool_decide (is_Some (ownId b))
  && forallb (fun '(_, t) =>
                match t with Some c => allHaveIds c | None => true end)
       (inputList b)
  && match nextBlock b with Some next => allHaveIds next | None => true end.

(** All the nodes of a statement, itself included, outermost first. *)
Fixpoint allNodes (n : Node) : list Node :=
  n :: match n with
       | If _ branches else_branch =>
           flat_map (fun '(_, body) => flat_map allNodes body) branches
           ++ match else_branch with
              | Some body => flat_map allNodes body
              | None => []
              end
       | Repeat _ _ body | While _ _ _ body
       | ForRange _ _ _ _ _ body | ForEach _ _ _ body =>
           flat_map allNodes body
       | Command _ _ _ | Flow _ _ => []
       end.

Section IfBodies.
Context {A : Type} (bodyOfInput : string -> list A) (block : Block).

(** What the loop of [convertIfBlock] visits: the inputs ["DO" + index] for
    the indices at which the block has an input ["IF" + index]. *)
Fixpoint ifBodies (fuel index : nat) : list A :=
  match fuel with
  | 0 => []
  | S fuel' =>
      match getInput block ("IF" +:+ pretty index) with
      | None => []
      | Some _ => bodyOfInput ("DO" +:+ pretty index) ++ ifBodies fuel' (S index)
      end
  end.
End IfBodies.

Section LoweringNotions.
Context `{Host}.

(** The lowering rule of a statement block type, in the order in which
    [convertStatementBlock] tries them; [None] when there is none.  The
    metadata block never reaches [convertStatementBlock]. *)
Inductive StatementKind :=
| kind_if | kind_repeat | kind_while | kind_for_range | kind_for_each
| kind_flow | kind_command.

(** [parameterReaders[type] || commandsWithoutParameters.has(type)], for a
    type that is no member name of [Object.prototype] ([ownType] below). *)
Definition isCommandType (type : string) : bool :=
  bool_decide (is_Some (parameterReaders !! type))
  || bool_decide (type ∈ commandsWithoutParameters).

Definition statementRule (type : string) : option StatementKind :=
  if String.eqb type "set_metadata" then None
  else if String.eqb type "controls_if" then Some kind_if
  else if String.eqb type "controls_repeat_ext" then Some kind_repeat
  else if String.eqb type "controls_whileUntil" then Some kind_while
  else if String.eqb type "controls_for" then Some kind_for_range
  else if String.eqb type "controls_forEach" then Some kind_for_each
  else if String.eqb type "controls_flow_statements" then Some kind_flow
  else if isCommandType type then Some kind_command
  else None.

(** The member names of [Object.prototype], for which
    [parameterReaders[type]] is truthy although the table has no such
    key. *)
Definition objectPrototypeNames : list string :=
  ["constructor"; "hasOwnProperty"; "isPrototypeOf"; "propertyIsEnumerable";
   "toLocaleString"; "toString"; "valueOf"; "__proto__";
   "__defineGetter__"; "__defineSetter__"; "__lookupGetter__";
   "__lookupSetter__"].

(** The type is none of these names: the table answers for it with its own
    keys only. *)
Definition ownType (type : string) : bool :=
  negb (existsb (String.eqb type) objectPrototypeNames).

(** The expression block types [expressionFrom] has a case for. *)
Definition expressionTypes : list string :=
  ["math_number"; "logic_boolean"; "logic_compare"; "logic_operation";
   "logic_negate"; "logic_null"; "logic_ternary"; "math_arithmetic";
   "math_single"; "math_trig"; "math_constant"; "math_round"; "math_modulo";
   "math_constrain"; "math_random_int"; "math_random_float"].

(** The value inputs [expressionFrom] reads for a block of each type, in
    the order in which the expression it builds carries their lowerings. *)
Definition operandNames (type : string) : list string :=
  if String.eqb type "logic_compare" || String.eqb type "logic_operation"
     || String.eqb type "math_arithmetic" then ["A"; "B"]
  else if String.eqb type "logic_negate" then ["BOOL"]
  else if String.eqb type "logic_ternary" then ["IF"; "THEN"; "ELSE"]
  else if String.eqb type "math_single" || String.eqb type "math_trig"
          || String.eqb type "math_round" then ["NUM"]
  else if String.eqb type "math_modulo" then ["DIVIDEND"; "DIVISOR"]
  else if String.eqb type "math_constrain" then ["VALUE"; "LOW"; "HIGH"]
  else if String.eqb type "math_random_int" then ["FROM"; "TO"]
  else [].

(** The operands of an expression, in the order of its fields. *)
Definition operands (e : Expr) : list Expr :=
  match e with
  | Comparison _ l r | LogicBinary _ l r | Arithmetic _ l r
  | MathModulo l r | MathRandomInt l r => [l; r]
  | LogicNot a | MathSingle _ a | MathTrig _ a | MathRound _ a => [a]
  | Ternary c t e => [c; t; e]
  | MathConstrain v l h => [v; l; h]
  | LiteralNumber _ | LiteralBoolean _ | LiteralNull | MathConstant _
  | MathRandomFloat => []
  end.

(** The blocks of a chain that have a lowering rule, in chain order. *)
Definition statementBlocks (block : option Block) : list Block :=
  filter (fun b => is_Some (statementRule (block_type b))) (chain block).

(** [id] is the id the lowering gives the node of [b]: the block's own id
    when it has one, else one drawn from the generator. *)
Definition IdOf (b : Block) (id : string) : Prop :=
  match ownId b with
  | Some i => id = i
  | None => exists g, id = (genUid g).1
  end.

(** The parameter record [convertCommandBlock] attaches to a command. *)
Definition commandParameters (b : Block)
  : option (gmap string ParamValue) :=
  if bool_decide (block_type b ∈ commandsWithoutParameters) then None
  else Some (match parameterReaders !! block_type b with
             | Some paramsReader => paramsReader b
             | None => ∅
             end).

(** [Lowered b n]: [n] is the node of the statement block [b].  The bodies
    of a control-flow node are the nodes of the statement blocks of the
    chains connected to the block's statement inputs, in chain order. *)
Inductive Lowered : Block -> Node -> Prop :=
| Lowered_if b id branches elseBody :
    statementRule (block_type b) = Some kind_if ->
    IdOf b id ->
    LoweredBranches b 0 branches ->
    Forall2 Lowered (statementBlocks (getInputTargetBlock b "ELSE"))
      elseBody ->
    Lowered b (If id branches
                 (match elseBody with [] => None | _ => Some elseBody end))
| Lowered_repeat b id count body :
    statementRule (block_type b) = Some kind_repeat ->
    IdOf b id ->
    expressionFrom (getInputTargetBlock b "TIMES") = Ok count ->
    Forall2 Lowered (statementBlocks (getInputTargetBlock b "DO")) body ->
    Lowered b (Repeat id count body)
| Lowered_while b id condition body :
    statementRule (block_type b) = Some kind_while ->
    IdOf b id ->
    expressionFrom (getInputTargetBlock b "BOOL") = Ok condition ->
    Forall2 Lowered (statementBlocks (getInputTargetBlock b "DO")) body ->
    Lowered b (While id
                 (if strict_eq_str (getFieldValue b "MODE") "UNTIL"
                  then mode_until else mode_while)
                 condition body)
| Lowered_for_range b id from to by_ body :
    statementRule (block_type b) = Some kind_for_range ->
    IdOf b id ->
    expressionFrom (getInputTargetBlock b "FROM") = Ok from ->
    expressionFrom (getInputTargetBlock b "TO") = Ok to ->
    expressionFrom (getInputTargetBlock b "BY") = Ok by_ ->
    Forall2 Lowered (statementBlocks (getInputTargetBlock b "DO")) body ->
    Lowered b (ForRange id (JS.or (getFieldValue b "VAR") (VStr "i"))
                 from to by_ body)
| Lowered_for_each b id collection body :
    statementRule (block_type b) = Some kind_for_each ->
    IdOf b id ->
    expressionFrom (getInputTargetBlock b "LIST") = Ok collection ->
    Forall2 Lowered (statementBlocks (getInputTargetBlock b "DO")) body ->
    Lowered b (ForEach id (JS.or (getFieldValue b "VAR") (VStr "item"))
                 collection body)
| Lowered_flow b id flow :
    statementRule (block_type b) = Some kind_flow ->
    IdOf b id ->
    lowerField b "FLOW" "BREAK" = Ok flow ->
    Lowered b (Flow id flow)
| Lowered_command b id :
    statementRule (block_type b) = Some kind_command ->
    IdOf b id ->
    Lowered b (Command id (block_type b) (commandParameters b))

(** The branches of an [if] block from index [index] on: one per input
    ["IF" + index] the block has, until the first index it has not. *)
with LoweredBranches : Block -> nat -> list (Expr * list Node) -> Prop :=
| LoweredBranches_done b index :
    getInput b ("IF" +:+ pretty index) = None ->
    LoweredBranches b index []
| LoweredBranches_more b index condition body rest :
    is_Some (getInput b ("IF" +:+ pretty index)) ->
    expressionFrom (getInputTargetBlock b ("IF" +:+ pretty index))
    = Ok condition ->
    Forall2 Lowered
      (statementBlocks (getInputTargetBlock b ("DO" +:+ pretty index)))
      body ->
    LoweredBranches b (S index) rest ->
    LoweredBranches b index ((condition, body) :: rest).

(** The metadata blocks the lowering of a statement block visits inside
    it, given those of the chains connected to its inputs. *)
Definition metadataInside (inside : string -> list Block) (b : Block)
  : list Block :=
  match statementRule (block_type b) with
  | Some kind_if =>
      ifBodies inside b (length (inputList b)) 0 ++ inside "ELSE"
  | Some kind_repeat | Some kind_while
  | Some kind_for_range | Some kind_for_each => inside "DO"
  | Some kind_flow | Some kind_command | None => []
  end.

(** The metadata blocks the lowering of a chain visits, in the order in
    which it visits them: a block, the chains inside it, then the next
    block. *)
Fixpoint metadataBlocksFromBlock (b : Block) : list Block :=
  (if String.eqb (block_type b) "set_metadata" then [b]
   else metadataInside
          (fun name =>
             withInputTarget metadataBlocksFromBlock [] name (inputList b))
          b)
  ++ match nextBlock b with
     | Some next => metadataBlocksFromBlock next
     | None => []
     end.

Definition metadataBlocks (block : option Block) : list Block :=
  match block with
  | Some b => metadataBlocksFromBlock b
  | None => []
  end.

(** The statement inputs of a block whose chains the lowering goes into:
    DO of a loop, ELSE of an [if] and its ["DO" + i], for the indices [i] up
    to which the block has all the inputs ["IF" + j]. *)
Inductive BodyInput (b : Block) : string -> Prop :=
| BodyInput_loop rule :
    statementRule (block_type b) = Some rule ->
    rule ∈ [kind_repeat; kind_while; kind_for_range; kind_for_each] ->
    BodyInput b "DO"
| BodyInput_else :
    statementRule (block_type b) = Some kind_if ->
    BodyInput b "ELSE"
| BodyInput_branch i :
    statementRule (block_type b) = Some kind_if ->
    (forall j, j <= i -> is_Some (getInput b ("IF" +:+ pretty j))) ->
    BodyInput b ("DO" +:+ pretty i).

(** The value inputs of a block the lowering reads as expressions: the
    count of a repeat block, the condition of a while block, the bounds of
    a for block, the list of a for-each block, and ["IF" + i] of an [if]
    block for the indices [i] up to which the block has all the inputs
    ["IF" + j]. *)
Inductive ExpressionInput (b : Block) : string -> Prop :=
| ExpressionInput_count :
    statementRule (block_type b) = Some kind_repeat ->
    ExpressionInput b "TIMES"
| ExpressionInput_condition :
    statementRule (block_type b) = Some kind_while ->
    ExpressionInput b "BOOL"
| ExpressionInput_bound name :
    statementRule (block_type b) = Some kind_for_range ->
    name ∈ ["FROM"; "TO"; "BY"] ->
    ExpressionInput b name
| ExpressionInput_list :
    statementRule (block_type b) = Some kind_for_each ->
    ExpressionInput b "LIST"
| ExpressionInput_branch i :
    statementRule (block_type b) = Some kind_if ->
    (forall j, j <= i -> is_Some (getInput b ("IF" +:+ pretty j))) ->
    ExpressionInput b ("IF" +:+ pretty i).

(** [Occurs block m]: the block [m] is in the chain [block] or, nested to
    any depth, in a chain inside a control-flow block of it. *)
Inductive Occurs : option Block -> Block -> Prop :=
| Occurs_here block m :
    m ∈ chain block -> Occurs block m
| Occurs_inside block b name m :
    b ∈ chain block ->
    BodyInput b name ->
    Occurs (getInputTargetBlock b name) m ->
    Occurs block m.

(** The five assignments of [applyMetadata], on the metadata object. *)
Definition setMetadata (metadata : gmap string Value) (block : Block)
  : gmap string Value :=
  <[ "attach_console_logger" :=
       VBool (strict_eq_str (getFieldValue block "ATTACH_LOGGER") "TRUE") ]>
    (<[ "method_name" :=
          JS.or (getFieldValue block "METHOD_NAME") (VStr "Run") ]>
       (<[ "class_name" :=
             JS.or (getFieldValue block "CLASS_NAME") (VStr "RobotProgram") ]>
          (<[ "namespace" :=
                JS.or (getFieldValue block "NAMESPACE")
                  (VStr "GeneratedWorkflows") ]>
             (<[ "robot_brand" :=
                   JS.or (getFieldValue block "ROBOT_BRAND")
                     (VStr "default") ]> metadata)))).

(** The metadata a single metadata block describes. *)
Definition metadataOf (block : Block) : gmap string Value :=
  setMetadata ∅ block.

(** No node of [n], at any depth, is a command named after the metadata
    block. *)
Definition noMetadataCommand (n : Node) : Prop :=
  forall m id parameters,
    m ∈ allNodes n -> m <> Command id "set_metadata" parameters.

(** What the lowering [m] of the chain [block] guarantees when it returns:
    the nodes are those of the statement blocks of the chain in order, the
    metadata object has been assigned from the metadata blocks visited, in
    that order, and no node stands for a metadata block. *)
Definition SeqSound (block : option Block) (m : M (list Node)) : Prop :=
  forall s nodes s',
    m s = Ok (nodes, s') ->
    Forall2 Lowered (statementBlocks block) nodes
    /\ st_metadata s' = foldl setMetadata (st_metadata s) (metadataBlocks block)
    /\ Forall noMetadataCommand nodes.


End LoweringNotions.

(** ** More notions about the lowering *)

(** Every block of the graph rooted at [b]: the block itself, the blocks
    connected to its inputs and the next statements, with theirs. *)
Fixpoint allBlocks (b : Block) : list Block :=
  b :: flat_map (fun '(_, t) =>
                   match t with Some c => allBlocks c | None => [] end)
         (inputList b)
    ++ match nextBlock b with Some next => allBlocks next | None => [] end.

Section ErrorNotions.
Context `{Host}.

(** The fields whose value the lowering lower-cases. *)
Definition operatorFields : list string := ["OP"; "CONSTANT"; "FLOW"].

(** [e] is an exception the block [c] accounts for: its type has no case in
    [expressionFrom], or one of its operator fields holds a value that is
    truthy but not a string. *)
Definition RaisedBy (c : Block) (e : Exn) : Prop :=
  ((block_type c ∉ expressionTypes)
   /\ e = Error ("Unsupported expression block: " +:+ block_type c))
  \/ (exists name msg,
         name ∈ operatorFields
         /\ truthy (getFieldValue c name) = true
         /\ (forall str, getFieldValue c name <> VStr str)
         /\ e = TypeError msg).

Definition RaisedIn (b : Block) (e : Exn) : Prop :=
  exists c, c ∈ allBlocks b /\ RaisedBy c e.

(** Every exception of [m] satisfies [P]. *)
Definition Raises {A} (P : Exn -> Prop) (m : M A) : Prop :=
  forall s e, m s = Throw e -> P e.

End ErrorNotions.

Section DeepNotions.
Context `{Host}.

(** The statement blocks the lowering of a chain gives a node for, at any
    depth, in the order of [allNodes]: a block, then the blocks of the
    chains inside it ([metadataInside] lists them from those of its
    inputs), then the next block. *)
Fixpoint statementBlocksDeepFrom (b : Block) : list Block :=
  match statementRule (block_type b) with
  | Some _ =>
      b :: metadataInside
             (fun name =>
                withInputTarget statementBlocksDeepFrom [] name (inputList b))
             b
  | None => []
  end
  ++ match nextBlock b with
     | Some next => statementBlocksDeepFrom next
     | None => []
     end.

Definition statementBlocksDeep (block : option Block) : list Block :=
  match block with
  | Some b => statementBlocksDeepFrom b
  | None => []
  end.

(** An [if] node that carries an else branch carries a non-empty one. *)
Definition elseNonEmpty (n : Node) : Prop :=
  match n with
  | If _ _ (Some []) => False
  | _ => True
  end.

End DeepNotions.

Section ConsoleNotions.
Context `{Host}.

(** The statement blocks the lowering of a chain skips, in the order in
    which it comes to them: blocks that are no metadata block and have no
    lowering rule, in the chain and in the chains inside its blocks. *)
Fixpoint skippedFromBlock (b : Block) : list Block :=
  (if String.eqb (block_type b) "set_metadata" then []
   else match statementRule (block_type b) with
        | None => [b]
        | Some _ =>
            metadataInside
              (fun name =>
                 withInputTarget skippedFromBlock [] name (inputList b))
              b
        end)
  ++ match nextBlock b with
     | Some next => skippedFromBlock next
     | None => []
     end.

Definition skippedBlocks (block : option Block) : list Block :=
  match block with
  | Some b => skippedFromBlock b
  | None => []
  end.

(** None of the blocks is named after a member of [Object.prototype].  Of
    the blocks a lowering comes to, those it finds no rule for are the ones
    whose type might be such a name: [ownTypes (skippedBlocks block)] says
    that the table of readers is asked for its own keys only. *)
Definition ownTypes (blocks : list Block) : bool :=
  forallb (fun b => ownType (block_type b)) blocks.

(** The line [console.warn] writes for a skipped block. *)
Definition warningFor (b : Block) : string :=
  "Ignoring unsupported statement block: " +:+ block_type b.

(** A run of [m], the lowering of the chain [block], that returns has
    written the warnings of the skipped blocks and nothing else. *)
Definition Warns (block : option Block) {A} (m : M A) : Prop :=
  forall s a s',
    m s = Ok (a, s') ->
    st_console s' = st_console s ++ map warningFor (skippedBlocks block).

End ConsoleNotions.

Section CompositionNotions.
Context `{Host}.

(** Runs of [m] from any two states end with the same value, or with the
    same exception. *)
Definition StateBlind {A} (m : M A) : Prop :=
  forall s1 s2,
    match m s1, m s2 with
    | Ok (a1, _), Ok (a2, _) => a1 = a2
    | Throw e1, Throw e2 => e1 = e2
    | _, _ => False
    end.

End CompositionNotions.

Section ShapeNotions.
Context `{Host}.

Definition isNumeric (v : Value) : Prop := exists n, v = VNum n.

(** The keys [applyMetadata] assigns. *)
Definition metadataKeys : gset string :=
  list_to_set
    ["robot_brand"; "namespace"; "class_name"; "method_name";
     "attach_console_logger"].

(** A metadata object with all five keys: the four names truthy, the
    logger flag a boolean. *)
Definition CompleteMetadata (metadata : gmap string Value) : Prop :=
  dom metadata = metadataKeys
  /\ (forall key,
         key ∈ ["robot_brand"; "namespace"; "class_name"; "method_name"] ->
         exists v, metadata !! key = Some v /\ truthy v = true)
  /\ exists flag, metadata !! "attach_console_logger" = Some (VBool flag).

(** The keys of a point, as [pointFrom] writes them. *)
Definition poseKeys : gset string :=
  list_to_set ["x"; "y"; "z"; "rx"; "ry"; "rz"].

(** What every parameter of a command node looks like: a number, a boolean
    or a truthy value (so never [null] and never the empty string); a point
    with exactly the six pose keys, all numbers; an array of six numbers. *)
Definition WellFormedParam (v : ParamValue) : Prop :=
  match v with
  | PValue (VNum _) | PValue (VBool _) => True
  | PValue x => truthy x = true
  | PObject o => dom o = poseKeys /\ map_Forall (fun _ => isNumeric) o
  | PArray l => length l = 6 /\ Forall isNumeric l
  end.

End ShapeNotions.


Section GeneratorNotions.
Context `{Host}.

(** The ids the lowering draws for a block: one if the block fixes none. *)
Definition drawsOf (b : Block) : nat :=
  match ownId b with Some _ => 0 | None => 1 end.

(** The generator after [n] calls of [genUid]. *)
Definition drawn (n : nat) (gen : Gen) : Gen :=
  Nat.iter n (fun g => (genUid g).2) gen.

(** A run of [m], the lowering of the chain [block], that returns has
    drawn one id for every block that gets a node and fixes no id. *)
Definition Draws (block : option Block) {A} (m : M A) : Prop :=
  forall s a s',
    m s = Ok (a, s') ->
    st_gen s'
    = drawn (sum_list_with drawsOf (statementBlocksDeep block)) (st_gen s).

End GeneratorNotions.

Section TotalityNotions.
Context `{Host}.

(** The operator fields of the block hold text, or nothing. *)
Definition OperatorsAreText (c : Block) : Prop :=
  forall name,
    name ∈ operatorFields -> truthy (getFieldValue c name) = true ->
    exists str, getFieldValue c name = VStr str.

(** Every block of the graph of [r] is an expression block
    [expressionFrom] has a case for. *)
Definition ExpressionTree (r : Block) : Prop :=
  forall c, c ∈ allBlocks r ->
            block_type c ∈ expressionTypes /\ OperatorsAreText c.

(** The inputs of a statement block that the lowering reads as
    expressions. *)
Definition ValueInput (b : Block) (name : string) : Prop :=
  (block_type b = "controls_if" /\ exists i : nat, name = "IF" +:+ pretty i)
  \/ (block_type b = "controls_repeat_ext" /\ name = "TIMES")
  \/ (block_type b = "controls_whileUntil" /\ name = "BOOL")
  \/ (block_type b = "controls_for" /\ name ∈ ["FROM"; "TO"; "BY"])
  \/ (block_type b = "controls_forEach" /\ name = "LIST").

(** A condition under which the lowering of the graph of [top] raises
    nothing: the operator fields hold text, and what is connected to a
    value input of a control-flow block is a tree of blocks that
    [expressionFrom] has a case for.  Blockly's connection checks give less:
    they let other blocks with a value output into such an input
    ([text_length], [variables_get]). *)
Definition SupportedExpressions (top : Block) : Prop :=
  forall c, c ∈ allBlocks top ->
            OperatorsAreText c
            /\ forall name r,
                 ValueInput c name ->
                 getInputTargetBlock c name = Some r -> ExpressionTree r.

Definition NeverRaises {A} (m : M A) : Prop := Raises (fun _ => False) m.

End TotalityNotions.

(** ** The script loader

    [blockly_loader.js] (and the copy of it at the end of [robot_blocks.js],
    which differs in its three lists only) puts script elements into the
    page one after the other and reports the outcome with an event on
    [window].  What the loader sees and changes is the page: the script
    elements of [document.head], the console and the events dispatched.
    What it cannot decide is whether the browser loads a script; [loads]
    stands for that, the browser calling [onload] of a script it loads and
    [onerror] of one it does not.  The callbacks run one at a time, each
    after the event before it, so that they are composed here as
    functions on the page. *)

Module Loader.

Inductive Level := level_warn | level_error.

Record Page := mkPage {
  head : list string;
  console : list (Level * string);
  events : list string
}.

Definition Callback : Type := Page -> Page.

(** [document.head.appendChild(script)] with [script.src = src] *)
Definition appendChild (src : string) : Callback :=
  fun p => mkPage (head p ++ [src]) (console p) (events p).

(** [script.remove()] on the element appended last *)
Definition remove : Callback :=
  fun p => mkPage (removelast (head p)) (console p) (events p).

Definition console_log (level : Level) (msg : string) : Callback :=
  fun p => mkPage (head p) (console p ++ [(level, msg)]) (events p).

Definition dispatchEvent (name : string) : Callback :=
  fun p => mkPage (head p) (console p) (events p ++ [name]).

Section Loading.
Variable loads : string -> bool.

(** [loadScriptsSequentially(sources, onSuccess, onFailure)]; the list is
    what is left of [sources] from [index] on, its head [sources[index]]. *)
Fixpoint loadScriptsSequentially (sources : list string)
    (onSuccess : Callback) (onFailure : string -> Callback) : Callback :=
  fun p =>
    match sources with
    | [] => onSuccess p
    | src :: rest =>
        let p := appendChild src p in
        if loads src
        then loadScriptsSequentially rest onSuccess onFailure p
        else onFailure src (remove p)
    end.

Variables LOCAL_SCRIPTS CDN_SCRIPTS SUPPORT_SCRIPTS : list string.

Definition finalize : Callback :=
  loadScriptsSequentially SUPPORT_SCRIPTS
    (dispatchEvent "RobotBlocklyReady")
    (fun failedSource =>
       console_log level_error
         ("Failed to load Blockly support script: " +:+ failedSource)).

Definition startLoading : Callback :=
  loadScriptsSequentially LOCAL_SCRIPTS finalize
    (fun _ p =>
       let p :=
         console_log level_warn
           "Local Blockly bundles not found. Falling back to CDN." p in
       loadScriptsSequentially CDN_SCRIPTS finalize
         (fun failed p =>
            let p :=
              console_log level_error
                ("Unable to load Blockly from CDN: " +:+ failed) p in
            dispatchEvent "RobotBlocklyFailed" p)
         p).

(** The scripts of [sources] before the first that does not load, and
    that one. *)
Fixpoint loaded (sources : list string) : list string :=
  match sources with
  | [] => []
  | src :: rest => if loads src then src :: loaded rest else []
  end.

Fixpoint firstFailure (sources : list string) : option string :=
  match sources with
  | [] => None
  | src :: rest => if loads src then firstFailure rest else Some src
  end.

End Loading.

(** The lists of [blockly_loader.js] *)
Definition LOCAL_SCRIPTS : list string :=
  ["vendor/blockly/blockly_compressed.js";
   "vendor/blockly/blocks_compressed.js";
   "vendor/blockly/python_compressed.js";
   "vendor/blockly/msg/en.js"].

Definition CDN_SCRIPTS : list string :=
  ["https://unpkg.com/blockly@12.3.1/blockly_compressed.js";
   "https://unpkg.com/blockly@12.3.1/blocks_compressed.js";
   "https://unpkg.com/blockly@12.3.1/python_compressed.js";
   "https://unpkg.com/blockly@12.3.1/msg/en.js"].

Definition SUPPORT_SCRIPTS : list string :=
  ["robot_blocks.js"; "robot_python_generator.js"].

(** The lists of the copy of the loader that follows [robot_blocks.js]. *)
Definition LOCAL_SCRIPTS_IR : list string :=
  ["vendor/blockly/blockly_compressed.js";
   "vendor/blockly/blocks_compressed.js";
   "vendor/blockly/msg/en.js"].

Definition CDN_SCRIPTS_IR : list string :=
  ["https://unpkg.com/blockly@12.3.1/blockly.min.js"].

Definition SUPPORT_SCRIPTS_IR : list string :=
  ["robot_blocks.js"; "robot_generator.js"].

(** A browser that finds no local bundle but reaches the CDN. *)
Definition cdnOnly (src : string) : bool :=
  negb (String.prefix "vendor/" src).

Definition emptyPage : Page := mkPage [] [] [].

End Loader.


(** ** The toolbox and the block definitions

    [robot_blocks.js]: the categories of the toolbox (as the object that is
    passed to [JSON.stringify]) and the definitions it enters into
    [Blockly.Blocks].  An [init] function is modelled by what it builds: the
    dummy inputs it appends, each with its fields in order, and the
    statement connections it sets. *)

Module RobotBlocks.

Record Category := mkCategory {
  category_name : string;
  category_colour : string;
  category_custom : option string;
  category_contents : list string
}.

Definition CATEGORY_LOGIC : Category :=
  mkCategory "Logic" "#5C81A6" None
    ["controls_if"; "logic_compare"; "logic_operation"; "logic_negate";
     "logic_boolean"; "logic_null"; "logic_ternary"].

Definition CATEGORY_LOOPS : Category :=
  mkCategory "Loops" "#5CA65C" None
    ["controls_repeat_ext"; "controls_whileUntil"; "controls_for";
     "controls_flow_statements"].

Definition CATEGORY_MATH : Category :=
  mkCategory "Math" "#5C68A6" None
    ["math_number"; "math_arithmetic"; "math_single"; "math_trig";
     "math_constant"; "math_round"; "math_modulo"; "math_constrain";
     "math_random_int"; "math_random_float"].

Definition CATEGORY_TEXT : Category :=
  mkCategory "Text" "#A6745C" None
    ["text"; "text_join"; "text_length"; "text_isEmpty"; "text_indexOf";
     "text_charAt"; "text_getSubstring"; "text_changeCase"; "text_trim";
     "text_print"].

Definition CATEGORY_VARIABLES : Category :=
  mkCategory "Variables" "#A65C81" (Some "VARIABLE") [].

Definition CATEGORY_FUNCTIONS : Category :=
  mkCategory "Functions" "#5CA699" (Some "PROCEDURE") [].

Definition CATEGORY_ACTIONS : Category :=
  mkCategory "Robot Actions" "#5C81A6" None
    ["connect_robot"; "disconnect_robot"; "power_on_servo";
     "power_off_servo"; "set_speed"; "set_acceleration"; "move_to";
     "move_joint"; "move_linear"; "move_circular"; "stop_motion";
     "wait_for_move_finish"; "set_tool_coordinate"; "set_user_coordinate";
     "grab"; "release"; "print_numbers"].

Definition CATEGORY_QUERIES : Category :=
  mkCategory "Robot Queries" "#a65c81" None
    ["get_current_joint_position"; "get_current_cartesian_position";
     "get_robot_status"; "get_digital_input"].

Definition CATEGORY_IO : Category :=
  mkCategory "Digital IO" "#5ca65c" None ["set_digital_output"].

Definition CATEGORY_METADATA : Category :=
  mkCategory "Metadata" "#aa8f39" None ["set_metadata"].

(** The [contents] of [Blockly.RobotToolbox]. *)
Definition RobotToolbox : list Category :=
  [CATEGORY_METADATA; CATEGORY_ACTIONS; CATEGORY_IO; CATEGORY_QUERIES;
   CATEGORY_LOGIC; CATEGORY_LOOPS; CATEGORY_MATH].

Definition toolboxTypes : list string :=
  flat_map category_contents RobotToolbox.

Inductive Field :=
| FieldLabel (text : string)
| FieldNumber (value : Value)
| FieldTextInput (text : Value)
| FieldCheckbox (state : string)
| FieldDropdown (options : list (string * string)).

(** An input of the block, a dummy input or a statement input with its
    name, and the fields appended to it, each with the name given to
    [appendField], if any. *)
Inductive Input :=
| DummyInput (appended : list (Field * option string))
| StatementInput (name : string) (appended : list (Field * option string)).

Definition inputFields (input : Input) : list (Field * option string) :=
  match input with
  | DummyInput appended | StatementInput _ appended => appended
  end.

Record BlockDefinition := mkBlockDefinition {
  colour : string;
  inputs : list Input;
  previousStatement : option bool;
  nextStatement : option bool;
  tooltip : option string
}.

(** [type.replace(/_/g, ' ')] *)
Fixpoint replaceUnderscores (s : string) : string :=
  match s with
  | EmptyString => EmptyString
  | String a rest =>
      String (if Ascii.eqb a "_" then " "%char else a)
        (replaceUnderscores rest)
  end.

Definition createBlock (type color : string) (initFn : list Input)
  : string * BlockDefinition :=
  (type,
   mkBlockDefinition color initFn (Some true) (Some true)
     (Some (replaceUnderscores type))).

Definition addLabel (label : string) : Input :=
  DummyInput [(FieldLabel label, None)].

Definition addNumberField (name label : string) (defaultValue : float)
  : Input :=
  DummyInput
    [(FieldLabel label, None);
     (FieldNumber (JS.or (VNum defaultValue) (VNum 0%float)), Some name)].

Definition addTextField (name label defaultValue : string) : Input :=
  DummyInput
    [(FieldLabel label, None);
     (FieldTextInput (JS.or (VStr defaultValue) (VStr "")), Some name)].

Definition addCheckboxField (name label : string) : Input :=
  DummyInput [(FieldLabel label, None); (FieldCheckbox "FALSE", Some name)].

(** [names.forEach(axis => addNumberField(this, axis, axis, 0))] *)
Definition addAxes (names : list string) : list Input :=
  map (fun axis => addNumberField axis axis 0%float) names.

(** The drop-down of the robot brands. *)
Definition brandInput : Input :=
  DummyInput
    [(FieldLabel "Robot brand", None);
     (FieldDropdown
        [("Default", "default"); ("Fanuc", "fanuc"); ("Kuka", "kuka")],
      Some "ROBOT_BRAND")].

(** The definitions from [disconnect_robot] to [get_digital_input], which
    the two versions of [robot_blocks.js] share word for word. *)
Definition commandBlocks : list (string * BlockDefinition) :=
  [createBlock "disconnect_robot" "#5C81A6" [addLabel "Disconnect robot"];
   createBlock "power_on_servo" "#5C81A6" [addLabel "Power on servo"];
   createBlock "power_off_servo" "#5C81A6" [addLabel "Power off servo"];
   createBlock "set_speed" "#5C81A6"
     [addNumberField "PERCENTAGE" "Speed %" 50%float];
   createBlock "set_acceleration" "#5C81A6"
     [addNumberField "PERCENTAGE" "Acceleration %" 50%float];
   createBlock "move_to" "#5C81A6"
     [addLabel "Move to XYZ";
      addNumberField "X" "X" 0%float;
      addNumberField "Y" "Y" 0%float;
      addNumberField "Z" "Z" 0%float;
      addNumberField "SPEED" "Speed %" 50%float];
   createBlock "move_joint" "#5C81A6"
     ([addLabel "Move joint"]
      ++ addAxes ["J1"; "J2"; "J3"; "J4"; "J5"; "J6"]
      ++ [addNumberField "SPEED" "Speed %" 50%float]);
   createBlock "move_linear" "#5C81A6"
     ([addLabel "Move linear"]
      ++ addAxes ["X"; "Y"; "Z"; "RX"; "RY"; "RZ"]
      ++ [addNumberField "SPEED" "Speed %" 50%float]);
   createBlock "move_circular" "#5C81A6"
     ([addLabel "Move circular"; addLabel "Via point"]
      ++ addAxes ["VX"; "VY"; "VZ"; "VRX"; "VRY"; "VRZ"]
      ++ [addLabel "End point"]
      ++ addAxes ["EX"; "EY"; "EZ"; "ERX"; "ERY"; "ERZ"]);
   createBlock "stop_motion" "#5C81A6"
     [addLabel "Stop motion"; addTextField "STOP_TYPE" "Stop type" ""];
   createBlock "wait_for_move_finish" "#5C81A6"
     [addLabel "Wait for move finish";
      addNumberField "TIMEOUT" "Timeout (ms)" 0%float];
   createBlock "set_tool_coordinate" "#5C81A6"
     ([addLabel "Set tool coordinate"]
      ++ addAxes ["TX"; "TY"; "TZ"; "TRX"; "TRY"; "TRZ"]);
   createBlock "set_user_coordinate" "#5C81A6"
     ([addLabel "Set user coordinate"]
      ++ addAxes ["UX"; "UY"; "UZ"; "URX"; "URY"; "URZ"]);
   createBlock "grab" "#5C81A6" [addLabel "Grab"];
   createBlock "release" "#5C81A6" [addLabel "Release"];
   createBlock "print_numbers" "#5C81A6" [addLabel "Print numbers"];
   createBlock "get_current_joint_position" "#a65c81"
     [addLabel "Get current joint position";
      addTextField "STORE" "Store as" "jointPos"];
   createBlock "get_current_cartesian_position" "#a65c81"
     [addLabel "Get current cartesian position";
      addTextField "STORE" "Store as" "cartPos"];
   createBlock "get_robot_status" "#a65c81"
     [addLabel "Get robot status"; addTextField "STORE" "Store as" "status"];
   createBlock "set_digital_output" "#5ca65c"
     [addLabel "Set digital output";
      addNumberField "PORT" "Port" 0%float;
      DummyInput
        [(FieldLabel "Value", None);
         (FieldDropdown [("False", "FALSE"); ("True", "TRUE")],
          Some "VALUE")]];
   createBlock "get_digital_input" "#a65c81"
     [addLabel "Get digital input";
      addNumberField "PORT" "Port" 0%float;
      addTextField "STORE" "Store as" "inputValue"]].

(** The entries of [Blockly.Blocks], in the order of the assignments: in
    the version that goes with the IR generator, *)
Definition Blocks : list (string * BlockDefinition) :=
  [("set_metadata",
    mkBlockDefinition "#aa8f39"
      [addLabel "Workflow metadata";
       brandInput;
       addTextField "NAMESPACE" "Namespace" "GeneratedWorkflows";
       addTextField "CLASS_NAME" "Class name" "RobotProgram";
       addTextField "METHOD_NAME" "Method" "Run";
       addCheckboxField "ATTACH_LOGGER" "Attach console logger"]
      (Some false) None None);
   createBlock "connect_robot" "#5C81A6"
     [addTextField "IP" "IP address" "192.168.0.10";
      addNumberField "PORT" "Port" 60008%float;
      addNumberField "TIMEOUT" "Timeout (ms)" 5000%float]]
  ++ commandBlocks.

(** and in the version that goes with the Python generator, where the
    program starts at a [main_entry] block, the connect block chooses the
    brand and two blocks drive the vision model. *)
Definition PythonBlocks : list (string * BlockDefinition) :=
  [("main_entry",
    mkBlockDefinition "#ffab19"
      [addLabel "Main entry"; StatementInput "DO" []]
      (Some false) (Some false)
      (Some "Program entry point. Only statements connected here will run."));
   createBlock "connect_robot" "#5C81A6"
     [addTextField "IP" "IP address" "192.168.0.10";
      addNumberField "PORT" "Port" 60008%float;
      addNumberField "TIMEOUT" "Timeout (ms)" 5000%float;
      brandInput]]
  ++ commandBlocks
  ++ [createBlock "create_model" "#6D5CA6" [addLabel "Create CV model"];
      createBlock "set_hyperparams" "#6D5CA6"
        [addLabel "Set hyperparameters";
         addNumberField "PARAM_A" "A" 0%float;
         addNumberField "PARAM_B" "B" 0%float;
         addNumberField "PARAM_C" "C" 0%float]].

(** The names of the fields of a block built by a definition. *)
Definition fieldNames (definition : BlockDefinition) : list string :=
  flat_map (fun input => omap snd (inputFields input)) (inputs definition).

End RobotBlocks.


(** ** The Python generator

    The handlers [robot_python_generator.js] enters into
    [python.forBlock].  A handler sees the block, the blocks around it
    ([getParent]) and the table [python.definitions_], which it may extend;
    it returns the code of the block.  Two conversions are the host's: of a
    number in a template literal, and [JSON.stringify].  The handler of
    [main_entry] only wraps what Blockly's [statementToCode] returns and is
    not modelled. *)

Module RobotPython.

Class Render := {
  NumberToString : float -> string;
  JSONstringify : Value -> string
}.

Definition newline : string := String "010"%char EmptyString.

(** [String.prototype.trim], on the white space of ASCII. *)
Definition isWhiteSpace (a : ascii) : bool :=
  let n := nat_of_ascii a in
  ((9 <=? n)%nat && (n <=? 13)%nat) || (n =? 32)%nat.

Fixpoint trimStart (s : string) : string :=
  match s with
  | EmptyString => EmptyString
  | String a rest => if isWhiteSpace a then trimStart rest else s
  end.

Fixpoint trimEnd (s : string) : string :=
  match s with
  | EmptyString => EmptyString
  | String a rest =>
      let rest := trimEnd rest in
      if isWhiteSpace a && negb (truthy_str rest) then EmptyString
      else String a rest
  end.

Definition trim (s : string) : string := trimEnd (trimStart s).

(** A block in its place: [parents] are [block.getParent()], the parent of
    that, and so on. *)
Record Placed := mkPlaced {
  self : Block;
  parents : list Block
}.

Definition getParent (block : Placed) : option Placed :=
  match parents block with
  | [] => None
  | parent :: rest => Some (mkPlaced parent rest)
  end.

(** [python.definitions_]; [None] while it is not set. *)
Definition Definitions : Type := option (gmap string string).

Definition Code (A : Type) : Type := Definitions -> A * Definitions.

Section Handlers.
Context `{Host} `{Render}.

(** The loop of [isWithinMain], from [current] upwards. *)
Fixpoint withinMainFrom (current : Block) (above : list Block) : bool :=
  if String.eqb (block_type current) "main_entry" then true
  else match above with
       | [] => false
       | parent :: rest => withinMainFrom parent rest
       end.

Definition isWithinMain (block : Placed) : bool :=
  withinMainFrom (self block) (parents block).

(** [if (!definitions[key]) definitions[key] = value] *)
Definition ensure (key value : string) (definitions : gmap string string)
  : gmap string string :=
  match definitions !! key with
  | Some v => if truthy_str v then definitions else <[ key := value ]> definitions
  | None => <[ key := value ]> definitions
  end.

Definition ensureRobotRuntime (definitions_ : Definitions) : Definitions :=
  let definitions := default ∅ definitions_ in
  let definitions :=
    ensure "import_robot_module" "from tools.robot import Robot"
      definitions in
  Some (ensure "robot_instance" "new_robot = Robot()" definitions).

Definition ensureCvModelRuntime (definitions_ : Definitions) : Definitions :=
  let definitions := default ∅ definitions_ in
  let definitions :=
    ensure "import_cv_model" "from tools.vision import CVModel" definitions in
  Some (ensure "cv_model_instance" "cv_model = CVModel()" definitions).

Definition statement (block : Placed) (methodName : string)
    (argsBuilder : option (Placed -> string)) (target : option string)
  : Code string :=
  fun definitions_ =>
    match getParent block with
    | None => ("", definitions_)
    | Some _ =>
        if negb (isWithinMain block) then ("", definitions_)
        else
          let args :=
            match argsBuilder with
            | Some build => build block
            | None => ""
            end in
          let receiver :=
            match target with
            | Some t => if truthy_str t then t else "new_robot"
            | None => "new_robot"
            end in
          let definitions_ :=
            if String.eqb receiver "new_robot"
            then ensureRobotRuntime definitions_
            else if String.eqb receiver "cv_model"
                 then ensureCvModelRuntime definitions_
                 else definitions_ in
          (receiver +:+ "." +:+ methodName +:+ "(" +:+ args +:+ ")"
           +:+ newline,
           definitions_)
    end.

(** [Number(block.getFieldValue(field) || fallback || 0)] *)
Definition numberField (block : Placed) (field : string) (fallback : float)
  : float :=
  Number (JS.or (JS.or (getFieldValue (self block) field) (VNum fallback))
            (VNum 0%float)).

(** [JSON.stringify(value ?? fallback ?? '')] *)
Definition textField (block : Placed) (field fallback : string) : string :=
  JSONstringify
    (match getFieldValue (self block) field with
     | VNull => VStr fallback
     | value => value
     end).

(** A value in a template literal. *)
Definition toString (v : Value) : string :=
  match v with
  | VNull => "null"
  | VBool b => if b then "true" else "false"
  | VNum x => NumberToString x
  | VStr s => s
  end.

(** [names.map(name => numberField(block, name, 0)).join(', ')] *)
Definition joined (block : Placed) (names : list string) : string :=
  String.concat ", "
    (map (fun name => NumberToString (numberField block name 0%float))
       names).

(** The end of the four query handlers, which is the same in each: the
    call, trimmed, assigned to [store] if there is one. *)
Definition storeCall (store : Value) (call : string) : string :=
  let callLine := trim call in
  if negb (truthy_str callLine) then ""
  else if truthy store then toString store +:+ " = " +:+ callLine +:+ newline
  else callLine +:+ newline.

Definition query (methodName : string)
    (argsBuilder : option (Placed -> string)) (block : Placed)
  : Code string :=
  fun definitions_ =>
    let store := getFieldValue (self block) "STORE" in
    let '(call, definitions_) :=
      statement block methodName argsBuilder None definitions_ in
    (storeCall store call, definitions_).

Definition connect_robot (block : Placed) : Code string :=
  fun definitions_ =>
    match getParent block with
    | None => ("", definitions_)
    | Some _ =>
        if negb (isWithinMain block) then ("", definitions_)
        else
          let ip := textField block "IP" "192.168.0.10" in
          let port := numberField block "PORT" 60008%float in
          let timeout := numberField block "TIMEOUT" 5000%float in
          let brand :=
            JS.or (getFieldValue (self block) "ROBOT_BRAND")
              (VStr "default") in
          let '(call, definitions_) :=
            statement block "action.connect_robot"
              (Some (fun _ =>
                       ip +:+ ", port=" +:+ NumberToString port
                       +:+ ", timeout_ms=" +:+ NumberToString timeout))
              None definitions_ in
          ("new_robot.brand = " +:+ JSONstringify brand +:+ newline +:+ call,
           definitions_)
    end.

(** The handlers of [python.forBlock], but that of [main_entry]. *)
Definition forBlock : list (string * (Placed -> Code string)) :=
  [("connect_robot", connect_robot);
   ("disconnect_robot", fun block =>
      statement block "action.disconnect" None None);
   ("power_on_servo", fun block =>
      statement block "action.power_on_servo" None None);
   ("power_off_servo", fun block =>
      statement block "action.power_off_servo" None None);
   ("set_speed", fun block =>
      let speed := numberField block "PERCENTAGE" 50%float in
      statement block "motion.set_speed"
        (Some (fun _ => NumberToString speed)) None);
   ("set_acceleration", fun block =>
      let accel := numberField block "PERCENTAGE" 50%float in
      statement block "motion.set_acceleration"
        (Some (fun _ => NumberToString accel)) None);
   ("move_to", fun block =>
      let x := numberField block "X" 0%float in
      let y := numberField block "Y" 0%float in
      let z := numberField block "Z" 0%float in
      let speed := numberField block "SPEED" 50%float in
      statement block "motion.move_to"
        (Some (fun _ =>
                 NumberToString x +:+ ", " +:+ NumberToString y +:+ ", "
                 +:+ NumberToString z +:+ ", speed="
                 +:+ NumberToString speed)) None);
   ("move_joint", fun block =>
      let joints := joined block ["J1"; "J2"; "J3"; "J4"; "J5"; "J6"] in
      let speed := numberField block "SPEED" 50%float in
      statement block "motion.move_joint"
        (Some (fun _ => joints +:+ ", speed=" +:+ NumberToString speed))
        None);
   ("move_linear", fun block =>
      let axes := joined block ["X"; "Y"; "Z"; "RX"; "RY"; "RZ"] in
      let speed := numberField block "SPEED" 50%float in
      statement block "motion.move_linear"
        (Some (fun _ => axes +:+ ", speed=" +:+ NumberToString speed))
        None);
   ("move_circular", fun block =>
      let via := joined block ["VX"; "VY"; "VZ"; "VRX"; "VRY"; "VRZ"] in
      let end_ := joined block ["EX"; "EY"; "EZ"; "ERX"; "ERY"; "ERZ"] in
      statement block "motion.move_circular"
        (Some (fun _ => "via=(" +:+ via +:+ "), end=(" +:+ end_ +:+ ")"))
        None);
   ("stop_motion", fun block =>
      let stopType := getFieldValue (self block) "STOP_TYPE" in
      if truthy stopType
      then statement block "motion.stop"
             (Some (fun _ => JSONstringify stopType)) None
      else statement block "motion.stop" None None);
   ("wait_for_move_finish", fun block =>
      let timeout := numberField block "TIMEOUT" 0%float in
      if truthy_num timeout
      then statement block "motion.wait_for_finish"
             (Some (fun _ => "timeout_ms=" +:+ NumberToString timeout)) None
      else statement block "motion.wait_for_finish" None None);
   ("set_tool_coordinate", fun block =>
      let coords := joined block ["TX"; "TY"; "TZ"; "TRX"; "TRY"; "TRZ"] in
      statement block "frames.set_tool" (Some (fun _ => coords)) None);
   ("set_user_coordinate", fun block =>
      let coords := joined block ["UX"; "UY"; "UZ"; "URX"; "URY"; "URZ"] in
      statement block "frames.set_user" (Some (fun _ => coords)) None);
   ("grab", fun block => statement block "gripper.grab" None None);
   ("release", fun block => statement block "gripper.release" None None);
   ("print_numbers", fun block =>
      statement block "debug.print_numbers" None None);
   ("get_current_joint_position", query "status.joint_position" None);
   ("get_current_cartesian_position",
    query "status.cartesian_position" None);
   ("get_robot_status", query "status.snapshot" None);
   ("set_digital_output", fun block =>
      let port := numberField block "PORT" 0%float in
      let value :=
        if strict_eq_str (getFieldValue (self block) "VALUE") "TRUE"
        then "True" else "False" in
      statement block "io.set_output"
        (Some (fun _ => NumberToString port +:+ ", " +:+ value)) None);
   ("get_digital_input", fun block =>
      let port := numberField block "PORT" 0%float in
      query "io.get_input" (Some (fun _ => NumberToString port)) block);
   ("create_model", fun block =>
      statement block "create_model" None (Some "cv_model"));
   ("set_hyperparams", fun block =>
      let a := numberField block "PARAM_A" 0%float in
      let b := numberField block "PARAM_B" 0%float in
      let c := numberField block "PARAM_C" 0%float in
      statement block "set_hyperparams"
        (Some (fun _ =>
                 NumberToString a +:+ ", " +:+ NumberToString b +:+ ", "
                 +:+ NumberToString c))
        (Some "cv_model"))].

(** The receiver a handler calls, and the definitions that go with it. *)
Definition receiverOf (type : string) : string :=
  if String.eqb type "create_model" || String.eqb type "set_hyperparams"
  then "cv_model" else "new_robot".

Definition runtimeKeys (type : string) : list string :=
  if String.eqb (receiverOf type) "cv_model"
  then ["import_cv_model"; "cv_model_instance"]
  else ["import_robot_module"; "robot_instance"].

(** The block is connected below a parent and lies within [main_entry]. *)
Definition generated (block : Placed) : bool :=
  bool_decide (is_Some (getParent block)) && isWithinMain block.

End Handlers.

(** [after] is [before] with the definitions of [keys] ensured: they are
    there and truthy, no truthy definition has changed, and no other key
    has been touched. *)
Definition RuntimeEnsured (keys : list string) (before after : Definitions)
  : Prop :=
  exists definitions,
    after = Some definitions
    /\ (forall key, key ∈ keys ->
                    exists v, definitions !! key = Some v
                              /\ truthy_str v = true)
    /\ (forall key v, default ∅ before !! key = Some v ->
                      truthy_str v = true -> definitions !! key = Some v)
    /\ (forall key, key ∉ keys ->
                    definitions !! key = default ∅ before !! key).

End RobotPython.


(** ** The robot-control surface of RobotLib

    The members [interface IRobotActions] declares and the members
    [abstract class BaseRobot : IRobotActions] declares abstract, as data:
    return type, name and parameters, in source order. *)

Module RobotLib.

Inductive CsType :=
| cs_void | cs_int | cs_double | cs_bool | cs_string
| cs_double_array | cs_CartesianPoint.

Record Method := mkMethod {
  returns : CsType;
  method_name : string;
  parameters : list (CsType * string)
}.

(** [event Action<string> OnLog;] *)
Definition IRobotActions_events : list string := ["OnLog"].

Definition IRobotActions : list Method :=
  [mkMethod cs_void "MoveTo" [(cs_int, "x"); (cs_int, "y"); (cs_int, "z")];
   mkMethod cs_void "Grab" [];
   mkMethod cs_void "Release" [];
   mkMethod cs_void "PrintNumbers" [];
   mkMethod cs_void "ConnectRobot" [(cs_string, "ipAddress"); (cs_int, "port")];
   mkMethod cs_void "DisconnectRobot" [];
   mkMethod cs_void "PowerOnServo" [];
   mkMethod cs_void "PowerOffServo" [];
   mkMethod cs_void "SetSpeed" [(cs_int, "percentage")];
   mkMethod cs_void "SetAcceleration" [(cs_int, "percentage")];
   mkMethod cs_void "MoveJoint"
     [(cs_double, "j1"); (cs_double, "j2"); (cs_double, "j3");
      (cs_double, "j4"); (cs_double, "j5"); (cs_double, "j6")];
   mkMethod cs_void "MoveLinear"
     [(cs_double, "x"); (cs_double, "y"); (cs_double, "z");
      (cs_double, "rx"); (cs_double, "ry"); (cs_double, "rz")];
   mkMethod cs_void "MoveCircular"
     [(cs_CartesianPoint, "viaPoint"); (cs_CartesianPoint, "endPoint")];
   mkMethod cs_void "StopMotion" [];
   mkMethod cs_void "WaitForMoveFinish" [];
   mkMethod cs_double_array "GetCurrentJointPosition" [];
   mkMethod cs_CartesianPoint "GetCurrentCartesianPosition" [];
   mkMethod cs_string "GetRobotStatus" [];
   mkMethod cs_void "SetDigitalOutput" [(cs_int, "port"); (cs_bool, "value")];
   mkMethod cs_bool "GetDigitalInput" [(cs_int, "port")];
   mkMethod cs_void "SetToolCoordinate" [(cs_double_array, "toolData")];
   mkMethod cs_void "SetUserCoordinate" [(cs_double_array, "userData")]].

(** [public event Action<string> OnLog;], raised by [RaiseLog]. *)
Definition BaseRobot_events : list string := ["OnLog"].

(** The [public abstract] methods of [BaseRobot]. *)
Definition BaseRobot : list Method :=
  [mkMethod cs_void "MoveTo" [(cs_int, "x"); (cs_int, "y"); (cs_int, "z")];
   mkMethod cs_void "Grab" [];
   mkMethod cs_void "Release" [];
   mkMethod cs_void "PrintNumbers" [];
   mkMethod cs_void "ConnectRobot" [(cs_string, "ipAddress"); (cs_int, "port")];
   mkMethod cs_void "DisconnectRobot" [];
   mkMethod cs_void "PowerOnServo" [];
   mkMethod cs_void "PowerOffServo" [];
   mkMethod cs_void "SetSpeed" [(cs_int, "percentage")];
   mkMethod cs_void "SetAcceleration" [(cs_int, "percentage")];
   mkMethod cs_void "MoveJoint"
     [(cs_double, "j1"); (cs_double, "j2"); (cs_double, "j3");
      (cs_double, "j4"); (cs_double, "j5"); (cs_double, "j6")];
   mkMethod cs_void "MoveLinear"
     [(cs_double, "x"); (cs_double, "y"); (cs_double, "z");
      (cs_double, "rx"); (cs_double, "ry"); (cs_double, "rz")];
   mkMethod cs_void "MoveCircular"
     [(cs_CartesianPoint, "viaPoint"); (cs_CartesianPoint, "endPoint")];
   mkMethod cs_void "StopMotion" [];
   mkMethod cs_void "WaitForMoveFinish" [];
   mkMethod cs_double_array "GetCurrentJointPosition" [];
   mkMethod cs_CartesianPoint "GetCurrentCartesianPosition" [];
   mkMethod cs_string "GetRobotStatus" [];
   mkMethod cs_void "SetDigitalOutput" [(cs_int, "port"); (cs_bool, "value")];
   mkMethod cs_bool "GetDigitalInput" [(cs_int, "port")];
   mkMethod cs_void "SetToolCoordinate" [(cs_double_array, "toolData")];
   mkMethod cs_void "SetUserCoordinate" [(cs_double_array, "userData")]].

(** An operation of the abstract surface as the specification lists it,
    with the member of the interface that stands for it. *)
Record Operation := mkOperation {
  operation : string;
  member : string;
  arguments : list string
}.

(** The operation set of the specification (section 6).  The six
    coordinates of [setToolCoordinate] and [setUserCoordinate] are one
    argument, an array of six floats. *)
Definition surface : list Operation :=
  [mkOperation "connect" "ConnectRobot" ["address"; "port"; "timeout"];
   mkOperation "disconnect" "DisconnectRobot" [];
   mkOperation "powerOn" "PowerOnServo" [];
   mkOperation "powerOff" "PowerOffServo" [];
   mkOperation "setSpeed" "SetSpeed" ["pct"];
   mkOperation "setAcceleration" "SetAcceleration" ["pct"];
   mkOperation "moveTo" "MoveTo" ["x"; "y"; "z"; "speed"];
   mkOperation "moveJoint" "MoveJoint"
     ["j1"; "j2"; "j3"; "j4"; "j5"; "j6"; "speed"];
   mkOperation "moveLinear" "MoveLinear"
     ["x"; "y"; "z"; "rx"; "ry"; "rz"; "speed"];
   mkOperation "moveCircular" "MoveCircular" ["viaPoint"; "endPoint"];
   mkOperation "stop" "StopMotion" ["stopType"];
   mkOperation "waitForFinish" "WaitForMoveFinish" ["timeout"];
   mkOperation "setToolCoordinate" "SetToolCoordinate" ["toolData"];
   mkOperation "setUserCoordinate" "SetUserCoordinate" ["userData"];
   mkOperation "grab" "Grab" [];
   mkOperation "release" "Release" [];
   mkOperation "getJointPosition" "GetCurrentJointPosition" [];
   mkOperation "getCartesianPosition" "GetCurrentCartesianPosition" [];
   mkOperation "getStatus" "GetRobotStatus" [];
   mkOperation "setDigitalOutput" "SetDigitalOutput" ["port"; "value"];
   mkOperation "getDigitalInput" "GetDigitalInput" ["port"]].

(** The interface declares the operation: a method of that name with as
    many parameters as the operation has arguments. *)
Definition declares (interface : list Method) (op : Operation) : bool :=
  existsb
    (fun m =>
       String.eqb (method_name m) (member op)
       && Nat.eqb (length (parameters m)) (length (arguments op)))
    interface.

(** The arguments that the methods do not take: the speed override of the
    moves, the stop type, and the timeouts. *)
Definition overrides : list string := ["speed"; "stopType"; "timeout"].

Definition withoutOverrides (op : Operation) : Operation :=
  mkOperation (operation op) (member op)
    (List.filter
       (fun a => negb (existsb (String.eqb a) overrides)) (arguments op)).

End RobotLib.

(** ** The validator

    Modelled from the spec: the IR validator and the schema registry
    ([Compiler/ir_schema.py] with its [COMMAND_SPECS] is not among the
    sources).  The rules are those of section 4.3 of the specification, in
    its order; the findings are tagged with the id of the node. *)

Module Validator.

Inductive ParamType :=
| ty_string | ty_number | ty_percentage | ty_boolean
| ty_cartesian_point | ty_coordinate_array.

Record ParamSpec := mkParamSpec {
  param_type : ParamType;
  required : bool
}.

(** [CommandSpec]: the parameter contracts of a command, by name. *)
Definition CommandSpec := list (string * ParamSpec).

Inductive Message :=
| VersionMismatch (found : string)
| DuplicateId
| UnknownCommand (name : string)
| MissingParameter (key : string)
| TypeMismatch (key : string)
| OutOfRange (key : string)
| UndeclaredParameter (key : string)
| StoreAsReused (name : string).

Record ValidationResult := mkValidationResult {
  valid : bool;
  errors : list (string * Message);
  warnings : list (string * Message)
}.

Definition isNumber (v : Value) : bool :=
  match v with VNum _ => true | _ => false end.

(** The closed interval [0, 100]. *)
Definition inPercentageRange (x : float) : bool :=
  PrimFloat.leb 0%float x && PrimFloat.leb x 100%float.

Definition pointKeys : list string := ["x"; "y"; "z"; "rx"; "ry"; "rz"].

(** A present key must match the declared type or shape; a numeric
    percentage must lie in [0, 100]. *)
Definition checkValue (key : string) (type : ParamType) (v : ParamValue)
  : list Message :=
  match type, v with
  | ty_string, PValue (VStr _) => []
  | ty_number, PValue (VNum _) => []
  | ty_boolean, PValue (VBool _) => []
  | ty_percentage, PValue (VNum x) =>
      if inPercentageRange x then [] else [OutOfRange key]
  | ty_cartesian_point, PObject o =>
      if forallb (fun k => match o !! k with
                           | Some v => isNumber v
                           | None => false
                           end) pointKeys
         && Nat.eqb (size o) 6
      then [] else [TypeMismatch key]
  | ty_coordinate_array, PArray a =>
      if forallb isNumber a && Nat.eqb (length a) 6
      then [] else [TypeMismatch key]
  | _, _ => [TypeMismatch key]
  end.

(** Every required key must be present, every present key must match. *)
Definition checkParameter (params : gmap string ParamValue)
    (entry : string * ParamSpec) : list Message :=
  let '(key, spec) := entry in
  match params !! key with
  | None => if required spec then [MissingParameter key] else []
  | Some v => checkValue key (param_type spec) v
  end.

Definition parametersOf (parameters : option (gmap string ParamValue))
  : gmap string ParamValue :=
  match parameters with Some params => params | None => ∅ end.

Section Validate.
Variable registry : gmap string CommandSpec.

(** Rule 3, the errors of one node. *)
Definition commandErrors (n : Node) : list (string * Message) :=
  match n with
  | Command id name parameters =>
      match registry !! name with
      | None => [(id, UnknownCommand name)]
      | Some spec =>
          map (fun m => (id, m))
            (flat_map (checkParameter (parametersOf parameters)) spec)
      end
  | _ => []
  end.

(** Rule 3, the warnings of one node: parameters the spec does not
    declare. *)
Definition commandWarnings (n : Node) : list (string * Message) :=
  match n with
  | Command id name parameters =>
      match registry !! name with
      | None => []
      | Some spec =>
          map (fun key => (id, UndeclaredParameter key))
            (List.filter
               (fun key => negb (existsb (String.eqb key) (spec.*1)))
               (map_to_list (parametersOf parameters)).*1)
      end
  | _ => []
  end.

(** Rule 2: an id seen earlier in the document is an error. *)
Fixpoint duplicateIds (seen : list string) (nodes : list Node)
  : list (string * Message) :=
  match nodes with
  | [] => []
  | n :: rest =>
      (if existsb (String.eqb (node_id n)) seen
       then [(node_id n, DuplicateId)] else [])
      ++ duplicateIds (node_id n :: seen) rest
  end.

Definition storeAs (n : Node) : option string :=
  match n with
  | Command _ _ (Some params) =>
      match params !! "store_as" with
      | Some (PValue (VStr name)) => Some name
      | _ => None
      end
  | _ => None
  end.

(** Rule 5: a [store_as] name used earlier in the document is a warning. *)
Fixpoint storeAsReuse (seen : list string) (nodes : list Node)
  : list (string * Message) :=
  match nodes with
  | [] => []
  | n :: rest =>
      match storeAs n with
      | Some name =>
          (if existsb (String.eqb name) seen
           then [(node_id n, StoreAsReused name)] else [])
          ++ storeAsReuse (name :: seen) rest
      | None => storeAsReuse seen rest
      end
  end.

(** [validate(Document)]: all the findings of one pass over all the nodes
    of the document (rule 4: bodies are visited like the sequence). *)
Definition validate (doc : Document) : ValidationResult :=
  let nodes := flat_map allNodes (sequence doc) in
  let errors := duplicateIds [] nodes ++ flat_map commandErrors nodes in
  let warnings :=
    (if String.eqb (version doc) "1.0" then []
     else [("", VersionMismatch (version doc))])
    ++ flat_map commandWarnings nodes
    ++ storeAsReuse [] nodes in
  mkValidationResult
    (match errors with [] => true | _ => false end) errors warnings.

(** The range errors among the findings. *)
Definition isRangeError (m : Message) : bool :=
  match m with OutOfRange _ => true | _ => false end.

(** The percentage rule read on its own: a command the registry declares
    owes one range error for each parameter its spec types as a percentage
    and whose value is a number outside [0, 100]. *)
Definition percentageErrors (n : Node) : list (string * Message) :=
  match n with
  | Command id name parameters =>
      match registry !! name with
      | Some spec =>
          flat_map
            (fun entry : string * ParamSpec =>
               match param_type entry.2,
                     parametersOf parameters !! entry.1 with
               | ty_percentage, Some (PValue (VNum x)) =>
                   if inPercentageRange x then []
                   else [(id, OutOfRange entry.1)]
               | _, _ => []
               end)
            spec
      | None => []
      end
  | _ => []
  end.

End Validate.

(** A document whose sequence is one [set_speed] command. *)
Definition setSpeedDocument (id : string) (percentage : float) : Document :=
  mkDocument "1.0" ∅
    [Command id "set_speed"
       (Some {[ "percentage" := PValue (VNum percentage) ]})].

(** A document with a [set_speed] command inside a loop. *)
Definition speedInLoopDocument : Document :=
  mkDocument "1.0" ∅
    [Repeat "n1" (LiteralNumber 2%float)
       [Command "n2" "set_speed"
          (Some {[ "percentage" := PValue (VNum 150%float) ]});
        Command "n3" "grab" None]].

(** A registry with the entries of the two percentage commands. *)
Definition percentageRegistry : gmap string CommandSpec :=
  list_to_map
    [("set_speed", [("percentage", mkParamSpec ty_percentage true)]);
     ("set_acceleration", [("percentage", mkParamSpec ty_percentage true)])].

End Validator.

(** ** A concrete host

    An instance of the host built-ins, used to run the generator on concrete
    workspaces: lower-casing of ASCII letters; a [Number(s)] that is [0] on
    the empty string and [NaN] elsewhere (no example below converts another
    string); and an id generator that counts. *)

Definition lowerAscii (a : ascii) : ascii :=
  let n := nat_of_ascii a in
  if (65 <=? n)%nat && (n <=? 90)%nat then ascii_of_nat (n + 32) else a.

Fixpoint lowerString (s : string) : string :=
  match s with
  | EmptyString => EmptyString
  | String a rest => String (lowerAscii a) (lowerString rest)
  end.

#[export] Instance countingHost : Host := {|
  Gen := nat;
  StringToNumber := fun s => if String.eqb s "" then 0%float else nan;
  toLowerCase := lowerString;
  genUid := fun g => ("uid" +:+ pretty g, S g)
|}.

(** The conversions of the Python generator: whole numbers are written in
    decimal (no example below writes another number), and a string goes
    between double quotes as it is (none below needs an escape). *)
Definition wholeToString (x : float) : string :=
  match Prim2SF x with
  | S754_zero _ => "0"
  | S754_infinity s => (if s then "-" else "") +:+ "Infinity"
  | S754_nan => "NaN"
  | S754_finite s m e =>
      (if s then "-" else "")
      +:+ pretty (match e with
                  | Z0 => Zpos m
                  | Zpos p => (Zpos m * 2 ^ Zpos p)%Z
                  | Zneg p => (Zpos m / 2 ^ Zpos p)%Z
                  end)
  end.

Definition quoted (s : string) : string :=
  String "034"%char (s +:+ String "034"%char EmptyString).

#[export] Instance plainRender : RobotPython.Render := {|
  RobotPython.NumberToString := wholeToString;
  RobotPython.JSONstringify := fun v =>
    match v with
    | VNull => "null"
    | VBool b => if b then "true" else "false"
    | VNum x => wholeToString x
    | VStr s => quoted s
    end
|}.

(** A text field left empty, or a field the block does not have. *)
Definition fieldIsEmpty (b : Block) (name : string) : Prop :=
  getFieldValue b name = VStr "" \/ getFieldValue b name = VNull.

(** ** Example blocks *)

Definition grabBlock : Block :=
  mkBlock "grab" None "g1" [] [] None.

Definition stopBlock : Block :=
  mkBlock "stop_motion" None "s1" [("STOP_TYPE", VStr "")] [] None.

Definition waitBlock : Block :=
  mkBlock "wait_for_move_finish" None "w1" [("TIMEOUT", VNum 0%float)] []
    None.

Definition inputBlock : Block :=
  mkBlock "get_digital_input" None "d1"
    [("PORT", VNum 3%float); ("STORE", VStr "")] [] None.

Definition taggedBlock : Block :=
  mkBlock "grab" (Some "pick-1") "g7" [] [] None.

Definition numberBlock : Block :=
  mkBlock "math_number" None "n1" [("NUM", VNum 3%float)] [] None.

Definition trueBlock : Block :=
  mkBlock "logic_boolean" None "t1" [("BOOL", VStr "TRUE")] [] None.

Definition fanucMetadata : Block :=
  mkBlock "set_metadata" None "m1"
    [("ROBOT_BRAND", VStr "fanuc"); ("NAMESPACE", VStr "GeneratedWorkflows");
     ("CLASS_NAME", VStr "RobotProgram"); ("METHOD_NAME", VStr "Run");
     ("ATTACH_LOGGER", VStr "TRUE")] [] None.

(** release, preceded by a second metadata block inside the loop body *)
Definition kukaMetadata : Block :=
  mkBlock "set_metadata" None "m2"
    [("ROBOT_BRAND", VStr "kuka"); ("NAMESPACE", VStr "Cell");
     ("CLASS_NAME", VStr "Pick"); ("METHOD_NAME", VStr "Go");
     ("ATTACH_LOGGER", VStr "FALSE")] []
    (Some (mkBlock "release" None "r1" [] [] None)).

Definition untilBlock : Block :=
  mkBlock "controls_whileUntil" None "u1" [("MODE", VStr "UNTIL")]
    [("BOOL", Some trueBlock); ("DO", Some grabBlock)] None.

(** repeat 3 times: grab, (metadata), release; then a while/until loop *)
Definition repeatBlock : Block :=
  mkBlock "controls_repeat_ext" None "p1" []
    [("TIMES", Some numberBlock);
     ("DO", Some (mkBlock "grab" None "g2" [] [] (Some kukaMetadata)))]
    (Some untilBlock).

(** metadata, then the repeat block and what follows it *)
Definition sampleProgram : Block :=
  mkBlock "set_metadata" None "m1" (fields fanucMetadata) []
    (Some repeatBlock).

(** A repeat block whose count is the length of a text, a block with a
    number as output that [expressionFrom] has no case for; and a repeat
    block with no count. *)
Definition textBlock : Block :=
  mkBlock "text" None "x1" [("TEXT", VStr "abc")] [] None.

Definition lengthBlock : Block :=
  mkBlock "text_length" None "x3" [] [("VALUE", Some textBlock)] None.

Definition lengthCountBlock : Block :=
  mkBlock "controls_repeat_ext" None "p2" []
    [("TIMES", Some lengthBlock); ("DO", Some grabBlock)] None.

(** A sum with its second operand unconnected. *)
Definition halfSumBlock : Block :=
  mkBlock "math_arithmetic" None "x4" [("OP", VStr "ADD")]
    [("A", Some (mkBlock "math_number" None "x5" [("NUM", VNum 2%float)]
                   [] None));
     ("B", None)] None.

Definition noCountBlock : Block :=
  mkBlock "controls_repeat_ext" None "p3" []
    [("TIMES", None); ("DO", Some grabBlock)] None.

(** A statement block of a type the generator has no rule for, followed by
    a grab. *)
Definition printBlock : Block :=
  mkBlock "text_print" None "x2" [] [] (Some grabBlock).

(** A block that carries neither [data] nor [id]. *)
Definition anonymousBlock : Block :=
  mkBlock "grab" None "" [] [] None.

(** What [sampleProgram] lowers to. *)
Definition sampleSequence : list Node :=
  [Repeat "p1" (LiteralNumber 3%float)
     [Command "g2" "grab" None; Command "r1" "release" None];
   While "u1" mode_until (LiteralBoolean true) [Command "g1" "grab" None]].

Definition sampleDocument : Document :=
  mkDocument "1.0" (metadataOf kukaMetadata) sampleSequence.

(** if true then grab, with nothing connected to the else input *)
Definition ifBlock : Block :=
  mkBlock "controls_if" None "i1" []
    [("IF0", Some trueBlock); ("DO0", Some grabBlock); ("ELSE", None)] None.

Definition ifDocument : Document :=
  mkDocument "1.0" ∅
    [If "i1" [(LiteralBoolean true, [Command "g1" "grab" None])] None].

(** A circular move with one coordinate of the via point entered. *)
Definition circleBlock : Block :=
  mkBlock "move_circular" None "c1" [("VX", VNum 1%float)] [] None.

Definition circleParameters : gmap string ParamValue :=
  list_to_map
    [("via_point", pointFrom circleBlock "VX" "VY" "VZ" "VRX" "VRY" "VRZ");
     ("end_point", pointFrom circleBlock "EX" "EY" "EZ" "ERX" "ERY" "ERZ")].

(** A connect block as its definition builds it, and one that carries a
    field the definition does not have. *)
Definition connectBlock : Block :=
  mkBlock "connect_robot" None "k1"
    [("IP", VStr "10.0.0.7"); ("PORT", VNum 0%float);
     ("TIMEOUT", VNum 5000%float)] [] None.

Definition brandedConnectBlock : Block :=
  mkBlock "connect_robot" None "k2"
    (("ROBOT_BRAND", VStr "kuka") :: fields connectBlock) [] None.

(** A speed of zero and a status query below a [main_entry] block, and
    the same speed block on its own. *)
Definition zeroSpeedBlock : Block :=
  mkBlock "set_speed" None "v1" [("PERCENTAGE", VNum 0%float)] [] None.

Definition statusBlock : Block :=
  mkBlock "get_robot_status" None "q1" [("STORE", VStr "status")] [] None.

Definition mainBlock : Block :=
  mkBlock "main_entry" None "e1" []
    [("DO",
      Some (mkBlock "set_speed" None "v1" [("PERCENTAGE", VNum 0%float)] []
              (Some statusBlock)))] None.

Definition placedSpeed : RobotPython.Placed :=
  RobotPython.mkPlaced zeroSpeedBlock [mainBlock].

Definition placedStatus : RobotPython.Placed :=
  RobotPython.mkPlaced statusBlock [zeroSpeedBlock; mainBlock].

Definition looseSpeed : RobotPython.Placed :=
  RobotPython.mkPlaced zeroSpeedBlock [].

(** The speed block with a field its definition does not have. *)
Definition annotatedSpeed : RobotPython.Placed :=
  RobotPython.mkPlaced
    (mkBlock "set_speed" None "v2"
       (("COMMENT", VStr "slow") :: fields zeroSpeedBlock) [] None)
    [mainBlock].

Definition set_speed_handler (block : RobotPython.Placed)
  : RobotPython.Code string :=
  let speed := RobotPython.numberField block "PERCENTAGE" 50%float in
  RobotPython.statement block "motion.set_speed"
    (Some (fun _ => RobotPython.NumberToString speed)) None.

Definition emptyState : State := mkState ∅ [] 0.

Section Properties.
Context `{Host}.

Lemma withInputTarget_spec {A} (k : Block -> A) (d : A) name b :
  withInputTarget k d name (inputList b)
  = match getInputTargetBlock b name with Some c => k c | None => d end.
Proof.
  unfold getInputTargetBlock, getInput.
  induction (inputList b) as [|[n t] rest IH]; simpl; [done|].
  destruct (String.eqb n name); [by destruct t | exact IH].
Qed.

(** The recursive calls, as the source writes them. *)
Lemma expressionFrom_input b name :
  withInputTarget expressionFromBlock (Ok (LiteralNumber 0%float)) name
    (inputList b)
  = expressionFrom (getInputTargetBlock b name).
Proof. by rewrite withInputTarget_spec. Qed.

Lemma sequenceFrom_input b name :
  withInputTarget sequenceFromBlock (ret []) name (inputList b)
  = sequenceFrom (getInputTargetBlock b name).
Proof. by rewrite withInputTarget_spec. Qed.

Lemma bind_inv {A B} (m : M A) (k : A -> M B) s r :
  bind m k s = Ok r -> exists a s1, m s = Ok (a, s1) /\ k a s1 = Ok r.
Proof.
  unfold bind. destruct (m s) as [[a s1]|e]; [eauto | discriminate].
Qed.

Lemma ret_inv {A} (a b : A) (s s' : State) :
  ret a s = Ok (b, s') -> b = a /\ s' = s.
Proof. unfold ret. by intros [= -> ->]. Qed.

Lemma lift_inv {A} (r : Res A) (a : A) (s s' : State) :
  lift r s = Ok (a, s') -> r = Ok a /\ s' = s.
Proof. unfold lift. destruct r; [by intros [= -> ->] | discriminate]. Qed.

Lemma blockId_total block s :
  exists id, blockId block s = Ok (id, mkState (st_metadata s) (st_console s)
                                     (match ownId block with
                                      | Some _ => st_gen s
                                      | None => (genUid (st_gen s)).2
                                      end))
             /\ IdOf block id.
Proof.
  unfold blockId, IdOf, ownId, callGenUid, ret. destruct s as [m c g].
  destruct (block_data block) as [d|]; simpl;
    repeat (case_match; simpl); eauto.
  all: eexists; split; [reflexivity|].
  all: match goal with E : genUid ?g0 = _ |- _ => exists g0; by rewrite E end.
Qed.

Lemma convertCommandBlock_eq block s :
  convertCommandBlock block s
  = bind (blockId block)
      (fun id => ret (Command id (block_type block) (commandParameters block)))
      s.
Proof.
  unfold convertCommandBlock, commandParameters.
  by destruct (bool_decide _).
Qed.

Lemma truthy_empty b name : fieldIsEmpty b name ->
  truthy (JS.or (getFieldValue b name) (VStr "")) = false.
Proof. by intros [-> | ->]. Qed.

(** C10: optional parameter keys are left out of the parameter record when
    their field is empty or zero ([stop_type] of [stop_motion], [timeout_ms]
    of [wait_for_move_finish], [store_as] of the four query commands), and
    the commands of [commandsWithoutParameters] get a node without a
    [parameters] key. *)
Theorem optional_parameters_omitted (block : Block) (s : State) :
  exists id s',
    blockId block s = Ok (id, s')
    /\ (block_type block = "stop_motion" ->
        fieldIsEmpty block "STOP_TYPE" ->
        exists params,
          convertCommandBlock block s
          = Ok (Command id "stop_motion" (Some params), s')
          /\ params !! "stop_type" = None)
    /\ (block_type block = "wait_for_move_finish" ->
        numberField block "TIMEOUT" 0%float = 0%float ->
        exists params,
          convertCommandBlock block s
          = Ok (Command id "wait_for_move_finish" (Some params), s')
          /\ params !! "timeout_ms" = None)
    /\ (block_type block ∈ ["get_current_joint_position";
                             "get_current_cartesian_position";
                             "get_robot_status"; "get_digital_input"] ->
        fieldIsEmpty block "STORE" ->
        exists params,
          convertCommandBlock block s
          = Ok (Command id (block_type block) (Some params), s')
          /\ params !! "store_as" = None)
    /\ (block_type block ∈ ["disconnect_robot"; "power_on_servo";
                             "power_off_servo"; "grab"; "release";
                             "print_numbers"] ->
        convertCommandBlock block s
        = Ok (Command id (block_type block) None, s')).
Proof.
  destruct (blockId_total block s) as (id & Hid & _).
  exists id; eexists; split; [exact Hid|].
  repeat split.
  - intros Ht He. rewrite convertCommandBlock_eq. unfold bind.
    rewrite Hid. unfold ret, commandParameters. rewrite Ht.
    eexists; split; [reflexivity|].
    change (parameterReaders !! "stop_motion") with
      (Some (fun block : Block =>
               let stop := JS.or (getFieldValue block "STOP_TYPE") (VStr "") in
               if truthy stop
               then ({[ "stop_type" := PValue stop ]} : gmap string ParamValue)
               else ∅)).
    simpl. by rewrite truthy_empty.
  - intros Ht He. rewrite convertCommandBlock_eq. unfold bind.
    rewrite Hid. unfold ret, commandParameters. rewrite Ht.
    eexists; split; [reflexivity|].
    change (parameterReaders !! "wait_for_move_finish") with
      (Some (fun block : Block =>
               let timeout := numberField block "TIMEOUT" 0%float in
               if truthy_num timeout
               then ({[ "timeout_ms" := PValue (VNum timeout) ]}
                     : gmap string ParamValue)
               else ∅)).
    simpl. by rewrite He.
  - intros Ht He. rewrite convertCommandBlock_eq. unfold bind.
    rewrite Hid. unfold ret, commandParameters.
    apply truthy_empty in He.
    repeat (apply elem_of_cons in Ht as [-> | Ht]);
      [ | | | | by apply elem_of_nil in Ht ];
      (eexists; split; [reflexivity|]).
    1-3: change (parameterReaders !! _) with (Some storeReader);
      simpl; unfold storeReader; by rewrite He.
    change (parameterReaders !! _) with
      (Some (fun block : Block =>
               let store := JS.or (getFieldValue block "STORE") (VStr "") in
               let params : gmap string ParamValue :=
                 {[ "port" := numberParam block "PORT" 0%float ]} in
               if truthy store then <[ "store_as" := PValue store ]> params
               else params)).
    simpl. by rewrite He.
  - intros Ht. rewrite convertCommandBlock_eq. unfold bind.
    rewrite Hid. unfold ret, commandParameters.
    repeat (apply elem_of_cons in Ht as [-> | Ht]);
      [ done.. | by apply elem_of_nil in Ht ].
Qed.

Lemma strict_eq_str_true v str :
  strict_eq_str v str = true <-> v = VStr str.
Proof.
  destruct v; simpl; try (split; [discriminate | congruence]).
  rewrite String.eqb_eq. split; congruence.
Qed.

Lemma expressionFromInput_eq block name s :
  expressionFromInput block name s
  = match expressionFrom (getInputTargetBlock block name) with
    | Ok e => Ok (e, s)
    | Throw e => Throw e
    end.
Proof. reflexivity. Qed.

Ltac inv_M :=
  repeat match goal with
    | H : bind _ _ _ = Ok _ |- _ =>
        let a := fresh "a" in
        let s1 := fresh "s" in
        let H1 := fresh "Hm" in
        apply bind_inv in H as (a & s1 & H1 & H); cbv beta in H
    | H : ret _ _ = Ok (_, _) |- _ => apply ret_inv in H as [? ?]; subst
    | H : lift _ _ = Ok (_, _) |- _ => apply lift_inv in H as [H ?]; subst
    | H : expressionFromInput _ _ _ = Ok (_, _) |- _ =>
        apply lift_inv in H as [H ?]; subst
    end.

(** C6: a while/until block lowers to a [While] node whose mode is [until]
    exactly when the MODE field is ['UNTIL'], and whose condition is the
    lowering of the block connected to BOOL as it is: nothing is wrapped
    around it for [until]. *)
Theorem while_mode_and_condition
    (f : string -> M (list Node)) (block : Block) (s s1 s2 : State)
    (id : string) (condition : Expr) (body : list Node) :
  blockId block s = Ok (id, s1) ->
  expressionFrom (getInputTargetBlock block "BOOL") = Ok condition ->
  f "DO" s1 = Ok (body, s2) ->
  exists mode,
    convertWhileBlock f block s = Ok (While id mode condition body, s2)
    /\ (mode = mode_until <-> getFieldValue block "MODE" = VStr "UNTIL")
    /\ (mode = mode_while <-> getFieldValue block "MODE" <> VStr "UNTIL").
Proof.
  intros Hid Hc Hb.
  exists (if strict_eq_str (getFieldValue block "MODE") "UNTIL"
          then mode_until else mode_while).
  split.
  - unfold convertWhileBlock, bind. rewrite Hid.
    rewrite expressionFromInput_eq, Hc, Hb. reflexivity.
  - rewrite <- strict_eq_str_true.
    destruct (strict_eq_str _ _); split; split; congruence.
Qed.

(** *** The loop of [convertIfBlock] never needs more iterations than the
    block has inputs *)

Lemma lookupInput_elem name ins :
  is_Some (lookupInput name ins) -> name ∈ ins.*1.
Proof.
  induction ins as [|[n t] rest IH]; simpl; [by intros [? ?]|].
  destruct (String.eqb_spec n name) as [->|]; [left | right; auto].
Qed.

Lemma if_inputs_bounded b n :
  (forall j, j < n -> is_Some (getInput b ("IF" +:+ pretty j))) ->
  n <= length (inputList b).
Proof.
  intros Hall.
  rewrite <- (length_fmap fst (inputList b)).
  replace n with (length ((fun j => "IF" +:+ pretty j) <$> seq 0 n))
    by (by rewrite length_fmap, length_seq).
  apply submseteq_length, NoDup_submseteq.
  - apply NoDup_fmap_2_strong; [|apply NoDup_seq].
    intros x y _ _ Heq. cbv [String.append] in Heq. injection Heq as Heq.
    by apply (inj pretty) in Heq.
  - intros x (j & -> & Hj)%list_elem_of_fmap.
    apply elem_of_seq in Hj. apply lookupInput_elem, Hall. lia.
Qed.

Lemma bind_ext {A B} (m : M A) (k1 k2 : A -> M B) s :
  (forall a s', k1 a s' = k2 a s') -> bind m k1 s = bind m k2 s.
Proof. intros Hk. unfold bind. by destruct (m s) as [[a s']|]. Qed.

Lemma ifBranches_fuel f b fuel extra index s :
  (forall j, j < index -> is_Some (getInput b ("IF" +:+ pretty j))) ->
  index + fuel = length (inputList b) ->
  ifBranches f b (fuel + extra) index s = ifBranches f b fuel index s.
Proof.
  revert index s. induction fuel as [|fuel IH]; intros index s Hbelow Hlen.
  - destruct extra as [|extra]; [done|]. simpl.
    destruct (getInput b ("IF" +:+ pretty index)) eqn:Hin; [|done].
    assert (S index <= length (inputList b)); [|lia].
    apply if_inputs_bounded. intros j Hj.
    destruct (decide (j = index)) as [->|]; [by rewrite Hin|].
    apply Hbelow. lia.
  - simpl. destruct (getInput b ("IF" +:+ pretty index)) eqn:Hin; [|done].
    apply bind_ext. intros c s1. apply bind_ext. intros body s2.
    unfold bind. rewrite IH; [done| |lia].
    intros j Hj. destruct (decide (j = index)) as [->|]; [by rewrite Hin|].
    apply Hbelow. lia.
Qed.

(** *** Induction on the block graph *)

Lemma block_size_target b name c :
  getInputTargetBlock b name = Some c -> block_size c < block_size b.
Proof.
  destruct b as [ty d i fs ins nx]. unfold getInputTargetBlock, getInput.
  simpl. intros Hc.
  assert (block_size c <=
            foldr (fun '(_, t) acc =>
                     match t with
                     | Some c => block_size c + acc
                     | None => acc
                     end) 0 ins) as Hle; [|lia].
  induction ins as [|[n t] rest IH]; simpl in *; [discriminate|].
  destruct (String.eqb n name).
  - subst t. lia.
  - specialize (IH Hc). destruct t; lia.
Qed.

Lemma block_size_next b next :
  nextBlock b = Some next -> block_size next < block_size b.
Proof. destruct b as [ty d i fs ins nx]. simpl. intros ->. lia. Qed.

Lemma Block_sub_ind (P : Block -> Prop) :
  (forall b,
      (forall name c, getInputTargetBlock b name = Some c -> P c) ->
      (forall next, nextBlock b = Some next -> P next) ->
      P b) ->
  forall b, P b.
Proof.
  intros Hstep b.
  assert (forall n b, block_size b < n -> P b) as Hall;
    [|exact (Hall (S (block_size b)) b (Nat.lt_succ_diag_r _))].
  clear b. induction n as [|n IH]; intros b Hb; [lia|].
  apply Hstep.
  - intros name c Hc. apply IH. apply block_size_target in Hc. lia.
  - intros next Hn. apply IH. apply block_size_next in Hn. lia.
Qed.

(** *** What a run of the statement lowering returns *)

Lemma blockId_inv block s id s1 :
  blockId block s = Ok (id, s1) ->
  IdOf block id /\ st_metadata s1 = st_metadata s.
Proof.
  destruct (blockId_total block s) as (id' & Heq & Hid).
  rewrite Heq. by intros [= <- <-].
Qed.

Lemma ifBodies_ext {A} (f g : string -> list A) b fuel index :
  (forall name, f name = g name) ->
  ifBodies f b fuel index = ifBodies g b fuel index.
Proof.
  intros Hfg. revert index.
  induction fuel as [|fuel IH]; intros index; simpl; [done|].
  destruct (getInput b _); [|done]. by rewrite Hfg, IH.
Qed.

Lemma metadataBlocksFromBlock_eq b :
  metadataBlocksFromBlock b
  = (if String.eqb (block_type b) "set_metadata" then [b]
     else metadataInside
            (fun name => metadataBlocks (getInputTargetBlock b name)) b)
    ++ metadataBlocks (nextBlock b).
Proof.
  destruct b as [ty d i fs ins nx]. simpl. f_equal.
  destruct (String.eqb ty "set_metadata"); [done|].
  assert (forall name,
             withInputTarget metadataBlocksFromBlock [] name ins
             = metadataBlocks
                 (getInputTargetBlock (mkBlock ty d i fs ins nx) name))
    as Hext.
  { intros name.
    by rewrite (withInputTarget_spec _ _ _ (mkBlock ty d i fs ins nx)). }
  unfold metadataInside.
  destruct (statementRule _) as [[]|]; rewrite ?Hext; try done.
  f_equal. by apply ifBodies_ext.
Qed.

Lemma statementBlocks_Some b :
  statementBlocks (Some b)
  = (if bool_decide (is_Some (statementRule (block_type b)))
     then [b] else [])
    ++ statementBlocks (nextBlock b).
Proof.
  unfold statementBlocks.
  assert (chain (Some b) = b :: chain (nextBlock b)) as ->
      by (by destruct b as [? ? ? ? ? []]).
  rewrite filter_cons. by case_decide; case_bool_decide.
Qed.

Lemma noMetadataCommand_bodies (n : Node) (bodies : list Node) :
  (forall id parameters, n <> Command id "set_metadata" parameters) ->
  allNodes n = n :: flat_map allNodes bodies ->
  Forall noMetadataCommand bodies ->
  noMetadataCommand n.
Proof.
  intros Hn Hall Hbodies m id parameters. rewrite Hall.
  intros [->|Hin]%elem_of_cons; [apply Hn|].
  apply list_elem_of_In, in_flat_map in Hin as (n' & Hn' & Hm).
  rewrite Forall_forall in Hbodies.
  apply (Hbodies n'); by apply list_elem_of_In.
Qed.

Lemma flat_map_bodies_app (branches : list (Expr * list Node)) :
  flat_map (fun '(_, body) => flat_map allNodes body) branches
  = flat_map allNodes (flat_map snd branches).
Proof.
  induction branches as [|[c body] rest IH]; simpl; [done|].
  by rewrite flat_map_app, IH.
Qed.

Lemma ifBranches_sound f b :
  (forall name, SeqSound (getInputTargetBlock b name) (f name)) ->
  forall fuel index s branches s',
    (forall j, j < index -> is_Some (getInput b ("IF" +:+ pretty j))) ->
    index + fuel = length (inputList b) ->
    ifBranches f b fuel index s = Ok (branches, s') ->
    LoweredBranches b index branches
    /\ st_metadata s'
       = foldl setMetadata (st_metadata s)
           (ifBodies (fun name => metadataBlocks (getInputTargetBlock b name))
              b fuel index)
    /\ Forall noMetadataCommand (flat_map snd branches).
Proof.
  intros Hf. induction fuel as [|fuel IH];
    intros index s branches s' Hbelow Hlen Hrun; simpl in Hrun.
  - inv_M. split; [|by split].
    constructor.
    destruct (getInput b ("IF" +:+ pretty index)) eqn:Hin; [|done].
    assert (S index <= length (inputList b)); [|lia].
    apply if_inputs_bounded. intros j Hj.
    destruct (decide (j = index)) as [->|]; [by rewrite Hin|].
    apply Hbelow. lia.
  - simpl. destruct (getInput b ("IF" +:+ pretty index)) eqn:Hin.
    + inv_M.
      apply Hf in Hm0 as (Hbody & Hmeta & Hno).
      apply IH in Hm1 as (Hrest & Hmeta' & Hno');
        [| intros j Hj; destruct (decide (j = index)) as [->|];
           [by rewrite Hin | apply Hbelow; lia]
         | lia].
      split; [|split].
      * constructor; [by rewrite Hin | done..].
      * rewrite foldl_app. by rewrite <- Hmeta.
      * simpl. by apply Forall_app.
    + inv_M. split; [by constructor | by split].
Qed.

Ltac use_runs Hf :=
  repeat match goal with
    | H : blockId _ _ = Ok (_, _) |- _ => apply blockId_inv in H as [? ?]
    | H : ?f _ _ = Ok (_, _) |- _ => apply Hf in H as (? & ? & ?)
    end.

Lemma convertStatementBlock_sound f b :
  (forall name, SeqSound (getInputTargetBlock b name) (f name)) ->
  String.eqb (block_type b) "set_metadata" = false ->
  forall s nodes s',
    convertStatementBlock f b s = Ok (nodes, s') ->
    match statementRule (block_type b) with
    | Some _ => exists n, nodes = [n] /\ Lowered b n
    | None => nodes = []
    end
    /\ st_metadata s'
       = foldl setMetadata (st_metadata s)
           (metadataInside
              (fun name => metadataBlocks (getInputTargetBlock b name)) b)
    /\ Forall noMetadataCommand nodes.
Proof.
  intros Hf Hmeta s nodes s' Hrun.
  unfold metadataInside.
  destruct (statementRule (block_type b)) as [rule|] eqn:Hrule;
    pose proof Hrule as Hrule';
    unfold statementRule, isCommandType in Hrule'; rewrite Hmeta in Hrule';
    unfold convertStatementBlock in Hrun.
  all: repeat match goal with
         | Hr : context [String.eqb (block_type ?b0) ?str],
           Hr' : context [String.eqb (block_type ?b0) ?str] |- _ =>
             let E := fresh "E" in
             destruct (String.eqb (block_type b0) str) eqn:E;
             rewrite ?E in Hr, Hr';
             rewrite ?orb_true_l, ?orb_false_l in Hr;
             cbv beta iota in Hr, Hr'
         end.
  all: try match goal with
         | Hr : context [if ?c then _ else _],
           Hr' : context [if ?c then _ else _] |- _ =>
             let E := fresh "E" in
             destruct c eqn:E; rewrite ?E in Hr, Hr';
             cbv beta iota in Hr, Hr'
         end.
  all: try match goal with Hr' : _ = Some _ |- _ => discriminate Hr' end.
  all: try match goal with Hr' : _ = None |- _ => discriminate Hr' end.
  all: try match goal with
         | Hr' : Some _ = Some ?r |- _ => injection Hr' as <-
         end.
  - (* if *)
    unfold convertIfBlock in Hrun. inv_M.
    match goal with
    | Hb : ifBranches _ _ _ _ _ = Ok _ |- _ =>
        apply ifBranches_sound in Hb as (Hbr & Hmd & Hno);
        [| done | intros j Hj; lia | done]
    end.
    use_runs Hf.
    split; [|split].
    + eexists; split; [reflexivity|]. by constructor.
    + rewrite foldl_app. congruence.
    + constructor; [|done].
      match goal with
      | |- noMetadataCommand (If _ ?br (match ?eb with _ => _ end)) =>
          apply (noMetadataCommand_bodies _ (flat_map snd br ++ eb));
          [done | | by apply Forall_app];
          simpl; f_equal; rewrite flat_map_bodies_app, flat_map_app;
          by destruct eb
      end.
  - (* repeat *)
    unfold convertRepeatBlock in Hrun. inv_M. use_runs Hf.
    split; [|split].
    + eexists; split; [reflexivity|]. by constructor.
    + simpl. congruence.
    + constructor; [|done].
      eapply noMetadataCommand_bodies; [done | reflexivity | done].
  - (* while *)
    unfold convertWhileBlock in Hrun. inv_M. use_runs Hf.
    split; [|split].
    + eexists; split; [reflexivity|]. by constructor.
    + simpl. congruence.
    + constructor; [|done].
      eapply noMetadataCommand_bodies; [done | reflexivity | done].
  - (* for *)
    unfold convertForBlock in Hrun.
    match goal with
    | E : String.eqb _ "controls_for" = _ |- _ => rewrite E in Hrun
    end.
    inv_M. use_runs Hf.
    split; [|split].
    + eexists; split; [reflexivity|]. by constructor.
    + simpl. congruence.
    + constructor; [|done].
      eapply noMetadataCommand_bodies; [done | reflexivity | done].
  - (* for each *)
    unfold convertForBlock in Hrun.
    match goal with
    | E : String.eqb _ "controls_for" = _ |- _ => rewrite E in Hrun
    end.
    inv_M. use_runs Hf.
    split; [|split].
    + eexists; split; [reflexivity|]. by constructor.
    + simpl. congruence.
    + constructor; [|done].
      eapply noMetadataCommand_bodies; [done | reflexivity | done].
  - (* flow *)
    unfold convertFlowStatement in Hrun. inv_M. use_runs Hf.
    split; [|split].
    + eexists; split; [reflexivity|]. by constructor.
    + simpl. congruence.
    + constructor; [|done]. by apply (noMetadataCommand_bodies _ []).
  - (* command *)
    inv_M. rewrite convertCommandBlock_eq in Hm. inv_M. use_runs Hf.
    split; [|split].
    + eexists; split; [reflexivity|]. by constructor.
    + simpl. congruence.
    + constructor; [|done]. apply (noMetadataCommand_bodies _ []); [|done..].
      intros id p [= _ Hty _]. by rewrite Hty in Hmeta.
  - (* no rule *)
    unfold console_warn in Hrun. inv_M.
    match goal with Hw : Ok _ = Ok _ |- _ => injection Hw as _ <- end.
    by repeat split.
Qed.

Lemma sequenceFromBlock_sound b : SeqSound (Some b) (sequenceFromBlock b).
Proof.
  induction b as [b IHin IHnext] using Block_sub_ind.
  assert (forall name,
             SeqSound (getInputTargetBlock b name)
               (fun s => withInputTarget sequenceFromBlock (ret []) name
                           (inputList b) s)) as Hf.
  { intros name s nodes s'. rewrite withInputTarget_spec.
    destruct (getInputTargetBlock b name) as [c|] eqn:Hc.
    - by apply IHin with name.
    - intros Hr. inv_M. by repeat split. }
  assert (SeqSound (nextBlock b) (sequenceFrom (nextBlock b))) as Hnext.
  { destruct (nextBlock b) as [next|] eqn:Hn.
    - by apply IHnext.
    - intros s nodes s' Hr. simpl in Hr. inv_M. by repeat split. }
  intros s nodes s' Hrun.
  rewrite statementBlocks_Some. simpl. rewrite metadataBlocksFromBlock_eq.
  replace (sequenceFromBlock b s) with
    (bind (if String.eqb (block_type b) "set_metadata"
           then bind (applyMetadata b) (fun _ => ret [])
           else convertStatementBlock
                  (fun name =>
                     withInputTarget sequenceFromBlock (ret []) name
                       (inputList b)) b)
       (fun nodes =>
          bind (sequenceFrom (nextBlock b))
            (fun rest => ret (nodes ++ rest))) s) in Hrun
    by (by destruct b as [? ? ? ? ? []]).
  inv_M. apply Hnext in Hm0 as (Hrest & Hmd & Hno).
  rewrite foldl_app.
  destruct (String.eqb (block_type b) "set_metadata") eqn:Hmeta.
  - inv_M.
    match goal with
    | Ha : applyMetadata _ _ = Ok _ |- _ =>
        unfold applyMetadata in Ha; injection Ha as _ <-
    end.
    assert (statementRule (block_type b) = None) as ->
        by (unfold statementRule; by rewrite Hmeta).
    rewrite bool_decide_eq_false_2 by (by intros [? ?]).
    simpl. split; [done|]. split; [|done].
    by rewrite Hmd.
  - apply (convertStatementBlock_sound _ _ Hf Hmeta) in Hm
        as (Hnodes & Hmd' & Hno').
    split; [|split].
    + destruct (statementRule (block_type b)) as [rule|].
      * destruct Hnodes as (n & -> & Hn).
        rewrite bool_decide_eq_true_2 by done. by constructor.
      * subst a. by rewrite bool_decide_eq_false_2 by (by intros [? ?]).
    + by rewrite Hmd, Hmd'.
    + by apply Forall_app.
Qed.

Lemma sequenceFrom_sound block : SeqSound block (sequenceFrom block).
Proof.
  destruct block as [b|]; [apply sequenceFromBlock_sound|].
  intros s nodes s' Hr. simpl in Hr. inv_M. by repeat split.
Qed.

Lemma sequenceFromTopBlocks_sound workspace s nodes s' :
  sequenceFromTopBlocks workspace s = Ok (nodes, s') ->
  Forall2 Lowered (flat_map (fun b => statementBlocks (Some b)) workspace)
    nodes
  /\ st_metadata s'
     = foldl setMetadata (st_metadata s)
         (flat_map metadataBlocksFromBlock workspace)
  /\ Forall noMetadataCommand nodes.
Proof.
  revert s nodes s'.
  induction workspace as [|b rest IH]; intros s nodes s' Hrun; simpl in Hrun.
  - inv_M. by repeat split.
  - inv_M. apply sequenceFromBlock_sound in Hm as (Hb & Hmd & Hno).
    apply IH in Hm0 as (Hrest & Hmd' & Hno').
    simpl. split; [|split].
    + by apply Forall2_app.
    + rewrite foldl_app. by rewrite Hmd', Hmd.
    + by apply Forall_app.
Qed.

(** *** The metadata object after several metadata blocks *)

Lemma setMetadata_overwrite metadata b' b :
  setMetadata (setMetadata metadata b') b = setMetadata metadata b.
Proof.
  unfold setMetadata. apply map_eq. intros key.
  rewrite !lookup_insert. by repeat case_decide.
Qed.

Lemma setMetadata_foldl bs metadata b :
  setMetadata (foldl setMetadata metadata bs) b = setMetadata metadata b.
Proof.
  revert metadata. induction bs as [|b' bs IH]; intros metadata; simpl.
  - done.
  - by rewrite IH, setMetadata_overwrite.
Qed.

Lemma foldl_setMetadata_last bs metadata :
  foldl setMetadata metadata bs
  = match last bs with
    | Some b => setMetadata metadata b
    | None => metadata
    end.
Proof.
  destruct bs as [|b bs _] using rev_ind; [done|].
  rewrite foldl_app, last_snoc. simpl. apply setMetadata_foldl.
Qed.

Lemma ifBodies_Forall {A} (Q : A -> Prop) (f : string -> list A) b fuel index :
  (forall name, Forall Q (f name)) -> Forall Q (ifBodies f b fuel index).
Proof.
  intros Hf. revert index.
  induction fuel as [|fuel IH]; intros index; simpl; [done|].
  destruct (getInput b _); [|done]. apply Forall_app. by split.
Qed.

Lemma metadataBlocksFromBlock_type b :
  Forall (fun m => block_type m = "set_metadata") (metadataBlocksFromBlock b).
Proof.
  induction b as [b IHin IHnext] using Block_sub_ind.
  assert (forall name,
             Forall (fun m => block_type m = "set_metadata")
               (metadataBlocks (getInputTargetBlock b name))) as Hin.
  { intros name. destruct (getInputTargetBlock b name) eqn:Hc; simpl; [|done].
    by apply (IHin name). }
  rewrite metadataBlocksFromBlock_eq. apply Forall_app. split.
  - destruct (String.eqb_spec (block_type b) "set_metadata") as [Hty|_].
    + by constructor.
    + unfold metadataInside.
      destruct (statementRule _) as [[]|]; try done.
      apply Forall_app. split; [by apply ifBodies_Forall | done].
  - destruct (nextBlock b) eqn:Hn; simpl; [by apply IHnext | done].
Qed.

Lemma chain_unfold b : chain (Some b) = b :: chain (nextBlock b).
Proof. by destruct b as [? ? ? ? ? []]. Qed.

(** What the lowering visits at a block of the chain, it visits in the
    chain. *)
Lemma metadataBlocks_at block b m :
  b ∈ chain block ->
  m ∈ (if String.eqb (block_type b) "set_metadata" then [b]
       else metadataInside
              (fun name => metadataBlocks (getInputTargetBlock b name)) b) ->
  m ∈ metadataBlocks block.
Proof.
  destruct block as [top|]; [|by intros ?%elem_of_nil].
  induction top as [top _ IHnext] using Block_sub_ind.
  rewrite chain_unfold. simpl. rewrite metadataBlocksFromBlock_eq.
  intros [->|Hb]%elem_of_cons Hm; apply elem_of_app; [by left|right].
  destruct (nextBlock top) eqn:Hn; simpl in *; [|by apply elem_of_nil in Hb].
  by apply IHnext.
Qed.

Lemma ifBodies_branch {A} (f : string -> list A) b fuel index i x :
  index <= i -> i < index + fuel ->
  (forall j, j <= i -> is_Some (getInput b ("IF" +:+ pretty j))) ->
  x ∈ f ("DO" +:+ pretty i) ->
  x ∈ ifBodies f b fuel index.
Proof.
  revert index. induction fuel as [|fuel IH]; intros index Hle Hlt Hall Hx;
    [lia|].
  simpl. destruct (Hall index Hle) as [t ->].
  apply elem_of_app.
  destruct (decide (index = i)) as [->|Hne]; [by left|right].
  apply IH; [lia | lia | done..].
Qed.

Lemma metadataBlocks_body b name m :
  BodyInput b name ->
  statementRule (block_type b) <> None ->
  m ∈ metadataBlocks (getInputTargetBlock b name) ->
  m ∈ metadataInside
        (fun name => metadataBlocks (getInputTargetBlock b name)) b.
Proof.
  intros Hbody _ Hm. unfold metadataInside.
  destruct Hbody as [rule Hrule Hkind | Hrule | i Hrule Hall]; rewrite Hrule.
  - repeat (apply elem_of_cons in Hkind as [->|Hkind]); try done.
    by apply elem_of_nil in Hkind.
  - apply elem_of_app. by right.
  - apply elem_of_app. left.
    apply (ifBodies_branch _ _ _ _ i); [lia | | done..].
    assert (S i <= length (inputList b)); [|lia].
    apply if_inputs_bounded. intros j Hj. apply Hall. lia.
Qed.

(** Every metadata block that occurs in a chain, at any depth, is among
    those the lowering visits. *)
Lemma metadataBlocks_complete block m :
  Occurs block m -> block_type m = "set_metadata" ->
  m ∈ metadataBlocks block.
Proof.
  induction 1 as [block m Hm | block b name m Hb Hbody _ IH]; intros Hty.
  - apply (metadataBlocks_at block m); [done|]. rewrite Hty. simpl. by left.
  - apply (metadataBlocks_at block b); [done|].
    assert (statementRule (block_type b) <> None) as Hrule
        by (destruct Hbody; congruence).
    destruct (String.eqb_spec (block_type b) "set_metadata") as [Hmeta|_].
    + exfalso. apply Hrule. unfold statementRule. by rewrite Hmeta.
    + apply (metadataBlocks_body b name); [done..|]. by apply IH.
Qed.

(** C1: the nodes a chain lowers to are the nodes of the statement blocks of
    the chain, in the order of the next-statement links, and the bodies of
    every control-flow node are, in the same way, the nodes of the chains
    connected to its statement inputs ([Lowered]); the sequence of the
    document is that of the top blocks, one after the other.  This is said
    of graphs in which no statement block without a rule is named after a
    member of [Object.prototype] ([ownTypes]). *)
Theorem sequence_order_is_execution_order :
  (forall block s nodes s',
      ownTypes (skippedBlocks block) = true ->
      sequenceFrom block s = Ok (nodes, s') ->
      Forall2 Lowered (statementBlocks block) nodes)
  /\ (forall workspace console gen doc console' gen',
         ownTypes (flat_map skippedFromBlock workspace) = true ->
         workspaceToDocument workspace console gen
         = Ok (doc, console', gen') ->
         Forall2 Lowered
           (flat_map (fun b => statementBlocks (Some b)) workspace)
           (sequence doc)).
Proof.
  split.
  - intros block s nodes s' _ Hrun.
    by apply sequenceFrom_sound in Hrun as [? _].
  - intros workspace console gen doc console' gen' _.
    unfold workspaceToDocument.
    destruct (sequenceFromTopBlocks _ _) as [[nodes s']|e] eqn:Hrun;
      [|discriminate].
    intros [= <- _ _]. simpl.
    by apply sequenceFromTopBlocks_sound in Hrun as [? _].
Qed.

(** C2: no node of the document, at any depth, stands for a metadata block,
    and the blocks that give the nodes of a chain are not metadata blocks;
    every metadata block that occurs in a top-level chain or, at any depth,
    in a chain inside a control-flow block is among the blocks visited for
    the metadata, which are metadata blocks only; the metadata object is
    assigned from each of them in the order of the visit, so that the
    metadata of the document are the field values of the block visited last
    (the empty object when none is visited). *)
Theorem metadata_diverted_last_wins
    (workspace : Workspace) (console console' : list string) (gen gen' : Gen)
    (doc : Document) :
  workspaceToDocument workspace console gen = Ok (doc, console', gen') ->
  Forall noMetadataCommand (sequence doc)
  /\ Forall (fun b => block_type b <> "set_metadata")
       (flat_map (fun b => statementBlocks (Some b)) workspace)
  /\ (forall top m,
         top ∈ workspace -> Occurs (Some top) m ->
         block_type m = "set_metadata" ->
         m ∈ flat_map metadataBlocksFromBlock workspace)
  /\ Forall (fun b => block_type b = "set_metadata")
       (flat_map metadataBlocksFromBlock workspace)
  /\ metadata doc
     = foldl setMetadata ∅ (flat_map metadataBlocksFromBlock workspace)
  /\ metadata doc
     = match last (flat_map metadataBlocksFromBlock workspace) with
       | Some b => metadataOf b
       | None => ∅
       end.
Proof.
  unfold workspaceToDocument.
  destruct (sequenceFromTopBlocks _ _) as [[nodes s']|e] eqn:Hrun;
    [|discriminate].
  intros [= <- _ _]. simpl.
  apply sequenceFromTopBlocks_sound in Hrun as (_ & Hmd & Hno).
  split; [done|]. repeat split.
  - apply Forall_forall. intros b Hb%list_elem_of_In%in_flat_map.
    destruct Hb as (top & _ & Hb%list_elem_of_In).
    apply list_elem_of_filter in Hb as [[rule Hrule] _].
    intros Hty. rewrite Hty in Hrule. discriminate.
  - intros top m Htop Hm Hty.
    apply list_elem_of_In, in_flat_map. exists top.
    split; [by apply list_elem_of_In|].
    apply list_elem_of_In. by apply (metadataBlocks_complete (Some top)).
  - apply Forall_forall. intros b Hb%list_elem_of_In%in_flat_map.
    destruct Hb as (top & _ & Hb%list_elem_of_In).
    pose proof (metadataBlocksFromBlock_type top) as Hall.
    rewrite Forall_forall in Hall. by apply Hall.
  - by rewrite Hmd.
  - rewrite Hmd. simpl. apply foldl_setMetadata_last.
Qed.

Lemma Lowered_id b n : Lowered b n -> IdOf b (node_id n).
Proof. by destruct 1. Qed.

Lemma truthy_str_true d : truthy_str d = true <-> d <> "".
Proof. destruct d; simpl; split; congruence. Qed.

(** C4 (as amended): the id of a node is the [data] string of its block
    when that is non-empty, otherwise the block's [id] when that is
    non-empty, otherwise an id drawn from the generator.  This is said of
    chains in which no statement block without a rule is named after a
    member of [Object.prototype] ([ownTypes]). *)
Theorem node_id_is_data_or_block_id
    (block : option Block) (s s' : State) (nodes : list Node) :
  ownTypes (skippedBlocks block) = true ->
  sequenceFrom block s = Ok (nodes, s') ->
  Forall2
    (fun b n =>
       (forall d, block_data b = Some d -> d <> "" -> node_id n = d)
       /\ (block_data b = None \/ block_data b = Some "" ->
           block_id b <> "" -> node_id n = block_id b)
       /\ (block_data b = None \/ block_data b = Some "" ->
           block_id b = "" -> exists g, node_id n = (genUid g).1))
    (statementBlocks block) nodes.
Proof.
  intros _ Hrun. apply sequenceFrom_sound in Hrun as [Hlow _].
  eapply Forall2_impl; [exact Hlow|].
  intros b n Hid%Lowered_id. unfold IdOf, ownId in Hid.
  repeat split.
  - intros d Hd Hne. rewrite Hd in Hid.
    apply truthy_str_true in Hne. by rewrite Hne in Hid.
  - intros Hd Hne. apply truthy_str_true in Hne.
    destruct Hd as [Hd|Hd]; rewrite Hd in Hid; simpl in Hid;
      by rewrite Hne in Hid.
  - intros Hd He.
    destruct Hd as [Hd|Hd]; rewrite Hd in Hid; simpl in Hid;
      by rewrite He in Hid.
Qed.

(** *** Blocks without a lowering rule *)

Lemma sequenceFromBlock_unfold b s :
  sequenceFromBlock b s
  = bind (if String.eqb (block_type b) "set_metadata"
          then bind (applyMetadata b) (fun _ => ret [])
          else convertStatementBlock
                 (fun name =>
                    withInputTarget sequenceFromBlock (ret []) name
                      (inputList b)) b)
      (fun nodes =>
         bind (sequenceFrom (nextBlock b)) (fun rest => ret (nodes ++ rest)))
      s.
Proof. by destruct b as [? ? ? ? ? []]. Qed.

Lemma allHaveIds_inv b :
  allHaveIds b = true ->
  is_Some (ownId b)
  /\ (forall name c, getInputTargetBlock b name = Some c ->
                     allHaveIds c = true)
  /\ (forall next, nextBlock b = Some next -> allHaveIds next = true).
Proof.
  destruct b as [ty d i fs ins nx]. simpl.
  intros [[Hid Hins]%andb_prop Hnx]%andb_prop.
  split; [by apply bool_decide_eq_true in Hid|]. split.
  - intros name c. unfold getInputTargetBlock, getInput. simpl.
    induction ins as [|[n t] rest IH]; simpl in *; [discriminate|].
    apply andb_prop in Hins as [Ht Hrest].
    destruct (String.eqb n name); [by intros ->|by apply IH].
  - by intros next ->.
Qed.

(** *** The exceptions of the lowering *)

Lemma allBlocks_self b : b ∈ allBlocks b.
Proof. destruct b. simpl. by left. Qed.

Lemma allBlocks_target b name c :
  getInputTargetBlock b name = Some c -> allBlocks c ⊆ allBlocks b.
Proof.
  destruct b as [ty d i fs ins nx]. unfold getInputTargetBlock, getInput.
  simpl. intros Hc x Hx. right. apply elem_of_app. left.
  induction ins as [|[n t] rest IH]; simpl in *; [discriminate|].
  apply elem_of_app.
  destruct (String.eqb n name); [left; by subst t | right; by apply IH].
Qed.

Lemma allBlocks_next b next :
  nextBlock b = Some next -> allBlocks next ⊆ allBlocks b.
Proof.
  destruct b as [ty d i fs ins nx]. simpl. intros -> x Hx.
  right. apply elem_of_app. by right.
Qed.

Lemma RaisedIn_target b name c e :
  getInputTargetBlock b name = Some c -> RaisedIn c e -> RaisedIn b e.
Proof.
  intros Hc (x & Hx & He). exists x. split; [|done].
  by apply (allBlocks_target b name c).
Qed.

Lemma RaisedIn_next b next e :
  nextBlock b = Some next -> RaisedIn next e -> RaisedIn b e.
Proof.
  intros Hn (x & Hx & He). exists x. split; [|done].
  by apply (allBlocks_next b next).
Qed.

Lemma lowerField_raises b name dflt e :
  name ∈ operatorFields ->
  lowerField b name dflt = Throw e -> RaisedIn b e.
Proof.
  intros Hname Hthrow. exists b. split; [apply allBlocks_self|]. right.
  unfold lowerField, JS.or in Hthrow.
  destruct (truthy (getFieldValue b name)) eqn:Htruthy; [|discriminate].
  exists name. unfold RaisedBy.
  destruct (getFieldValue b name) as [|v|x|str]; try discriminate;
    simpl in Hthrow; injection Hthrow as <-; eexists; by repeat split.
Qed.


Lemma expressionFromBlock_raises b e :
  expressionFromBlock b = Throw e -> RaisedIn b e.
Proof.
  revert e. induction b as [b IHin _] using Block_sub_ind. intros e Hthrow.
  assert (forall name e',
             withInputTarget expressionFromBlock
               (Ok (LiteralNumber 0%float)) name (inputList b) = Throw e' ->
             RaisedIn b e') as Hsub.
  { intros name e'. rewrite withInputTarget_spec.
    destruct (getInputTargetBlock b name) as [c|] eqn:Hc; [|discriminate].
    intros Hc'. apply (RaisedIn_target b name c e' Hc). by apply (IHin name c). }
  assert (forall name dflt e',
             name ∈ operatorFields ->
             lowerField b name dflt = Throw e' -> RaisedIn b e') as Hop
      by (intros; by eapply lowerField_raises).
  assert (block_type b ∉ expressionTypes ->
          RaisedIn b (Error ("Unsupported expression block: "
                             +:+ block_type b))) as Hdefault.
  { intros Hty. exists b. split; [apply allBlocks_self|]. by left. }
  clear IHin. destruct b as [ty d i fs ins nx].
  cbn [expressionFromBlock block_type inputList] in *.
  repeat match type of Hthrow with
    | context [String.eqb ty ?str] =>
        destruct (String.eqb_spec ty str) as [->|?]
    end.
  all: repeat match goal with
         | Ht : res_bind ?r _ = Throw _ |- _ =>
             let E := fresh "E" in
             destruct r as [?|?] eqn:E; cbn [res_bind] in Ht
         end.
  all: try discriminate.
  all: try (match goal with Ht : Throw _ = Throw _ |- _ =>
              injection Ht as <- end).
  all: try (eapply Hsub; eassumption).
  all: try (eapply Hop; [|eassumption]; unfold operatorFields;
            repeat (apply elem_of_cons; first [left; reflexivity | right])).
  apply Hdefault. unfold expressionTypes. intros Hin.
  repeat (apply elem_of_cons in Hin as [->|Hin]; [congruence|]).
  by apply elem_of_nil in Hin.
Qed.

Lemma Raises_ext {A} P (m m' : M A) :
  (forall s, m s = m' s) -> Raises P m' -> Raises P m.
Proof. intros Heq Hm s e. rewrite Heq. apply Hm. Qed.

Lemma Raises_ret {A} P (a : A) : Raises P (ret a).
Proof. by intros s e. Qed.

Lemma Raises_bind {A B} P (m : M A) (k : A -> M B) :
  Raises P m -> (forall a, Raises P (k a)) -> Raises P (bind m k).
Proof.
  intros Hm Hk s e. unfold bind.
  destruct (m s) as [[a s1]|e1] eqn:Hms.
  - apply Hk.
  - intros [= <-]. by apply (Hm s).
Qed.

Lemma Raises_lift {A} (P : Exn -> Prop) (r : Res A) :
  (forall e, r = Throw e -> P e) -> Raises P (lift r).
Proof. intros Hr s e. unfold lift. destruct r; [done|]. intros [= <-]. auto. Qed.

Lemma Raises_warn P msg : Raises P (console_warn msg).
Proof. by intros s e. Qed.

Lemma Raises_applyMetadata P b : Raises P (applyMetadata b).
Proof. by intros s e. Qed.

Lemma Raises_blockId P b : Raises P (blockId b).
Proof.
  intros s e. destruct (blockId_total b s) as (id & -> & _). discriminate.
Qed.

Lemma expressionFromInput_raises b name :
  Raises (RaisedIn b) (expressionFromInput b name).
Proof.
  apply Raises_lift. intros e.
  destruct (getInputTargetBlock b name) as [c|] eqn:Hc; [|discriminate].
  intros Hthrow. apply (RaisedIn_target b name c e Hc).
  by apply expressionFromBlock_raises.
Qed.

Ltac raises Hf :=
  repeat first
    [ apply Raises_ret
    | apply Raises_warn
    | apply Raises_applyMetadata
    | apply Raises_blockId
    | apply expressionFromInput_raises
    | apply Hf
    | apply Raises_bind; [|intros ?]
    | match goal with
      | |- Raises _ (if ?c then _ else _) => destruct c
      end ].

Lemma Raises_ifBranches f b fuel index :
  (forall name, Raises (RaisedIn b) (f name)) ->
  Raises (RaisedIn b) (ifBranches f b fuel index).
Proof.
  intros Hf. revert index.
  induction fuel as [|fuel IH]; intros index; simpl.
  - apply Raises_ret.
  - destruct (getInput b _); [|apply Raises_ret].
    apply Raises_bind; [apply expressionFromInput_raises|intros ?].
    apply Raises_bind; [apply Hf|intros ?].
    apply Raises_bind; [apply IH|intros ?].
    apply Raises_ret.
Qed.

Lemma Raises_convertStatementBlock f b :
  (forall name, Raises (RaisedIn b) (f name)) ->
  Raises (RaisedIn b) (convertStatementBlock f b).
Proof.
  intros Hf.
  unfold convertStatementBlock, convertIfBlock, convertRepeatBlock,
    convertWhileBlock, convertForBlock, convertFlowStatement,
    convertCommandBlock.
  repeat match goal with
    | |- Raises _ (if ?c then _ else _) => destruct c
    end.
  all: try (apply Raises_bind;
            [apply Raises_bind;
             [by apply Raises_ifBranches|intros ?]|intros ?]).
  all: try (apply Raises_bind;
            [apply Raises_bind;
             [apply Raises_lift; intros e;
              apply lowerField_raises; unfold operatorFields;
              repeat (apply elem_of_cons; first [left; reflexivity | right])
             |intros ?]|intros ?]).
  all: raises Hf.
Qed.

Lemma Raises_sequenceFromBlock b :
  Raises (RaisedIn b) (sequenceFromBlock b).
Proof.
  induction b as [b IHin IHnext] using Block_sub_ind.
  apply (Raises_ext _ _ _ (sequenceFromBlock_unfold b)).
  apply Raises_bind.
  - destruct (String.eqb _ _).
    + raises IHin.
    + apply Raises_convertStatementBlock. intros name.
      eapply Raises_ext; [intros s; by rewrite withInputTarget_spec|].
      destruct (getInputTargetBlock b name) as [c|] eqn:Hc.
      * intros s e Hthrow. apply (RaisedIn_target b name c e Hc).
        by apply (IHin name c Hc s).
      * apply Raises_ret.
  - intros nodes. apply Raises_bind; [|intros; apply Raises_ret].
    destruct (nextBlock b) as [next|] eqn:Hn; simpl.
    + intros s e Hthrow. apply (RaisedIn_next b next e Hn).
      by apply (IHnext next eq_refl s).
    + apply Raises_ret.
Qed.

(** X1: when no statement block without a rule is named after a member
    of [Object.prototype], the only exceptions the lowering of a workspace
    raises are those of [expressionFrom] on a block whose type has no case,
    and the type error of lower-casing an operator field (OP, CONSTANT,
    FLOW) that holds a truthy value that is not a string; the block is one
    of the graph of a top block. *)
Theorem lowering_raises_only_expression_errors
    (workspace : Workspace) (console : list string) (gen : Gen) (e : Exn) :
  ownTypes (flat_map skippedFromBlock workspace) = true ->
  workspaceToDocument workspace console gen = Throw e ->
  exists top c,
    top ∈ workspace /\ c ∈ allBlocks top /\ RaisedBy c e.
Proof.
  intros _. unfold workspaceToDocument.
  destruct (sequenceFromTopBlocks _ _) as [[nodes s']|e'] eqn:Hrun;
    [discriminate|].
  intros [= ->]. revert Hrun. generalize (mkState ∅ console gen).
  induction workspace as [|b rest IH]; intros s; simpl; [discriminate|].
  unfold bind at 1.
  destruct (sequenceFromBlock b s) as [[nodes s1]|e1] eqn:Hb.
  - unfold bind.
    destruct (sequenceFromTopBlocks rest s1) as [[more s2]|e2] eqn:Hrest;
      [discriminate|].
    intros [= ->]. destruct (IH s1 Hrest) as (top & c & Htop & Hc).
    exists top, c. split; [by right | done].
  - intros [= ->]. apply Raises_sequenceFromBlock in Hb as (c & Hc & He).
    exists b, c. split; [by left | done].
Qed.

(** *** Dispatch on the statement rule *)

Lemma convertStatementBlock_dispatch f b s :
  String.eqb (block_type b) "set_metadata" = false ->
  convertStatementBlock f b s
  = match statementRule (block_type b) with
    | Some kind_if => bind (convertIfBlock f b) (fun n => ret [n]) s
    | Some kind_repeat => bind (convertRepeatBlock f b) (fun n => ret [n]) s
    | Some kind_while => bind (convertWhileBlock f b) (fun n => ret [n]) s
    | Some kind_for_range | Some kind_for_each =>
        bind (convertForBlock f b) (fun n => ret [n]) s
    | Some kind_flow => bind (convertFlowStatement b) (fun n => ret [n]) s
    | Some kind_command => bind (convertCommandBlock b) (fun n => ret [n]) s
    | None =>
        bind (console_warn ("Ignoring unsupported statement block: "
                            +:+ block_type b))
          (fun _ => ret []) s
    end.
Proof.
  intros Hmeta. unfold convertStatementBlock, statementRule, isCommandType.
  rewrite Hmeta.
  repeat match goal with
    | |- context [String.eqb (block_type b) ?str] =>
        destruct (String.eqb (block_type b) str);
        rewrite ?orb_true_l, ?orb_false_l; cbv beta iota; try reflexivity
    end.
  by destruct (_ || _).
Qed.

Lemma bind_ok {A B} (m : M A) (k : A -> M B) s a s1 :
  m s = Ok (a, s1) -> bind m k s = k a s1.
Proof. intros Hm. unfold bind. by rewrite Hm. Qed.

Lemma convertCommandBlock_total b s :
  exists id s1,
    convertCommandBlock b s
    = Ok (Command id (block_type b) (commandParameters b), s1)
    /\ IdOf b id.
Proof.
  destruct (blockId_total b s) as (id & Hid & HidOf).
  exists id. eexists. split; [|done].
  rewrite convertCommandBlock_eq. by rewrite (bind_ok _ _ _ _ _ Hid).
Qed.

(** X2: a chain without control-flow and flow blocks, in which no block
    without a rule is named after a member of [Object.prototype], always
    lowers, whatever its fields hold and whatever the state: every block
    with a command rule gives its command node, the others give none. *)
Theorem command_chains_always_lower (block : option Block) (s : State) :
  ownTypes (skippedBlocks block) = true ->
  Forall (fun b => statementRule (block_type b) = None
                   \/ statementRule (block_type b) = Some kind_command)
    (chain block) ->
  exists nodes s',
    sequenceFrom block s = Ok (nodes, s')
    /\ Forall2
         (fun b n =>
            exists id,
              n = Command id (block_type b) (commandParameters b)
              /\ IdOf b id)
         (statementBlocks block) nodes.
Proof.
  intros _.
  destruct block as [b|]; [|intros _; exists [], s; by split; [|constructor]].
  revert s. induction b as [b _ IHnext] using Block_sub_ind. intros s.
  rewrite chain_unfold, statementBlocks_Some.
  intros [Hb Hrest]%Forall_cons. simpl. rewrite sequenceFromBlock_unfold.
  assert (forall s1,
             exists rest s',
               sequenceFrom (nextBlock b) s1 = Ok (rest, s')
               /\ Forall2
                    (fun b n =>
                       exists id,
                         n = Command id (block_type b) (commandParameters b)
                         /\ IdOf b id)
                    (statementBlocks (nextBlock b)) rest) as Hnext.
  { intros s1. destruct (nextBlock b) as [next|] eqn:Hn.
    - by apply IHnext.
    - exists [], s1. split; [done|constructor]. }
  assert (exists here s1,
             (if String.eqb (block_type b) "set_metadata"
              then bind (applyMetadata b) (fun _ => ret [])
              else convertStatementBlock
                     (fun name =>
                        withInputTarget sequenceFromBlock (ret []) name
                          (inputList b)) b) s = Ok (here, s1)
             /\ Forall2
                  (fun b n =>
                     exists id,
                       n = Command id (block_type b) (commandParameters b)
                       /\ IdOf b id)
                  (if bool_decide (is_Some (statementRule (block_type b)))
                   then [b] else []) here) as (here & s1 & Hhere & Hall).
  { destruct (String.eqb (block_type b) "set_metadata") eqn:Hmeta.
    - assert (statementRule (block_type b) = None) as ->
          by (unfold statementRule; by rewrite Hmeta).
      rewrite bool_decide_eq_false_2 by (by intros [? ?]).
      eexists [], _. split; [reflexivity|constructor].
    - rewrite convertStatementBlock_dispatch by done.
      destruct Hb as [Hrule|Hrule]; rewrite Hrule.
      + rewrite bool_decide_eq_false_2 by (by intros [? ?]).
        eexists [], _. split; [reflexivity|constructor].
      + rewrite bool_decide_eq_true_2 by done.
        destruct (convertCommandBlock_total b s) as (id & s1 & Hcmd & Hid).
        eexists [_], s1. split; [by rewrite (bind_ok _ _ _ _ _ Hcmd)|].
        constructor; [by exists id | constructor]. }
  destruct (Hnext s1) as (rest & s' & Hrun & Hall').
  exists (here ++ rest), s'. split.
  - rewrite (bind_ok _ _ _ _ _ Hhere). by rewrite (bind_ok _ _ _ _ _ Hrun).
  - by apply Forall2_app.
Qed.

(** *** The nodes at every depth *)

Lemma metadataInside_ext (f g : string -> list Block) b :
  (forall name, f name = g name) -> metadataInside f b = metadataInside g b.
Proof.
  intros Hfg. unfold metadataInside.
  destruct (statementRule _) as [[]|]; rewrite ?Hfg; try done.
  f_equal. by apply ifBodies_ext.
Qed.

Lemma statementBlocksDeepFrom_eq b :
  statementBlocksDeepFrom b
  = match statementRule (block_type b) with
    | Some _ =>
        b :: metadataInside
               (fun name => statementBlocksDeep (getInputTargetBlock b name))
               b
    | None => []
    end
    ++ statementBlocksDeep (nextBlock b).
Proof.
  destruct b as [ty d i fs ins nx]. simpl. f_equal.
  destruct (statementRule ty); [|done]. f_equal.
  apply metadataInside_ext. intros name.
  by rewrite (withInputTarget_spec _ _ _ (mkBlock ty d i fs ins nx)).
Qed.

Lemma LoweredBranches_deep b (deep : string -> list Block) :
  (forall name body,
      Forall2 Lowered (statementBlocks (getInputTargetBlock b name)) body ->
      Forall2 Lowered (deep name) (flat_map allNodes body)) ->
  forall index branches,
    LoweredBranches b index branches ->
    forall fuel,
      (forall j, j < index -> is_Some (getInput b ("IF" +:+ pretty j))) ->
      index + fuel = length (inputList b) ->
      Forall2 Lowered (ifBodies deep b fuel index)
        (flat_map (fun '(_, body) => flat_map allNodes body) branches).
Proof.
  intros Hdeep index branches Hbr.
  induction Hbr as [b index Hnone | b index condition body rest Hsome _ Hbody
                                      _ IH];
    intros fuel Hbelow Hlen.
  - destruct fuel; simpl; [constructor|]. rewrite Hnone. constructor.
  - assert (S index <= length (inputList b)) as Hbound.
    { apply if_inputs_bounded. intros j Hj.
      destruct (decide (j = index)) as [->|]; [done|]. apply Hbelow. lia. }
    destruct fuel as [|fuel]; [lia|]. simpl.
    destruct Hsome as [t Ht]. rewrite Ht.
    apply Forall2_app; [by apply Hdeep|].
    apply IH; [done| |lia].
    intros j Hj. destruct (decide (j = index)) as [->|]; [by rewrite Ht|].
    apply Hbelow. lia.
Qed.

Lemma Lowered_deep b :
  forall nodes,
    Forall2 Lowered (statementBlocks (Some b)) nodes ->
    Forall2 Lowered (statementBlocksDeepFrom b) (flat_map allNodes nodes).
Proof.
  induction b as [b IHin IHnext] using Block_sub_ind. intros nodes.
  assert (forall name body,
             Forall2 Lowered (statementBlocks (getInputTargetBlock b name))
               body ->
             Forall2 Lowered
               (statementBlocksDeep (getInputTargetBlock b name))
               (flat_map allNodes body)) as Hin.
  { intros name body. destruct (getInputTargetBlock b name) as [c|] eqn:Hc.
    - by apply (IHin name).
    - intros Hnil. apply Forall2_nil_inv_l in Hnil as ->. constructor. }
  assert (forall rest,
             Forall2 Lowered (statementBlocks (nextBlock b)) rest ->
             Forall2 Lowered (statementBlocksDeep (nextBlock b))
               (flat_map allNodes rest)) as Hnext.
  { intros rest. destruct (nextBlock b) as [next|] eqn:Hn.
    - by apply IHnext.
    - intros Hnil. apply Forall2_nil_inv_l in Hnil as ->. constructor. }
  rewrite statementBlocks_Some, statementBlocksDeepFrom_eq.
  intros (here & rest & Hhere & Hrest & ->)%Forall2_app_inv_l.
  rewrite flat_map_app. apply Forall2_app; [|by apply Hnext].
  destruct (statementRule (block_type b)) as [rule|] eqn:Hrule.
  - rewrite bool_decide_eq_true_2 in Hhere by done.
    apply Forall2_cons_inv_l in Hhere as (n & tl & Hn & Htl & ->).
    apply Forall2_nil_inv_l in Htl as ->.
    simpl. rewrite app_nil_r. unfold metadataInside.
    destruct Hn as [b id branches elseBody Hr Hid Hbr Helse
                   | b id count body Hr Hid Hc Hbody
                   | b id condition body Hr Hid Hc Hbody
                   | b id from to by_ body Hr Hid Hf Ht Hb Hbody
                   | b id collection body Hr Hid Hc Hbody
                   | b id flow Hr Hid Hflow
                   | b id Hr Hid];
      rewrite Hr; simpl.
    + constructor; [by constructor|].
      apply Forall2_app.
      * apply (LoweredBranches_deep b _ Hin 0 branches Hbr);
          [intros j Hj; lia | done].
      * apply Hin in Helse. by destruct elseBody.
    + constructor; [by constructor | by apply Hin].
    + constructor; [by constructor | by apply Hin].
    + constructor; [by constructor | by apply Hin].
    + constructor; [by constructor | by apply Hin].
    + constructor; [by constructor | constructor].
    + constructor; [by constructor | constructor].
  - rewrite bool_decide_eq_false_2 in Hhere by (by intros [? ?]).
    apply Forall2_nil_inv_l in Hhere as ->. constructor.
Qed.

Lemma Lowered_deep_workspace workspace nodes :
  Forall2 Lowered (flat_map (fun b => statementBlocks (Some b)) workspace)
    nodes ->
  Forall2 Lowered (flat_map statementBlocksDeepFrom workspace)
    (flat_map allNodes nodes).
Proof.
  revert nodes. induction workspace as [|b rest IH]; intros nodes; simpl.
  - intros Hnil. apply Forall2_nil_inv_l in Hnil as ->. constructor.
  - intros (here & more & Hhere & Hmore & ->)%Forall2_app_inv_l.
    rewrite flat_map_app. apply Forall2_app; [by apply Lowered_deep|].
    by apply IH.
Qed.

Lemma LoweredBranches_condition b index branches :
  LoweredBranches b index branches ->
  forall i,
    index <= i ->
    (forall j, j <= i -> is_Some (getInput b ("IF" +:+ pretty j))) ->
    exists condition,
      expressionFrom (getInputTargetBlock b ("IF" +:+ pretty i))
      = Ok condition.
Proof.
  induction 1 as [b index Hnone | b index condition body rest Hin Hc _ _ IH];
    intros i Hle Hall.
  - destruct (Hall index Hle) as [t Ht]. congruence.
  - destruct (decide (i = index)) as [->|Hne]; [by exists condition|].
    apply IH; [lia | done].
Qed.

(** The expressions of a statement block that has a node were lowered. *)
Lemma Lowered_expression b n name :
  Lowered b n -> ExpressionInput b name ->
  exists e, expressionFrom (getInputTargetBlock b name) = Ok e.
Proof.
  intros Hlow Hinput.
  destruct Hinput as [Hrule | Hrule | name Hrule Hname | Hrule | i Hrule Hall];
    destruct Hlow; try congruence; eauto.
  - repeat (apply elem_of_cons in Hname as [->|Hname]); eauto.
    by apply elem_of_nil in Hname.
  - apply (LoweredBranches_condition b 0 branches); [done | lia | done].
Qed.

(** C3 (as amended): a statement block of a type without a lowering rule
    (and that is no member name of [Object.prototype]) is skipped with a
    warning on the console and the lowering goes on with the rest of the
    chain; an expression block of a type without a case raises the error
    "Unsupported expression block: <type>"; and an expression that raises,
    in whatever value input of whatever statement block the lowering gives
    a node for, ends the lowering of the workspace (one in which no
    statement block without a rule is named after a member of
    [Object.prototype]): it throws and returns no document. *)
Theorem unsupported_statement_skipped_expression_raises :
  (forall b s,
      ownType (block_type b) = true ->
      block_type b <> "set_metadata" ->
      statementRule (block_type b) = None ->
      sequenceFromBlock b s
      = sequenceFrom (nextBlock b)
          (mkState (st_metadata s)
             (st_console s
              ++ ["Ignoring unsupported statement block: " +:+ block_type b])
             (st_gen s)))
  /\ (forall b,
         block_type b ∉ expressionTypes ->
         expressionFromBlock b
         = Throw (Error ("Unsupported expression block: " +:+ block_type b)))
  /\ (forall workspace console gen top b name e,
         ownTypes (flat_map skippedFromBlock workspace) = true ->
         top ∈ workspace ->
         b ∈ statementBlocksDeepFrom top ->
         ExpressionInput b name ->
         expressionFrom (getInputTargetBlock b name) = Throw e ->
         exists e', workspaceToDocument workspace console gen = Throw e').
Proof.
  split; [|split].
  - intros b s _ Hmeta Hrule. rewrite sequenceFromBlock_unfold.
    apply String.eqb_neq in Hmeta. rewrite Hmeta.
    unfold statementRule, isCommandType in Hrule. rewrite Hmeta in Hrule.
    unfold convertStatementBlock.
    repeat match type of Hrule with
      | context [String.eqb (block_type b) ?str] =>
          let E := fresh "E" in
          destruct (String.eqb (block_type b) str) eqn:E;
          cbv beta iota in Hrule; [discriminate Hrule|];
          rewrite ?orb_false_l; cbv beta iota
      end.
    match type of Hrule with
    | context [if ?c then _ else _] =>
        destruct c; [discriminate Hrule|]
    end.
    unfold bind, console_warn, ret.
    by destruct (sequenceFrom _ _) as [[rest s']|e].
  - intros [ty d i fs ins nx] Hnot. simpl in *.
    repeat match goal with
      | |- context [String.eqb ty ?str] =>
          destruct (String.eqb_spec ty str) as [->|];
          [exfalso; apply Hnot; unfold expressionTypes;
           repeat (apply elem_of_cons; first [left; reflexivity | right])|]
      end.
    reflexivity.
  - intros workspace console gen top b name e _ Htop Hb Hinput Hthrow.
    unfold workspaceToDocument.
    destruct (sequenceFromTopBlocks _ _) as [[nodes s']|e'] eqn:Hrun;
      [exfalso|by exists e'].
    apply sequenceFromTopBlocks_sound in Hrun as (Hlow & _).
    apply Lowered_deep_workspace in Hlow.
    assert (b ∈ flat_map statementBlocksDeepFrom workspace) as Hin.
    { apply list_elem_of_In, in_flat_map. exists top.
      split; by apply list_elem_of_In. }
    apply list_elem_of_lookup in Hin as [k Hk].
    destruct (Forall2_lookup_l _ _ _ k _ Hlow Hk) as (n & _ & Hbn).
    destruct (Lowered_expression b n name Hbn Hinput) as [x Hx].
    congruence.
Qed.

(** *** Determinism *)















Lemma Lowered_elseNonEmpty b n : Lowered b n -> elseNonEmpty n.
Proof. destruct 1; try done. simpl. by destruct elseBody. Qed.

(** X3: in the document of a workspace an [if] node, at any depth, never
    carries an empty else branch: the branch is absent or has nodes. *)
Theorem else_branch_absent_or_nonempty
    (workspace : Workspace) (console console' : list string) (gen gen' : Gen)
    (doc : Document) :
  workspaceToDocument workspace console gen = Ok (doc, console', gen') ->
  forall n id branches,
    n ∈ flat_map allNodes (sequence doc) ->
    n <> If id branches (Some []).
Proof.
  unfold workspaceToDocument.
  destruct (sequenceFromTopBlocks _ _) as [[nodes s']|e] eqn:Hrun;
    [|discriminate].
  intros [= <- _ _]. simpl.
  apply sequenceFromTopBlocks_sound in Hrun as (Hlow & _).
  apply Lowered_deep_workspace in Hlow.
  intros n id branches Hn ->.
  apply list_elem_of_lookup in Hn as [i Hi].
  destruct (Forall2_lookup_r _ _ _ i _ Hlow Hi) as (b & _ & Hb).
  by apply Lowered_elseNonEmpty in Hb.
Qed.

Lemma Forall2_Lowered_ids (blocks : list Block) (nodes : list Node) :
  Forall2 Lowered blocks nodes ->
  Forall (fun b => is_Some (ownId b)) blocks ->
  map ownId blocks = map (fun n => Some (node_id n)) nodes.
Proof.
  induction 1 as [|b n blocks nodes Hbn _ IH]; [done|].
  intros [[i Hi] Hrest]%Forall_cons. simpl. f_equal; [|by apply IH].
  apply Lowered_id in Hbn. unfold IdOf in Hbn. rewrite Hi in Hbn.
  by rewrite Hi, Hbn.
Qed.

(** X4: when no statement block without a rule is named after a member
    of [Object.prototype], the ids of the nodes of a document, listed at
    every depth in document order, are the ids ([data], else [id]) of the
    statement blocks the lowering gives a node for, in the order it visits
    them; so blocks with distinct ids give nodes with distinct ids
    throughout the document. *)
Theorem node_ids_are_block_ids_in_order
    (workspace : Workspace) (console console' : list string) (gen gen' : Gen)
    (doc : Document) :
  ownTypes (flat_map skippedFromBlock workspace) = true ->
  workspaceToDocument workspace console gen = Ok (doc, console', gen') ->
  Forall (fun b => is_Some (ownId b))
    (flat_map statementBlocksDeepFrom workspace) ->
  map ownId (flat_map statementBlocksDeepFrom workspace)
  = map (fun n => Some (node_id n)) (flat_map allNodes (sequence doc))
  /\ (NoDup (map ownId (flat_map statementBlocksDeepFrom workspace)) ->
      NoDup (map node_id (flat_map allNodes (sequence doc)))).
Proof.
  intros _. unfold workspaceToDocument.
  destruct (sequenceFromTopBlocks _ _) as [[nodes s']|e] eqn:Hrun;
    [|discriminate].
  intros [= <- _ _] Hids. simpl.
  apply sequenceFromTopBlocks_sound in Hrun as (Hlow & _).
  apply Lowered_deep_workspace in Hlow.
  pose proof (Forall2_Lowered_ids _ _ Hlow Hids) as Heq.
  split; [done|]. rewrite Heq.
  change (map (fun n => Some (node_id n)) (flat_map allNodes nodes))
    with (Some ∘ node_id <$> flat_map allNodes nodes).
  rewrite list_fmap_compose. intros Hnodup.
  exact (proj1 (NoDup_fmap Some _) Hnodup).
Qed.

(** *** What the lowering writes to the console *)

Lemma skippedFromBlock_eq b :
  skippedFromBlock b
  = (if String.eqb (block_type b) "set_metadata" then []
     else match statementRule (block_type b) with
          | None => [b]
          | Some _ =>
              metadataInside
                (fun name => skippedBlocks (getInputTargetBlock b name)) b
          end)
    ++ skippedBlocks (nextBlock b).
Proof.
  destruct b as [ty d i fs ins nx]. simpl. f_equal.
  destruct (String.eqb ty "set_metadata"); [done|].
  destruct (statementRule ty); [|done].
  apply metadataInside_ext. intros name.
  by rewrite (withInputTarget_spec _ _ _ (mkBlock ty d i fs ins nx)).
Qed.

Lemma blockId_console block s id s1 :
  blockId block s = Ok (id, s1) -> st_console s1 = st_console s.
Proof.
  destruct (blockId_total block s) as (id' & Heq & _).
  rewrite Heq. by intros [= <- <-].
Qed.

Ltac use_console Hf :=
  repeat match goal with
    | H : blockId _ _ = Ok (_, _) |- _ => apply blockId_console in H
    | H : ?f _ _ = Ok (_, _) |- _ => apply Hf in H
    end.

Lemma ifBranches_console f b :
  (forall name, Warns (getInputTargetBlock b name) (f name)) ->
  forall fuel index s branches s',
    ifBranches f b fuel index s = Ok (branches, s') ->
    st_console s'
    = st_console s
      ++ map warningFor
           (ifBodies (fun name => skippedBlocks (getInputTargetBlock b name))
              b fuel index).
Proof.
  intros Hf. induction fuel as [|fuel IH]; intros index s branches s' Hrun;
    simpl in Hrun.
  - inv_M. simpl. by rewrite app_nil_r.
  - simpl. destruct (getInput b ("IF" +:+ pretty index)).
    + inv_M. apply Hf in Hm0. apply IH in Hm1.
      rewrite Hm1, Hm0, map_app. by rewrite app_assoc.
    + inv_M. simpl. by rewrite app_nil_r.
Qed.

Lemma convertStatementBlock_console f b s nodes s' :
  (forall name, Warns (getInputTargetBlock b name) (f name)) ->
  String.eqb (block_type b) "set_metadata" = false ->
  convertStatementBlock f b s = Ok (nodes, s') ->
  st_console s'
  = st_console s
    ++ map warningFor
         match statementRule (block_type b) with
         | None => [b]
         | Some _ =>
             metadataInside
               (fun name => skippedBlocks (getInputTargetBlock b name)) b
         end.
Proof.
  intros Hf Hmeta. rewrite convertStatementBlock_dispatch by done.
  unfold metadataInside.
  destruct (statementRule (block_type b)) as [[]|]; intros Hrun.
  - unfold convertIfBlock in Hrun. inv_M.
    match goal with
    | Hb : ifBranches _ _ _ _ _ = Ok _ |- _ =>
        apply (ifBranches_console _ _ Hf) in Hb
    end.
    use_console Hf. rewrite map_app, app_assoc. congruence.
  - unfold convertRepeatBlock in Hrun. inv_M. use_console Hf. congruence.
  - unfold convertWhileBlock in Hrun. inv_M. use_console Hf. congruence.
  - unfold convertForBlock in Hrun. inv_M.
    match goal with
    | Hm : (if ?c then _ else _) _ = _ |- _ => destruct c
    end; inv_M; use_console Hf; congruence.
  - unfold convertForBlock in Hrun. inv_M.
    match goal with
    | Hm : (if ?c then _ else _) _ = _ |- _ => destruct c
    end; inv_M; use_console Hf; congruence.
  - unfold convertFlowStatement in Hrun. inv_M. use_console Hf.
    simpl. rewrite app_nil_r. congruence.
  - inv_M.
    match goal with
    | Hc : convertCommandBlock _ _ = Ok _ |- _ =>
        rewrite convertCommandBlock_eq in Hc
    end.
    inv_M. use_console Hf. simpl. rewrite app_nil_r. congruence.
  - unfold console_warn in Hrun. inv_M.
    match goal with Hw : Ok _ = Ok _ |- _ => injection Hw as _ <- end.
    done.
Qed.

Lemma sequenceFromBlock_console b : Warns (Some b) (sequenceFromBlock b).
Proof.
  induction b as [b IHin IHnext] using Block_sub_ind.
  assert (forall name,
             Warns (getInputTargetBlock b name)
               (fun s => withInputTarget sequenceFromBlock (ret []) name
                           (inputList b) s)) as Hf.
  { intros name s nodes s'. rewrite withInputTarget_spec.
    destruct (getInputTargetBlock b name) as [c|] eqn:Hc.
    - by apply IHin with name.
    - intros Hr. inv_M. simpl. by rewrite app_nil_r. }
  assert (Warns (nextBlock b) (sequenceFrom (nextBlock b))) as Hnext.
  { destruct (nextBlock b) as [next|] eqn:Hn.
    - by apply IHnext.
    - intros s nodes s' Hr. simpl in Hr. inv_M. simpl. by rewrite app_nil_r. }
  intros s nodes s' Hrun. simpl. rewrite skippedFromBlock_eq.
  rewrite sequenceFromBlock_unfold in Hrun. inv_M.
  apply Hnext in Hm0. rewrite map_app, app_assoc, Hm0. f_equal.
  destruct (String.eqb (block_type b) "set_metadata") eqn:Hmeta.
  - inv_M.
    match goal with
    | Ha : applyMetadata _ _ = Ok _ |- _ =>
        unfold applyMetadata in Ha; injection Ha as _ <-
    end.
    simpl. by rewrite app_nil_r.
  - eapply convertStatementBlock_console; [exact Hf | exact Hmeta | exact Hm].
Qed.

(** X5: when no statement block without a rule is named after a member
    of [Object.prototype], what a lowering that returns has written to the
    console are the warnings of the statement blocks it skipped, one line
    each, in the order in which it came to them, and nothing else. *)
Theorem console_lists_skipped_blocks
    (workspace : Workspace) (console console' : list string) (gen gen' : Gen)
    (doc : Document) :
  ownTypes (flat_map skippedFromBlock workspace) = true ->
  workspaceToDocument workspace console gen = Ok (doc, console', gen') ->
  console'
  = console ++ map warningFor (flat_map skippedFromBlock workspace).
Proof.
  intros _. unfold workspaceToDocument.
  destruct (sequenceFromTopBlocks _ _) as [[nodes s']|e] eqn:Hrun;
    [|discriminate].
  intros [= _ <- _].
  change console with (st_console (mkState ∅ console gen)) at 1.
  revert Hrun. generalize (mkState ∅ console gen). clear.
  revert nodes s'.
  induction workspace as [|b rest IH]; intros nodes s' s Hrun;
    simpl in Hrun.
  - inv_M. simpl. by rewrite app_nil_r.
  - inv_M. apply sequenceFromBlock_console in Hm. apply IH in Hm0.
    simpl in *. rewrite map_app, app_assoc. congruence.
Qed.

(** *** Top blocks are lowered one by one *)

Lemma StateBlind_ext {A} (m m' : M A) :
  (forall s, m s = m' s) -> StateBlind m' -> StateBlind m.
Proof. intros Heq Hm s1 s2. rewrite !Heq. apply Hm. Qed.

Lemma StateBlind_ret {A} (a : A) : StateBlind (ret a).
Proof. by intros s1 s2. Qed.

Lemma StateBlind_bind {A B} (m : M A) (k : A -> M B) :
  StateBlind m -> (forall a, StateBlind (k a)) -> StateBlind (bind m k).
Proof.
  intros Hm Hk s1 s2. specialize (Hm s1 s2). unfold bind.
  destruct (m s1) as [[a1 t1]|e1], (m s2) as [[a2 t2]|e2]; try done.
  subst a2. apply Hk.
Qed.

Lemma StateBlind_lift {A} (r : Res A) : StateBlind (lift r).
Proof. intros s1 s2. unfold lift. by destruct r. Qed.

Lemma StateBlind_warn msg : StateBlind (console_warn msg).
Proof. by intros s1 s2. Qed.

Lemma StateBlind_applyMetadata b : StateBlind (applyMetadata b).
Proof. by intros s1 s2. Qed.

Lemma StateBlind_blockId b : is_Some (ownId b) -> StateBlind (blockId b).
Proof.
  intros [i Hi] s1 s2.
  destruct (blockId_total b s1) as (id1 & -> & Hid1).
  destruct (blockId_total b s2) as (id2 & -> & Hid2).
  unfold IdOf in *. rewrite Hi in *. by subst.
Qed.

Ltac state_blind Hf Hid :=
  repeat first
    [ apply StateBlind_ret
    | apply StateBlind_lift
    | apply StateBlind_warn
    | apply StateBlind_applyMetadata
    | apply StateBlind_blockId; exact Hid
    | apply Hf
    | apply StateBlind_bind; [|intros ?]
    | match goal with
      | |- StateBlind (if ?c then _ else _) => destruct c
      end ].

Lemma StateBlind_ifBranches f b fuel index :
  (forall name, StateBlind (f name)) ->
  StateBlind (ifBranches f b fuel index).
Proof.
  intros Hf. revert index.
  induction fuel as [|fuel IH]; intros index; simpl.
  - apply StateBlind_ret.
  - destruct (getInput b _); [|apply StateBlind_ret].
    unfold expressionFromInput.
    apply StateBlind_bind; [apply StateBlind_lift|intros ?].
    apply StateBlind_bind; [apply Hf|intros ?].
    apply StateBlind_bind; [apply IH|intros ?].
    apply StateBlind_ret.
Qed.

Lemma StateBlind_convertStatementBlock f b :
  (forall name, StateBlind (f name)) ->
  is_Some (ownId b) ->
  StateBlind (convertStatementBlock f b).
Proof.
  intros Hf Hid.
  unfold convertStatementBlock, convertIfBlock, convertRepeatBlock,
    convertWhileBlock, convertForBlock, convertFlowStatement,
    convertCommandBlock, expressionFromInput.
  repeat match goal with
    | |- StateBlind (if ?c then _ else _) => destruct c
    end.
  all: try (apply StateBlind_bind;
            [apply StateBlind_bind;
             [by apply StateBlind_ifBranches|intros ?]|intros ?]).
  all: state_blind Hf Hid.
Qed.

Lemma StateBlind_sequenceFromBlock b :
  allHaveIds b = true -> StateBlind (sequenceFromBlock b).
Proof.
  induction b as [b IHin IHnext] using Block_sub_ind.
  intros (Hid & Hins & Hnx)%allHaveIds_inv.
  apply (StateBlind_ext _ _ (sequenceFromBlock_unfold b)).
  apply StateBlind_bind.
  - destruct (String.eqb _ _).
    + state_blind Hid Hid.
    + apply StateBlind_convertStatementBlock; [|done].
      intros name.
      eapply StateBlind_ext;
        [intros s; by rewrite withInputTarget_spec|].
      destruct (getInputTargetBlock b name) as [c|] eqn:Hc.
      * by apply (IHin name), (Hins name).
      * apply StateBlind_ret.
  - intros nodes.
    apply StateBlind_bind; [|intros; apply StateBlind_ret].
    destruct (nextBlock b) as [next|] eqn:Hn; simpl.
    + by apply IHnext, Hnx.
    + apply StateBlind_ret.
Qed.

Lemma StateBlind_sequenceFromTopBlocks workspace :
  forallb allHaveIds workspace = true ->
  StateBlind (sequenceFromTopBlocks workspace).
Proof.
  induction workspace as [|b rest IH]; simpl.
  - intros _. apply StateBlind_ret.
  - intros [Hb Hrest]%andb_prop.
    apply StateBlind_bind; [by apply StateBlind_sequenceFromBlock|].
    intros nodes.
    apply StateBlind_bind; [by apply IH|intros; apply StateBlind_ret].
Qed.

Lemma sequenceFromTopBlocks_app ws1 ws2 s :
  sequenceFromTopBlocks (ws1 ++ ws2) s
  = bind (sequenceFromTopBlocks ws1)
      (fun nodes1 =>
         bind (sequenceFromTopBlocks ws2)
           (fun nodes2 => ret (nodes1 ++ nodes2))) s.
Proof.
  revert s. induction ws1 as [|b rest IH]; intros s; simpl.
  - unfold bind, ret. simpl. by destruct (sequenceFromTopBlocks ws2 s)
      as [[nodes2 s2]|].
  - unfold bind at 1 3 4.
    destruct (sequenceFromBlock b s) as [[nodes s1]|]; [|done].
    unfold bind at 1. rewrite IH. unfold bind, ret.
    destruct (sequenceFromTopBlocks rest s1) as [[more s2]|]; [|done].
    destruct (sequenceFromTopBlocks ws2 s2) as [[nodes2 s3]|]; [|done].
    by rewrite app_assoc.
Qed.

(** X6: stacks of blocks are lowered independently.  When the blocks carry
    ids and the workspace [ws1 ++ ws2] lowers, so do [ws1] and [ws2] on
    their own, from any console and generator; the sequence of the whole is
    the sequence of [ws1] followed by that of [ws2], and its metadata are
    those of [ws2] if it has a metadata block the lowering visits, else
    those of [ws1]. *)
Theorem workspaces_lower_independently
    (ws1 ws2 : Workspace) (console console' : list string) (gen gen' : Gen)
    (doc : Document) (console1 console2 : list string) (gen1 gen2 : Gen) :
  forallb allHaveIds (ws1 ++ ws2) = true ->
  workspaceToDocument (ws1 ++ ws2) console gen = Ok (doc, console', gen') ->
  exists doc1 console1' gen1' doc2 console2' gen2',
    workspaceToDocument ws1 console1 gen1 = Ok (doc1, console1', gen1')
    /\ workspaceToDocument ws2 console2 gen2 = Ok (doc2, console2', gen2')
    /\ sequence doc = sequence doc1 ++ sequence doc2
    /\ metadata doc
       = match last (flat_map metadataBlocksFromBlock ws2) with
         | Some _ => metadata doc2
         | None => metadata doc1
         end.
Proof.
  rewrite forallb_app. intros [Hids1 Hids2]%andb_prop.
  unfold workspaceToDocument. rewrite sequenceFromTopBlocks_app.
  destruct (bind _ _ _) as [[nodes s']|e] eqn:Hrun; [|discriminate].
  intros [= <- _ _]. inv_M.
  match goal with
  | Hr1 : sequenceFromTopBlocks ws1 ?s0 = Ok (?n1, ?sa),
    Hr2 : sequenceFromTopBlocks ws2 ?sa = Ok (?n2, ?sb) |- _ =>
      pose proof (StateBlind_sequenceFromTopBlocks ws1 Hids1
                    s0 (mkState ∅ console1 gen1)) as Hb1;
      rewrite Hr1 in Hb1;
      pose proof (StateBlind_sequenceFromTopBlocks ws2 Hids2
                    sa (mkState ∅ console2 gen2)) as Hb2;
      rewrite Hr2 in Hb2;
      apply sequenceFromTopBlocks_sound in Hr1 as (_ & Hmd & _);
      apply sequenceFromTopBlocks_sound in Hr2 as (_ & Hmd0 & _)
  end.
  destruct (sequenceFromTopBlocks ws1 (mkState ∅ console1 gen1))
    as [[nodes1 t1]|] eqn:Hrun1; [subst nodes1|done].
  destruct (sequenceFromTopBlocks ws2 (mkState ∅ console2 gen2))
    as [[nodes2 t2]|] eqn:Hrun2; [subst nodes2|done].
  do 6 eexists. repeat split. simpl.
  apply sequenceFromTopBlocks_sound in Hrun1 as (_ & Hmd1 & _).
  apply sequenceFromTopBlocks_sound in Hrun2 as (_ & Hmd2 & _).
  simpl in *. rewrite Hmd0, Hmd2, Hmd1, Hmd.
  rewrite !(foldl_setMetadata_last (flat_map metadataBlocksFromBlock ws2)).
  destruct (last _); [|done].
  apply setMetadata_foldl.
Qed.

Lemma WellFormedParam_or (v dflt : Value) :
  truthy dflt = true -> WellFormedParam (PValue (JS.or v dflt)).
Proof.
  intros Hd. unfold JS.or. destruct (truthy v) eqn:Hv.
  - by destruct v.
  - by destruct dflt.
Qed.

Lemma WellFormedParam_truthy (v : Value) :
  truthy v = true -> WellFormedParam (PValue v).
Proof. by destruct v. Qed.

Lemma WellFormedParam_number block name dflt :
  WellFormedParam (numberParam block name dflt).
Proof. done. Qed.

Lemma WellFormedParam_point block x y z rx ry rz :
  WellFormedParam (pointFrom block x y z rx ry rz).
Proof.
  split; [reflexivity|].
  unfold list_to_map. cbn [foldr fst snd].
  repeat (apply map_Forall_insert_2; [by eexists|]).
  apply map_Forall_empty.
Qed.

Lemma WellFormedParam_array block k1 k2 k3 k4 k5 k6 :
  WellFormedParam (arrayFrom block [k1; k2; k3; k4; k5; k6]).
Proof.
  split; [reflexivity|]. cbn [map].
  repeat (constructor; [by eexists|]). constructor.
Qed.

Lemma storeReader_well_formed block :
  map_Forall (fun _ => WellFormedParam) (storeReader block).
Proof.
  unfold storeReader. cbv zeta.
  destruct (truthy _) eqn:Hs; [|apply map_Forall_empty].
  apply map_Forall_singleton. by apply WellFormedParam_truthy.
Qed.

Lemma commandParameters_well_formed (b : Block) params :
  commandParameters b = Some params ->
  map_Forall (fun _ => WellFormedParam) params.
Proof.
  unfold commandParameters. destruct (bool_decide _); [done|].
  intros <-%(inj Some).
  destruct (parameterReaders !! block_type b) as [reader|] eqn:Hreader;
    [|apply map_Forall_empty].
  unfold parameterReaders in Hreader.
  apply elem_of_list_to_map_2 in Hreader.
  repeat (apply elem_of_cons in Hreader as [[= _ ->]|Hreader]);
    [..|by apply elem_of_nil in Hreader];
    try apply storeReader_well_formed;
    cbv beta zeta; unfold list_to_map; cbn [foldr fst snd];
    repeat match goal with
      | |- map_Forall _ (if ?c then _ else _) => destruct c eqn:?
      | |- map_Forall _ ∅ => apply map_Forall_empty
      | |- map_Forall _ {[ _ := _ ]} => apply map_Forall_singleton
      | |- map_Forall _ (<[ _ := _ ]> _) => apply map_Forall_insert_2
      | |- WellFormedParam (numberParam _ _ _) => exact I
      | |- WellFormedParam (pointFrom _ _ _ _ _ _ _) =>
          apply WellFormedParam_point
      | |- WellFormedParam (arrayFrom _ _) => apply WellFormedParam_array
      | |- WellFormedParam (PValue (VBool _)) => exact I
      | |- WellFormedParam (PValue (VNum _)) => exact I
      | |- WellFormedParam (PValue (JS.or _ (VStr "192.168.0.10"))) =>
          by apply WellFormedParam_or
      | |- WellFormedParam (PValue _) => by apply WellFormedParam_truthy
      end.
Qed.

(** X7: when no statement block without a rule is named after a member
    of [Object.prototype], every parameter of every command node of a
    document, at any depth, is well formed whatever the fields of the
    blocks hold: a scalar is a
    number, a boolean or a truthy value, never [null] and never the empty
    string; a point has exactly the keys x, y, z, rx, ry, rz, all numbers;
    an array holds six numbers. *)
Theorem command_parameters_well_formed
    (workspace : Workspace) (console console' : list string) (gen gen' : Gen)
    (doc : Document) :
  ownTypes (flat_map skippedFromBlock workspace) = true ->
  workspaceToDocument workspace console gen = Ok (doc, console', gen') ->
  forall id name params,
    Command id name (Some params) ∈ flat_map allNodes (sequence doc) ->
    map_Forall (fun _ => WellFormedParam) params.
Proof.
  intros _. unfold workspaceToDocument.
  destruct (sequenceFromTopBlocks _ _) as [[nodes s']|e] eqn:Hrun;
    [|discriminate].
  intros [= <- _ _]. simpl.
  apply sequenceFromTopBlocks_sound in Hrun as (Hlow & _).
  apply Lowered_deep_workspace in Hlow.
  intros id name params Hn.
  apply list_elem_of_lookup in Hn as [i Hi].
  destruct (Forall2_lookup_r _ _ _ i _ Hlow Hi) as (b & _ & Hb).
  inversion Hb as [| | | | | |b' id' Hrule HidOf [Hid Hname Hparams]].
  by apply commandParameters_well_formed with b.
Qed.


Lemma truthy_or (v dflt : Value) :
  truthy dflt = true -> truthy (JS.or v dflt) = true.
Proof. intros Hd. unfold JS.or. by destruct (truthy v) eqn:Hv. Qed.

Lemma metadataOf_complete (b : Block) :
  CompleteMetadata (setMetadata ∅ b).
Proof.
  unfold setMetadata. split; [reflexivity|]. split.
  - intros key Hkey.
    repeat (apply elem_of_cons in Hkey as [->|Hkey]);
      [..|by apply elem_of_nil in Hkey];
      eexists; (split; [reflexivity|]); by apply truthy_or.
  - by eexists.
Qed.

(** X8: the metadata of a document are all or nothing.  When the lowering
    visits no metadata block the metadata object is empty; otherwise it has
    exactly the keys robot_brand, namespace, class_name, method_name and
    attach_console_logger, the four names hold truthy values (a field left
    empty gives its default) and the logger flag is a boolean. *)
Theorem metadata_empty_or_complete
    (workspace : Workspace) (console console' : list string) (gen gen' : Gen)
    (doc : Document) :
  workspaceToDocument workspace console gen = Ok (doc, console', gen') ->
  match flat_map metadataBlocksFromBlock workspace with
  | [] => metadata doc = ∅
  | _ => CompleteMetadata (metadata doc)
  end.
Proof.
  unfold workspaceToDocument.
  destruct (sequenceFromTopBlocks _ _) as [[nodes s']|e] eqn:Hrun;
    [|discriminate].
  intros [= <- _ _]. simpl.
  apply sequenceFromTopBlocks_sound in Hrun as (_ & Hmd & _).
  simpl in Hmd. rewrite Hmd, foldl_setMetadata_last. clear Hmd.
  destruct (flat_map metadataBlocksFromBlock workspace) as [|b bs _]
    using rev_ind; [done|].
  rewrite last_snoc.
  destruct (bs ++ [b]) eqn:Hbs.
  - symmetry in Hbs. by apply app_cons_not_nil in Hbs.
  - apply metadataOf_complete.
Qed.


Lemma numberParam_falsy (b : Block) name dflt :
  truthy (getFieldValue b name) = false ->
  numberParam b name dflt = PValue (VNum dflt).
Proof.
  intros Hfalsy. unfold numberParam, numberField, JS.or. by rewrite Hfalsy.
Qed.


Lemma lowerField_text b name dflt :
  OperatorsAreText b -> name ∈ operatorFields ->
  exists str, lowerField b name dflt = Ok str.
Proof.
  intros Htext Hname. unfold lowerField, JS.or.
  destruct (truthy (getFieldValue b name)) eqn:Htruthy.
  - destruct (Htext name Hname Htruthy) as [str ->]. by eexists.
  - by eexists.
Qed.

Lemma expressionFromBlock_total r :
  ExpressionTree r -> exists e, expressionFromBlock r = Ok e.
Proof.
  intros Htree. destruct (expressionFromBlock r) as [e|exn] eqn:Hr;
    [by exists e|].
  exfalso. apply expressionFromBlock_raises in Hr as (c & Hc & Hraised).
  destruct (Htree c Hc) as [Htype Htext].
  destruct Hraised as [[Hno _]|(name & msg & Hname & Htruthy & Hstr & _)].
  - by apply Hno.
  - destruct (Htext name Hname Htruthy) as [str Hfield].
    by apply (Hstr str).
Qed.

Lemma SupportedExpressions_target b name c :
  getInputTargetBlock b name = Some c -> SupportedExpressions b -> SupportedExpressions c.
Proof.
  intros Hc Hb x Hx. apply Hb. by apply (allBlocks_target b name c).
Qed.

Lemma SupportedExpressions_next b next :
  nextBlock b = Some next -> SupportedExpressions b -> SupportedExpressions next.
Proof. intros Hn Hb x Hx. apply Hb. by apply (allBlocks_next b next). Qed.

Lemma expressionFromInput_never_raises b name :
  (forall r, getInputTargetBlock b name = Some r -> ExpressionTree r) ->
  NeverRaises (expressionFromInput b name).
Proof.
  intros Htree. apply Raises_lift. intros e.
  destruct (getInputTargetBlock b name) as [r|]; [|discriminate].
  simpl. destruct (expressionFromBlock_total r (Htree r eq_refl)) as [x ->].
  discriminate.
Qed.

Lemma ifBranches_never_raises f b fuel index :
  (forall name, NeverRaises (f name)) ->
  (forall (i : nat) r,
      getInputTargetBlock b ("IF" +:+ pretty i) = Some r ->
      ExpressionTree r) ->
  NeverRaises (ifBranches f b fuel index).
Proof.
  intros Hf Hif. revert index.
  induction fuel as [|fuel IH]; intros index; simpl.
  - apply Raises_ret.
  - destruct (getInput b _); [|apply Raises_ret].
    apply Raises_bind;
      [apply expressionFromInput_never_raises, Hif|intros ?].
    apply Raises_bind; [apply Hf|intros ?].
    apply Raises_bind; [apply IH|intros ?].
    apply Raises_ret.
Qed.

Lemma convertStatementBlock_never_raises f b :
  (forall name, NeverRaises (f name)) ->
  OperatorsAreText b ->
  (forall name r,
      ValueInput b name -> getInputTargetBlock b name = Some r ->
      ExpressionTree r) ->
  NeverRaises (convertStatementBlock f b).
Proof.
  intros Hf Htext Hvalue.
  unfold convertStatementBlock, convertIfBlock, convertRepeatBlock,
    convertWhileBlock, convertForBlock, convertFlowStatement.
  destruct (String.eqb_spec (block_type b) "controls_if") as [Hif|_].
  { apply Raises_bind; [|intros ?; apply Raises_ret].
    apply Raises_bind; [|intros ?; raises Hf].
    apply ifBranches_never_raises; [done|].
    intros i r. apply Hvalue. left. split; [done|by exists i]. }
  destruct (String.eqb_spec (block_type b) "controls_repeat_ext")
    as [Hrepeat|_].
  { apply Raises_bind; [|intros ?; apply Raises_ret].
    apply Raises_bind; [apply Raises_blockId|intros ?].
    apply Raises_bind; [|intros ?; raises Hf].
    apply expressionFromInput_never_raises. intros r. apply Hvalue.
    right; left. by split. }
  destruct (String.eqb_spec (block_type b) "controls_whileUntil")
    as [Hwhile|_].
  { apply Raises_bind; [|intros ?; apply Raises_ret].
    apply Raises_bind; [apply Raises_blockId|intros ?].
    apply Raises_bind; [|intros ?; raises Hf].
    apply expressionFromInput_never_raises. intros r. apply Hvalue.
    right; right; left. by split. }
  destruct (String.eqb_spec (block_type b) "controls_for") as [Hfor|Hnfor].
  { rewrite orb_true_l.
    apply Raises_bind; [|intros ?; apply Raises_ret].
    apply Raises_bind; [apply Raises_blockId|intros ?].
    repeat (apply Raises_bind;
            [apply expressionFromInput_never_raises; intros r;
             apply Hvalue; right; right; right; left;
             (split; [done|]);
             repeat (apply elem_of_cons; first [left; reflexivity | right])
            |intros ?]).
    raises Hf. }
  rewrite orb_false_l.
  destruct (String.eqb_spec (block_type b) "controls_forEach")
    as [Heach|_].
  { apply Raises_bind; [|intros ?; apply Raises_ret].
    apply Raises_bind; [apply Raises_blockId|intros ?].
    apply Raises_bind; [|intros ?; raises Hf].
    apply expressionFromInput_never_raises. intros r. apply Hvalue.
    right; right; right; right. by split. }
  destruct (String.eqb (block_type b) "controls_flow_statements").
  { apply Raises_bind; [|intros ?; apply Raises_ret].
    apply Raises_bind; [|intros ?; raises Hf].
    apply Raises_lift. intros e.
    destruct (lowerField_text b "FLOW" "BREAK" Htext) as [str ->];
      [|discriminate].
    unfold operatorFields.
    repeat (apply elem_of_cons; first [left; reflexivity | right]). }
  destruct (_ || _).
  - apply Raises_bind; [|intros ?; apply Raises_ret].
    intros s e. destruct (convertCommandBlock_total b s) as (id & s1 & -> & _).
    discriminate.
  - raises Hf.
Qed.

Lemma sequenceFromBlock_never_raises b :
  SupportedExpressions b -> NeverRaises (sequenceFromBlock b).
Proof.
  induction b as [b IHin IHnext] using Block_sub_ind. intros Hwell.
  apply (Raises_ext _ _ _ (sequenceFromBlock_unfold b)).
  apply Raises_bind.
  - destruct (String.eqb _ _).
    + raises IHin.
    + destruct (Hwell b (allBlocks_self b)) as [Htext Hvalue].
      apply convertStatementBlock_never_raises; [|done..]. intros name.
      eapply Raises_ext; [intros s; by rewrite withInputTarget_spec|].
      destruct (getInputTargetBlock b name) as [c|] eqn:Hc.
      * apply (IHin name c Hc). by apply (SupportedExpressions_target b name c).
      * apply Raises_ret.
  - intros nodes. apply Raises_bind; [|intros; apply Raises_ret].
    destruct (nextBlock b) as [next|] eqn:Hn; simpl.
    + apply (IHnext next eq_refl). by apply (SupportedExpressions_next b next).
    + apply Raises_ret.
Qed.

(** X19: a workspace with supported expressions only always lowers.  When
    in the graph of every top block the operator fields hold text and what
    is connected to a value input of a control-flow block is a tree of
    blocks [expressionFrom] has a case for, and no statement block without
    a rule is named after a member of [Object.prototype],
    [workspaceToDocument] returns a document, from any console and any
    state of the id generator. *)
Theorem supported_expressions_always_lower
    (workspace : Workspace) (console : list string) (gen : Gen) :
  ownTypes (flat_map skippedFromBlock workspace) = true ->
  Forall SupportedExpressions workspace ->
  exists doc console' gen',
    workspaceToDocument workspace console gen = Ok (doc, console', gen').
Proof.
  intros _ Hwell. unfold workspaceToDocument.
  assert (NeverRaises (sequenceFromTopBlocks workspace)) as Hnever.
  { induction Hwell as [|b rest Hb _ IH]; simpl; [apply Raises_ret|].
    apply Raises_bind; [by apply sequenceFromBlock_never_raises|intros ?].
    apply Raises_bind; [exact IH|intros ?]. apply Raises_ret. }
  destruct (sequenceFromTopBlocks workspace _) as [[nodes s]|e] eqn:Hrun.
  - by do 3 eexists.
  - destruct (Hnever _ _ Hrun).
Qed.


Lemma drawn_add a b gen : drawn b (drawn a gen) = drawn (a + b) gen.
Proof.
  unfold drawn. rewrite (Nat.add_comm a b). symmetry. apply Nat.iter_add.
Qed.

Lemma blockId_gen block s id s1 :
  blockId block s = Ok (id, s1) ->
  st_gen s1 = drawn (drawsOf block) (st_gen s).
Proof.
  destruct (blockId_total block s) as (id' & Heq & _).
  rewrite Heq. intros [= _ <-]. simpl. unfold drawsOf.
  by destruct (ownId block).
Qed.

Ltac use_gen Hf :=
  repeat match goal with
    | H : blockId _ _ = Ok (_, _) |- _ => apply blockId_gen in H
    | H : ?f _ _ = Ok (_, _) |- _ => apply Hf in H
    end;
  repeat match goal with
    | H : st_gen ?x = drawn _ _ |- _ => rewrite H; clear H
    end;
  rewrite ?drawn_add; try (f_equal; simpl; lia).

Lemma ifBranches_gen f b :
  (forall name, Draws (getInputTargetBlock b name) (f name)) ->
  forall fuel index s branches s',
    ifBranches f b fuel index s = Ok (branches, s') ->
    st_gen s'
    = drawn
        (sum_list_with drawsOf
           (ifBodies
              (fun name => statementBlocksDeep (getInputTargetBlock b name))
              b fuel index))
        (st_gen s).
Proof.
  intros Hf. induction fuel as [|fuel IH]; intros index s branches s' Hrun;
    simpl in Hrun.
  - by inv_M.
  - simpl. destruct (getInput b ("IF" +:+ pretty index)).
    + inv_M. apply Hf in Hm0. apply IH in Hm1.
      rewrite Hm1, Hm0, drawn_add. by rewrite sum_list_with_app.
    + by inv_M.
Qed.

Lemma convertStatementBlock_gen f b s nodes s' :
  (forall name, Draws (getInputTargetBlock b name) (f name)) ->
  String.eqb (block_type b) "set_metadata" = false ->
  convertStatementBlock f b s = Ok (nodes, s') ->
  st_gen s'
  = drawn
      (sum_list_with drawsOf
         match statementRule (block_type b) with
         | Some _ =>
             b :: metadataInside
                    (fun name =>
                       statementBlocksDeep (getInputTargetBlock b name)) b
         | None => []
         end)
      (st_gen s).
Proof.
  intros Hf Hmeta. rewrite convertStatementBlock_dispatch by done.
  unfold metadataInside.
  destruct (statementRule (block_type b)) as [[]|]; intros Hrun;
    cbn [sum_list_with].
  - unfold convertIfBlock in Hrun. inv_M.
    match goal with
    | Hb : ifBranches _ _ _ _ _ = Ok _ |- _ =>
        apply (ifBranches_gen _ _ Hf) in Hb
    end.
    rewrite sum_list_with_app. use_gen Hf.
  - unfold convertRepeatBlock in Hrun. inv_M. use_gen Hf.
  - unfold convertWhileBlock in Hrun. inv_M. use_gen Hf.
  - unfold convertForBlock in Hrun. inv_M.
    match goal with
    | Hm : (if ?c then _ else _) _ = _ |- _ => destruct c
    end; inv_M; use_gen Hf.
  - unfold convertForBlock in Hrun. inv_M.
    match goal with
    | Hm : (if ?c then _ else _) _ = _ |- _ => destruct c
    end; inv_M; use_gen Hf.
  - unfold convertFlowStatement in Hrun. inv_M. use_gen Hf.
  - inv_M.
    match goal with
    | Hc : convertCommandBlock _ _ = Ok _ |- _ =>
        rewrite convertCommandBlock_eq in Hc
    end.
    inv_M. use_gen Hf.
  - unfold console_warn in Hrun. inv_M.
    match goal with Hw : Ok _ = Ok _ |- _ => injection Hw as _ <- end.
    done.
Qed.

Lemma sequenceFromBlock_gen b : Draws (Some b) (sequenceFromBlock b).
Proof.
  induction b as [b IHin IHnext] using Block_sub_ind.
  assert (forall name,
             Draws (getInputTargetBlock b name)
               (fun s => withInputTarget sequenceFromBlock (ret []) name
                           (inputList b) s)) as Hf.
  { intros name s nodes s'. rewrite withInputTarget_spec.
    destruct (getInputTargetBlock b name) as [c|] eqn:Hc.
    - by apply IHin with name.
    - intros Hr. by inv_M. }
  assert (Draws (nextBlock b) (sequenceFrom (nextBlock b))) as Hnext.
  { destruct (nextBlock b) as [next|] eqn:Hn.
    - by apply IHnext.
    - intros s nodes s' Hr. simpl in Hr. by inv_M. }
  intros s nodes s' Hrun. simpl. rewrite statementBlocksDeepFrom_eq.
  rewrite sequenceFromBlock_unfold in Hrun. inv_M.
  apply Hnext in Hm0. rewrite sum_list_with_app, <- drawn_add, Hm0. f_equal.
  destruct (String.eqb (block_type b) "set_metadata") eqn:Hmeta.
  - inv_M.
    match goal with
    | Ha : applyMetadata _ _ = Ok _ |- _ =>
        unfold applyMetadata in Ha; injection Ha as _ <-
    end.
    apply String.eqb_eq in Hmeta. rewrite Hmeta. done.
  - eapply convertStatementBlock_gen; [exact Hf | exact Hmeta | exact Hm].
Qed.

(** X22: when no statement block without a rule is named after a member
    of [Object.prototype], the lowering draws an id from the generator once
    for every block that gets a node and fixes no id of its own, at any
    depth, and never otherwise: a lowering that returns leaves the
    generator where that many calls of [genUid] take it. *)
Theorem ids_drawn_once_per_anonymous_block
    (workspace : Workspace) (console console' : list string) (gen gen' : Gen)
    (doc : Document) :
  ownTypes (flat_map skippedFromBlock workspace) = true ->
  workspaceToDocument workspace console gen = Ok (doc, console', gen') ->
  gen'
  = drawn
      (sum_list_with drawsOf (flat_map statementBlocksDeepFrom workspace))
      gen.
Proof.
  intros _.
  assert (forall s nodes s',
             sequenceFromTopBlocks workspace s = Ok (nodes, s') ->
             st_gen s'
             = drawn
                 (sum_list_with drawsOf
                    (flat_map statementBlocksDeepFrom workspace))
                 (st_gen s)) as Hgen.
  { induction workspace as [|b rest IH]; intros s nodes s' Hrun;
      simpl in Hrun.
    - by inv_M.
    - inv_M. apply sequenceFromBlock_gen in Hm. apply IH in Hm0.
      simpl. rewrite sum_list_with_app, <- drawn_add. by rewrite Hm0, Hm. }
  unfold workspaceToDocument.
  destruct (sequenceFromTopBlocks _ _) as [[nodes s']|e] eqn:Hrun;
    [|discriminate].
  intros [= _ _ <-]. by rewrite (Hgen _ _ _ Hrun).
Qed.








(** *** Unconnected inputs *)

(** The operands of the expression of a block are the lowerings of its
    value inputs. *)
Lemma expressionFromBlock_operands b e :
  expressionFromBlock b = Ok e ->
  map Ok (operands e)
  = map (fun name => expressionFrom (getInputTargetBlock b name))
      (operandNames (block_type b)).
Proof.
  intros Hok.
  assert (forall name x,
             withInputTarget expressionFromBlock
               (Ok (LiteralNumber 0%float)) name (inputList b) = Ok x ->
             expressionFrom (getInputTargetBlock b name) = Ok x) as Hsub.
  { intros name x. by rewrite expressionFrom_input. }
  destruct b as [ty d i fs ins nx].
  cbn [expressionFromBlock block_type inputList] in *.
  repeat match type of Hok with
    | context [String.eqb ty ?str] =>
        destruct (String.eqb_spec ty str) as [->|?]
    end.
  all: repeat match goal with
         | Ht : res_bind ?r _ = Ok _ |- _ =>
             let E := fresh "E" in
             destruct r as [?|?] eqn:E; cbn [res_bind] in Ht
         end.
  all: try discriminate.
  all: injection Hok as <-.
  all: repeat match goal with
         | E : withInputTarget _ _ _ _ = Ok _ |- _ => apply Hsub in E
         end.
  all: vm_compute operandNames; cbn [operands map].
  all: congruence.
Qed.

(** An expression block with a case lowers when its operator fields hold
    text and its inputs lower. *)
Lemma expressionFromBlock_lowers b :
  block_type b ∈ expressionTypes ->
  OperatorsAreText b ->
  (forall name,
      name ∈ operandNames (block_type b) ->
      exists x, expressionFrom (getInputTargetBlock b name) = Ok x) ->
  exists e, expressionFromBlock b = Ok e.
Proof.
  intros Htype Htext Hinputs.
  destruct (expressionFromBlock b) as [e|exn] eqn:Hthrow; [by exists e|].
  exfalso.
  assert (forall name dflt exn',
             name ∈ operatorFields ->
             lowerField b name dflt = Throw exn' -> False) as Hop.
  { intros name dflt exn' Hname Hfield.
    destruct (lowerField_text b name dflt Htext Hname) as [str Hstr].
    congruence. }
  assert (forall name exn',
             name ∈ operandNames (block_type b) ->
             withInputTarget expressionFromBlock
               (Ok (LiteralNumber 0%float)) name (inputList b) = Throw exn' ->
             False) as Hsub.
  { intros name exn' Hname. rewrite expressionFrom_input.
    destruct (Hinputs name Hname) as [x ->]. discriminate. }
  clear Htext Hinputs. destruct b as [ty d i fs ins nx].
  cbn [expressionFromBlock block_type inputList] in *.
  repeat match type of Hthrow with
    | context [String.eqb ty ?str] =>
        destruct (String.eqb_spec ty str) as [->|?]
    end.
  all: repeat match goal with
         | Ht : res_bind ?r _ = Throw _ |- _ =>
             let E := fresh "E" in
             destruct r as [?|?] eqn:E; cbn [res_bind] in Ht
         end.
  all: try discriminate.
  all: try (eapply Hop; [|eassumption]; unfold operatorFields;
            repeat (apply elem_of_cons; first [left; reflexivity | right])).
  all: try (eapply Hsub; [|eassumption]; vm_compute operandNames;
            repeat (apply elem_of_cons; first [left; reflexivity | right])).
  unfold expressionTypes in Htype.
  repeat (apply elem_of_cons in Htype as [->|Htype]; [congruence|]).
  by apply elem_of_nil in Htype.
Qed.

(** C9: lowering an expression input nothing is connected to gives the
    literal number 0 and goes on.  [expressionFrom(null)] returns that
    literal.  An expression block with a case, with text in its operator
    field, lowers whenever the blocks connected to its inputs lower, and
    carries the literal 0 as the operand of every input nothing is
    connected to.  A repeat, while, for or for-each block whose count,
    condition, bound or list is unconnected, and a branch of an if block
    whose condition is unconnected, lower whenever their id and body do,
    to the node with the literal 0 in that field. *)
Theorem missing_input_lowers_to_zero :
  expressionFrom None = Ok (LiteralNumber 0%float)
  /\ (forall b,
         block_type b ∈ expressionTypes ->
         OperatorsAreText b ->
         (forall name,
             name ∈ operandNames (block_type b) ->
             getInputTargetBlock b name = None
             \/ exists x, expressionFrom (getInputTargetBlock b name) = Ok x) ->
         exists e,
           expressionFromBlock b = Ok e
           /\ length (operands e) = length (operandNames (block_type b))
           /\ forall i name,
                operandNames (block_type b) !! i = Some name ->
                getInputTargetBlock b name = None ->
                operands e !! i = Some (LiteralNumber 0%float))
  /\ (forall f b s id s1 body s2,
         getInputTargetBlock b "TIMES" = None ->
         blockId b s = Ok (id, s1) ->
         f "DO" s1 = Ok (body, s2) ->
         convertRepeatBlock f b s
         = Ok (Repeat id (LiteralNumber 0%float) body, s2))
  /\ (forall f b s id s1 body s2,
         getInputTargetBlock b "BOOL" = None ->
         blockId b s = Ok (id, s1) ->
         f "DO" s1 = Ok (body, s2) ->
         convertWhileBlock f b s
         = Ok (While id
                 (if strict_eq_str (getFieldValue b "MODE") "UNTIL"
                  then mode_until else mode_while)
                 (LiteralNumber 0%float) body, s2))
  /\ (forall f b s id s1 from to by_ body s2,
         block_type b = "controls_for" ->
         blockId b s = Ok (id, s1) ->
         getInputTargetBlock b "FROM" = None
         \/ expressionFrom (getInputTargetBlock b "FROM") = Ok from ->
         getInputTargetBlock b "TO" = None
         \/ expressionFrom (getInputTargetBlock b "TO") = Ok to ->
         getInputTargetBlock b "BY" = None
         \/ expressionFrom (getInputTargetBlock b "BY") = Ok by_ ->
         f "DO" s1 = Ok (body, s2) ->
         let bound name e :=
           match getInputTargetBlock b name with
           | None => LiteralNumber 0%float
           | Some _ => e
           end in
         convertForBlock f b s
         = Ok (ForRange id (JS.or (getFieldValue b "VAR") (VStr "i"))
                 (bound "FROM" from) (bound "TO" to) (bound "BY" by_) body,
               s2))
  /\ (forall f b s id s1 body s2,
         block_type b <> "controls_for" ->
         getInputTargetBlock b "LIST" = None ->
         blockId b s = Ok (id, s1) ->
         f "DO" s1 = Ok (body, s2) ->
         convertForBlock f b s
         = Ok (ForEach id (JS.or (getFieldValue b "VAR") (VStr "item"))
                 (LiteralNumber 0%float) body, s2))
  /\ (forall f b fuel index s body s1 rest s2,
         is_Some (getInput b ("IF" +:+ pretty index)) ->
         getInputTargetBlock b ("IF" +:+ pretty index) = None ->
         f ("DO" +:+ pretty index) s = Ok (body, s1) ->
         ifBranches f b fuel (S index) s1 = Ok (rest, s2) ->
         ifBranches f b (S fuel) index s
         = Ok ((LiteralNumber 0%float, body) :: rest, s2)).
Proof.
  split; [reflexivity|]. split; [|repeat split].
  - intros b Htype Htext Hinputs.
    destruct (expressionFromBlock_lowers b Htype Htext) as [e He].
    { intros name Hname.
      destruct (Hinputs name Hname) as [->|Hx]; [by eexists|done]. }
    exists e. split; [done|].
    pose proof (expressionFromBlock_operands b e He) as Hoperands.
    split.
    + apply (f_equal length) in Hoperands.
      by rewrite !length_map in Hoperands.
    + intros i name Hi Hnone.
      apply (f_equal (fun l => l !! i)) in Hoperands.
      rewrite !list_lookup_fmap_eq in Hoperands || rewrite !list_lookup_fmap in Hoperands.
      rewrite Hi in Hoperands. simpl in Hoperands. rewrite Hnone in Hoperands.
      destruct (operands e !! i) as [x|]; [|done].
      simpl in Hoperands. congruence.
  - intros f b s id s1 body s2 Hnone Hid Hbody.
    unfold convertRepeatBlock, bind.
    rewrite Hid, expressionFromInput_eq, Hnone. cbn [expressionFrom].
    by rewrite Hbody.
  - intros f b s id s1 body s2 Hnone Hid Hbody.
    unfold convertWhileBlock, bind.
    rewrite Hid, expressionFromInput_eq, Hnone. cbn [expressionFrom].
    by rewrite Hbody.
  - intros f b s id s1 from to by_ body s2 Htype Hid Hfrom Hto Hby Hbody.
    assert (forall name e,
               getInputTargetBlock b name = None
               \/ expressionFrom (getInputTargetBlock b name) = Ok e ->
               expressionFrom (getInputTargetBlock b name)
               = Ok match getInputTargetBlock b name with
                    | None => LiteralNumber 0%float
                    | Some _ => e
                    end) as Hbound.
    { intros name e.
      destruct (getInputTargetBlock b name); cbn [expressionFrom];
        intros [?|?]; congruence. }
    unfold convertForBlock. rewrite Htype, String.eqb_refl.
    unfold bind. rewrite Hid.
    rewrite expressionFromInput_eq, (Hbound _ _ Hfrom).
    rewrite expressionFromInput_eq, (Hbound _ _ Hto).
    rewrite expressionFromInput_eq, (Hbound _ _ Hby).
    by rewrite Hbody.
  - intros f b s id s1 body s2 Htype Hnone Hid Hbody.
    unfold convertForBlock.
    apply String.eqb_neq in Htype. rewrite Htype. unfold bind.
    rewrite Hid, expressionFromInput_eq, Hnone. cbn [expressionFrom].
    by rewrite Hbody.
  - intros f b fuel index s body s1 rest s2 [t Hinput] Hnone Hbody Hrest.
    cbn [ifBranches]. rewrite Hinput. unfold bind.
    rewrite expressionFromInput_eq, Hnone. cbn [expressionFrom].
    by rewrite Hbody, Hrest.
Qed.

End Properties.

(** ** The theorems at concrete blocks *)

Lemma optional_parameters_omitted_witness :
  (exists id s' params,
      convertCommandBlock stopBlock emptyState
      = Ok (Command id "stop_motion" (Some params), s')
      /\ params !! "stop_type" = None)
  /\ (exists id s' params,
         convertCommandBlock waitBlock emptyState
         = Ok (Command id "wait_for_move_finish" (Some params), s')
         /\ params !! "timeout_ms" = None)
  /\ (exists id s' params,
         convertCommandBlock inputBlock emptyState
         = Ok (Command id "get_digital_input" (Some params), s')
         /\ params !! "store_as" = None)
  /\ (exists id s',
         convertCommandBlock grabBlock emptyState
         = Ok (Command id "grab" None, s')).
Proof.
  repeat split.
  - destruct (optional_parameters_omitted stopBlock emptyState)
      as (id & s' & _ & Hstop & _).
    exists id, s'. apply Hstop; [reflexivity | left; reflexivity].
  - destruct (optional_parameters_omitted waitBlock emptyState)
      as (id & s' & _ & _ & Hwait & _).
    exists id, s'. apply Hwait; reflexivity.
  - destruct (optional_parameters_omitted inputBlock emptyState)
      as (id & s' & _ & _ & _ & Hstore & _).
    exists id, s'. apply Hstore; [|left; reflexivity].
    simpl. repeat (apply elem_of_cons; first [left; reflexivity | right]).
  - destruct (optional_parameters_omitted grabBlock emptyState)
      as (id & s' & _ & _ & _ & _ & Hnone).
    exists id, s'. apply Hnone.
    simpl. repeat (apply elem_of_cons; first [left; reflexivity | right]).
Defined.

Lemma while_mode_and_condition_witness :
  exists mode,
    convertWhileBlock
      (fun name => sequenceFrom (getInputTargetBlock untilBlock name))
      untilBlock emptyState
    = Ok (While "u1" mode (LiteralBoolean true) [Command "g1" "grab" None],
          emptyState)
    /\ (mode = mode_until <-> getFieldValue untilBlock "MODE" = VStr "UNTIL")
    /\ (mode = mode_while <-> getFieldValue untilBlock "MODE" <> VStr "UNTIL").
Proof.
  apply (while_mode_and_condition
           (fun name => sequenceFrom (getInputTargetBlock untilBlock name))
           untilBlock emptyState emptyState emptyState "u1"
           (LiteralBoolean true) [Command "g1" "grab" None]);
    reflexivity.
Defined.

Lemma missing_input_lowers_to_zero_witness :
  convertRepeatBlock
    (fun name => sequenceFrom (getInputTargetBlock noCountBlock name))
    noCountBlock emptyState
  = Ok (Repeat "p3" (LiteralNumber 0%float) [Command "g1" "grab" None],
        emptyState)
  /\ exists e,
       expressionFromBlock halfSumBlock = Ok e
       /\ length (operands e) = 2
       /\ operands e !! 1 = Some (LiteralNumber 0%float).
Proof.
  destruct (missing_input_lowers_to_zero (H:=countingHost))
    as (_ & Hoperand & Hcount & _).
  split.
  - apply (Hcount _ noCountBlock emptyState "p3" emptyState
             [Command "g1" "grab" None] emptyState);
      vm_compute; reflexivity.
  - destruct (Hoperand halfSumBlock) as (e & He & Hlen & Hzero).
    + vm_compute. apply elem_of_cons. right.
      repeat (apply elem_of_cons; first [left; reflexivity | right]).
    + intros name Hname Htruthy.
      apply elem_of_cons in Hname as [->|Hname]; [by exists "ADD"|].
      exfalso.
      repeat (apply elem_of_cons in Hname as [->|Hname];
              [discriminate Htruthy|]).
      by apply elem_of_nil in Hname.
    + intros name Hname.
      apply elem_of_cons in Hname as [->|Hname];
        [right; by eexists|].
      apply elem_of_cons in Hname as [->|Hname]; [by left|].
      by apply elem_of_nil in Hname.
    + exists e. split; [exact He|]. split; [exact Hlen|].
      by apply (Hzero 1 "B").
Defined.

Lemma sequence_order_is_execution_order_witness :
  Forall2 Lowered (statementBlocks (Some sampleProgram)) sampleSequence.
Proof.
  apply (proj1 sequence_order_is_execution_order (Some sampleProgram)
           emptyState sampleSequence
           (mkState (H:=countingHost) (metadataOf kukaMetadata) [] 0));
    vm_compute; reflexivity.
Defined.

Lemma metadata_diverted_last_wins_witness :
  Forall noMetadataCommand (sequence sampleDocument)
  /\ Forall (fun b => block_type b <> "set_metadata")
       (flat_map (fun b => statementBlocks (Some b)) [sampleProgram])
  /\ (forall top m,
         top ∈ [sampleProgram] -> Occurs (Some top) m ->
         block_type m = "set_metadata" ->
         m ∈ flat_map metadataBlocksFromBlock [sampleProgram])
  /\ Forall (fun b => block_type b = "set_metadata")
       (flat_map metadataBlocksFromBlock [sampleProgram])
  /\ metadata sampleDocument
     = foldl setMetadata ∅ (flat_map metadataBlocksFromBlock [sampleProgram])
  /\ metadata sampleDocument
     = match last (flat_map metadataBlocksFromBlock [sampleProgram]) with
       | Some b => metadataOf b
       | None => ∅
       end.
Proof.
  apply (metadata_diverted_last_wins (H:=countingHost) [sampleProgram]
           [] [] 0 0 sampleDocument).
  vm_compute. reflexivity.
Defined.

(** C4, as stated, fails on a block that carries a [data] string: the node
    takes that string, not the block's [id]. *)
Lemma node_id_not_always_block_id :
  sequenceFrom (Some taggedBlock) emptyState
  = Ok ([Command "pick-1" "grab" None], emptyState)
  /\ statementBlocks (Some taggedBlock) = [taggedBlock]
  /\ node_id (Command "pick-1" "grab" None) <> block_id taggedBlock.
Proof. repeat split; [vm_compute; reflexivity.. | discriminate]. Qed.

Lemma node_id_is_data_or_block_id_witness :
  Forall2
    (fun b n =>
       (forall d, block_data b = Some d -> d <> "" -> node_id n = d)
       /\ (block_data b = None \/ block_data b = Some "" ->
           block_id b <> "" -> node_id n = block_id b)
       /\ (block_data b = None \/ block_data b = Some "" ->
           block_id b = "" -> exists g, node_id n = (genUid g).1))
    (statementBlocks (Some taggedBlock)) [Command "pick-1" "grab" None].
Proof.
  apply (node_id_is_data_or_block_id (Some taggedBlock) emptyState
           emptyState); vm_compute; reflexivity.
Defined.

(** C3, as stated, fails on an expression block without a case, here the
    length of a text as the count of a repeat block: the lowering of the
    workspace ends with an exception. *)
Lemma unsupported_expression_is_fatal :
  workspaceToDocument [lengthCountBlock] [] 0
  = Throw (Error "Unsupported expression block: text_length")
  /\ ~ exists result, workspaceToDocument [lengthCountBlock] [] 0 = Ok result.
Proof.
  split; [vm_compute; reflexivity|].
  intros [result Hr]. vm_compute in Hr. discriminate Hr.
Qed.

Lemma unsupported_statement_skipped_expression_raises_witness :
  sequenceFromBlock printBlock emptyState
  = Ok ([Command "g1" "grab" None],
        mkState (H:=countingHost) ∅
          ["Ignoring unsupported statement block: text_print"] 0)
  /\ expressionFromBlock lengthBlock
     = Throw (Error "Unsupported expression block: text_length")
  /\ exists e, workspaceToDocument [stopBlock; lengthCountBlock] [] 0
               = Throw e.
Proof.
  destruct unsupported_statement_skipped_expression_raises
    as (Hskip & Hraise & Habort).
  split; [|split].
  - rewrite (Hskip printBlock emptyState);
      [reflexivity | reflexivity | discriminate |].
    vm_compute. reflexivity.
  - rewrite Hraise; [reflexivity|].
    unfold expressionTypes. simpl.
    rewrite !elem_of_cons, elem_of_nil. intros Hin.
    repeat (destruct Hin as [Hin|Hin]; [discriminate Hin|]). exact Hin.
  - apply (Habort [stopBlock; lengthCountBlock] [] 0 lengthCountBlock
             lengthCountBlock "TIMES"
             (Error "Unsupported expression block: text_length")).
    + vm_compute. reflexivity.
    + apply elem_of_cons. right. apply elem_of_cons. by left.
    + vm_compute. apply elem_of_cons. by left.
    + apply ExpressionInput_count. vm_compute. reflexivity.
    + vm_compute. reflexivity.
Defined.

(** Why determinism asks for the ids: a block object that carries neither
    [data] nor [id], which Blockly does not build, would have its node take
    a generated id, another one at every invocation. *)
Remark generated_ids_differ_between_invocations :
  workspaceToDocument [anonymousBlock] [] 0
  = Ok (mkDocument "1.0" ∅ [Command "uid0" "grab" None], [], 1)
  /\ workspaceToDocument [anonymousBlock] [] 1
     = Ok (mkDocument "1.0" ∅ [Command "uid1" "grab" None], [], 2)
  /\ mkDocument "1.0" ∅ [Command "uid0" "grab" None]
     <> mkDocument "1.0" ∅ [Command "uid1" "grab" None].
Proof. repeat split; [vm_compute; reflexivity.. | discriminate]. Qed.


(** ** The robot-control surface *)

(** C7, as stated, fails: the interface has no [MoveTo] with four
    parameters, and the operation set of the specification is not declared
    as listed. *)
Lemma surface_not_declared_as_listed :
  RobotLib.declares RobotLib.IRobotActions
    (RobotLib.mkOperation "moveTo" "MoveTo" ["x"; "y"; "z"; "speed"])
  = false
  /\ forallb (RobotLib.declares RobotLib.IRobotActions) RobotLib.surface
     = false.
Proof. split; reflexivity. Qed.

(** C7 (as amended): [IRobotActions] declares a method for every operation
    of the specification's set and the [OnLog] event as the log hook, with
    the listed parameters except the speed override of [moveTo],
    [moveJoint] and [moveLinear], the stop type of [stop] and the timeouts
    of [connect] and [waitForFinish], which no method takes; [BaseRobot]
    declares the same members. *)
Theorem surface_declared_without_overrides :
  forallb (RobotLib.declares RobotLib.IRobotActions)
    (map RobotLib.withoutOverrides RobotLib.surface) = true
  /\ RobotLib.IRobotActions_events = ["OnLog"]
  /\ RobotLib.BaseRobot = RobotLib.IRobotActions
  /\ RobotLib.BaseRobot_events = RobotLib.IRobotActions_events
  /\ map (fun m => (RobotLib.method_name m,
                    map snd (RobotLib.parameters m)))
       (List.filter
          (fun m =>
             existsb (String.eqb (RobotLib.method_name m))
               ["ConnectRobot"; "MoveTo"; "MoveJoint"; "MoveLinear";
                "StopMotion"; "WaitForMoveFinish"])
          RobotLib.IRobotActions)
     = [("MoveTo", ["x"; "y"; "z"]);
        ("ConnectRobot", ["ipAddress"; "port"]);
        ("MoveJoint", ["j1"; "j2"; "j3"; "j4"; "j5"; "j6"]);
        ("MoveLinear", ["x"; "y"; "z"; "rx"; "ry"; "rz"]);
        ("StopMotion", []);
        ("WaitForMoveFinish", [])].
Proof. repeat split; reflexivity. Qed.

(** ** The percentage rule of the validator *)

Lemma checkValue_percentage key x :
  Validator.checkValue key Validator.ty_percentage (PValue (VNum x))
  = if Validator.inPercentageRange x then []
    else [Validator.OutOfRange key].
Proof. reflexivity. Qed.

Section PercentageRule.
Variable registry : gmap string Validator.CommandSpec.

Lemma filter_flat_map {A B} (f : B -> bool) (g : A -> list B) (l : list A) :
  List.filter f (flat_map g l) = flat_map (fun a => List.filter f (g a)) l.
Proof.
  induction l as [|a l IH]; [done|].
  simpl. by rewrite List.filter_app, IH.
Qed.

Lemma filter_all {A} (f : A -> bool) (l : list A) :
  (forall a, In a l -> f a = true) -> List.filter f l = l.
Proof.
  induction l as [|a l IH]; [done|]. intros Hall. simpl.
  rewrite (Hall a) by by left. f_equal. apply IH. intros b Hb.
  apply Hall. by right.
Qed.

Lemma filter_none {A} (f : A -> bool) (l : list A) :
  (forall a, In a l -> f a = false) -> List.filter f l = [].
Proof.
  induction l as [|a l IH]; [done|]. intros Hall. simpl.
  rewrite (Hall a) by by left. apply IH. intros b Hb.
  apply Hall. by right.
Qed.

Lemma duplicateIds_no_range seen nodes :
  List.filter (fun e => Validator.isRangeError e.2)
    (Validator.duplicateIds seen nodes) = [].
Proof.
  revert seen. induction nodes as [|n rest IH]; intros seen; [done|].
  simpl. rewrite List.filter_app, IH. by destruct (existsb _ _).
Qed.

Lemma checkParameter_range params (entry : string * Validator.ParamSpec) :
  List.filter Validator.isRangeError (Validator.checkParameter params entry)
  = match Validator.param_type entry.2, params !! entry.1 with
    | Validator.ty_percentage, Some (PValue (VNum x)) =>
        if Validator.inPercentageRange x then []
        else [Validator.OutOfRange entry.1]
    | _, _ => []
    end.
Proof.
  destruct entry as [key [type req]]. simpl.
  destruct (params !! key) as [v|].
  - destruct type, v as [[]| |]; simpl;
      repeat match goal with
        | |- context [if ?c then _ else _] => destruct c
        end; reflexivity.
  - by destruct req, type.
Qed.

Lemma filter_tagged {A} (f : A -> bool) (id : string) (l : list A) :
  List.filter (fun e : string * A => f e.2) (map (fun m => (id, m)) l)
  = map (fun m => (id, m)) (List.filter f l).
Proof.
  induction l as [|m l IH]; [done|].
  simpl. destruct (f m); simpl; by rewrite IH.
Qed.

Lemma commandErrors_range n :
  List.filter (fun e => Validator.isRangeError e.2)
    (Validator.commandErrors registry n)
  = Validator.percentageErrors registry n.
Proof.
  destruct n as [id name parameters| | | | | |]; try reflexivity.
  cbn [Validator.commandErrors Validator.percentageErrors].
  destruct (registry !! name) as [spec|]; [|reflexivity].
  rewrite filter_tagged, filter_flat_map.
  induction spec as [|entry spec IH]; [reflexivity|].
  cbn [flat_map]. rewrite map_app, IH. f_equal.
  rewrite checkParameter_range.
  destruct (Validator.param_type entry.2); try reflexivity.
  destruct (Validator.parametersOf parameters !! entry.1)
    as [[[]| |]|]; try reflexivity.
  by destruct (Validator.inPercentageRange _).
Qed.

Lemma commandErrors_tag n e :
  In e (Validator.commandErrors registry n) -> e.1 = node_id n.
Proof.
  destruct n as [id name parameters| | | | | |]; try done.
  simpl. destruct (registry !! name) as [spec|].
  - intros (m & <- & _)%in_map_iff. reflexivity.
  - by intros [<-|[]].
Qed.

Lemma duplicateIds_distinct seen nodes :
  NoDup (map node_id nodes) ->
  (forall n, In n nodes -> ~ In (node_id n) seen) ->
  Validator.duplicateIds seen nodes = [].
Proof.
  revert seen. induction nodes as [|n rest IH]; intros seen; [done|].
  simpl. intros [Hn Hrest]%NoDup_cons Hseen.
  destruct (existsb _ seen) eqn:Hex.
  - apply existsb_exists in Hex as (i & Hi & Heq%String.eqb_eq).
    subst i. destruct (Hseen n (or_introl eq_refl) Hi).
  - simpl. apply IH; [done|]. intros n' Hn' [Heq|Hin].
    + apply Hn. rewrite Heq. apply list_elem_of_In, in_map, Hn'.
    + apply (Hseen n'); [by right|done].
Qed.

Lemma errors_of_node nodes n :
  NoDup (map node_id nodes) ->
  In n nodes ->
  List.filter (fun e => String.eqb e.1 (node_id n))
    (flat_map (Validator.commandErrors registry) nodes)
  = Validator.commandErrors registry n.
Proof.
  induction nodes as [|n' rest IH]; [done|].
  simpl. intros [Hn' Hrest]%NoDup_cons Hin. rewrite List.filter_app.
  destruct (String.eqb_spec (node_id n') (node_id n)) as [Heq|Hne].
  - assert (n = n') as ->.
    { destruct Hin as [|Hin]; [done|]. destruct Hn'. rewrite Heq.
      apply list_elem_of_In, in_map, Hin. }
    rewrite filter_all, filter_none, app_nil_r; [done| |].
    + intros e (m & Hm & He)%in_flat_map.
      apply commandErrors_tag in He. rewrite He.
      apply String.eqb_neq. intros Hsame. apply Hn'. rewrite <- Hsame.
      apply list_elem_of_In, in_map, Hm.
    + intros e He. apply commandErrors_tag in He. rewrite He.
      apply String.eqb_refl.
  - destruct Hin as [->|Hin]; [done|].
    rewrite filter_none, IH; [done..|].
    intros e He. apply commandErrors_tag in He. rewrite He.
    by apply String.eqb_neq.
Qed.

(** C8: every numeric percentage-typed parameter must lie in the closed
    interval [0, 100], in any document and for any registry.  The range
    errors of a document are, in order and number, one for each
    percentage-typed parameter of a declared command (at any depth) whose
    value is a number outside the interval; so a range error is reported
    for a node and a key exactly when the document has such a command node
    with that id, whose value for the key is not between 0 and 100, the two
    included.  With [set_speed] declared with a required percentage
    parameter, a document of distinct ids containing [set_speed] with
    percentage [x] has for that node exactly one error, the range error,
    when [x] is outside the interval and none when it is inside; and
    [set_speed] with percentage 150 alone gives exactly one error, a range
    error tagged with the node, while 0 and 100 validate with no error and
    no warning. *)
Theorem percentage_range_is_inclusive :
  (forall doc,
      List.filter (fun e => Validator.isRangeError e.2)
        (Validator.errors (Validator.validate registry doc))
      = flat_map (Validator.percentageErrors registry)
          (flat_map allNodes (sequence doc)))
  /\ (forall doc id key,
         (id, Validator.OutOfRange key)
           ∈ Validator.errors (Validator.validate registry doc)
         <-> exists name parameters spec pspec x,
               Command id name parameters
                 ∈ flat_map allNodes (sequence doc)
               /\ registry !! name = Some spec
               /\ (key, pspec) ∈ spec
               /\ Validator.param_type pspec = Validator.ty_percentage
               /\ Validator.parametersOf parameters !! key
                  = Some (PValue (VNum x))
               /\ ~ (PrimFloat.leb 0%float x = true
                     /\ PrimFloat.leb x 100%float = true))
  /\ (registry !! "set_speed"
      = Some [("percentage",
               Validator.mkParamSpec Validator.ty_percentage true)] ->
      (forall doc id x,
          NoDup (map node_id (flat_map allNodes (sequence doc))) ->
          Command id "set_speed"
            (Some {[ "percentage" := PValue (VNum x) ]})
            ∈ flat_map allNodes (sequence doc) ->
          List.filter (fun e => String.eqb e.1 id)
            (Validator.errors (Validator.validate registry doc))
          = if PrimFloat.leb 0%float x && PrimFloat.leb x 100%float
            then [] else [(id, Validator.OutOfRange "percentage")])
      /\ (forall id,
             Validator.errors
               (Validator.validate registry
                  (Validator.setSpeedDocument id 150%float))
             = [(id, Validator.OutOfRange "percentage")]
             /\ Validator.validate registry
                  (Validator.setSpeedDocument id 0%float)
                = Validator.mkValidationResult true [] []
             /\ Validator.validate registry
                  (Validator.setSpeedDocument id 100%float)
                = Validator.mkValidationResult true [] [])).
Proof.
  assert (forall doc,
             List.filter (fun e => Validator.isRangeError e.2)
               (Validator.errors (Validator.validate registry doc))
             = flat_map (Validator.percentageErrors registry)
                 (flat_map allNodes (sequence doc))) as Hrange.
  { intros doc. unfold Validator.validate. cbn [Validator.errors].
    rewrite List.filter_app, duplicateIds_no_range, filter_flat_map.
    apply flat_map_ext. intros n. apply commandErrors_range. }
  split; [exact Hrange|]. split.
  - intros doc id key.
    transitivity
      (In (id, Validator.OutOfRange key)
         (List.filter (fun e => Validator.isRangeError e.2)
            (Validator.errors (Validator.validate registry doc)))).
    { rewrite filter_In, <- list_elem_of_In. simpl. tauto. }
    rewrite Hrange, in_flat_map. split.
    + intros (n & Hn & He).
      destruct n as [id' name parameters| | | | | |]; try done.
      simpl in He. destruct (registry !! name) as [spec|] eqn:Hspec;
        [|done].
      apply in_flat_map in He as ([key' pspec] & Hentry & He).
      simpl in He.
      destruct (Validator.param_type pspec) eqn:Htype; try done.
      destruct (Validator.parametersOf parameters !! key')
        as [[[| |x|]| |]|] eqn:Hvalue; try done.
      destruct (Validator.inPercentageRange _) eqn:Hin; [done|].
      destruct He as [[= -> ->]|[]].
      exists name, parameters, spec, pspec, x.
      split; [by apply list_elem_of_In|].
      split; [done|]. split; [by apply list_elem_of_In|].
      repeat split; [done..|].
      intros [H0 H100]. unfold Validator.inPercentageRange in Hin.
      by rewrite H0, H100 in Hin.
    + intros (name & parameters & spec & pspec & x
              & Hn & Hspec & Hentry & Htype & Hvalue & Hout).
      exists (Command id name parameters).
      split; [by apply list_elem_of_In|].
      unfold Validator.percentageErrors, Validator.CommandSpec in *.
      rewrite Hspec.
      apply in_flat_map. exists (key, pspec).
      split; [by apply list_elem_of_In|].
      simpl. rewrite Htype, Hvalue.
      unfold Validator.inPercentageRange.
      destruct (PrimFloat.leb 0 x) eqn:H0, (PrimFloat.leb x 100) eqn:H100;
        simpl; try by left.
      by destruct Hout.
  - intros Hreg. split.
    + intros doc id x Hdistinct Hn.
      unfold Validator.validate. cbn [Validator.errors].
      rewrite duplicateIds_distinct; [|done|by intros ? _ []].
      rewrite app_nil_l.
      apply list_elem_of_In in Hn.
      pose proof (errors_of_node _ _ Hdistinct Hn) as Hnode.
      cbn [node_id] in Hnode. rewrite Hnode.
      cbn [Validator.commandErrors]. rewrite Hreg. simpl.
      rewrite lookup_singleton_eq. simpl.
      unfold Validator.inPercentageRange.
      by destruct (PrimFloat.leb 0 x && PrimFloat.leb x 100).
    + assert (forall id x,
                 Validator.validate registry
                   (Validator.setSpeedDocument id x)
                 = Validator.mkValidationResult
                     (PrimFloat.leb 0%float x && PrimFloat.leb x 100%float)
                     (if PrimFloat.leb 0%float x
                         && PrimFloat.leb x 100%float
                      then []
                      else [(id, Validator.OutOfRange "percentage")])
                     []) as Hval.
      { intros id x.
        unfold Validator.validate, Validator.setSpeedDocument.
        cbn [sequence version flat_map allNodes app Validator.duplicateIds
               existsb Validator.commandErrors Validator.commandWarnings
               Validator.storeAsReuse Validator.storeAs node_id
               Validator.parametersOf String.eqb Ascii.eqb Bool.eqb].
        rewrite Hreg.
        cbn [flat_map Validator.checkParameter app].
        rewrite lookup_singleton_eq, lookup_singleton_ne by done.
        rewrite map_to_list_singleton.
        cbn. unfold Validator.inPercentageRange.
        by destruct (PrimFloat.leb 0 x && PrimFloat.leb x 100). }
      intros id. by rewrite !Hval.
Qed.

End PercentageRule.

Lemma percentage_range_is_inclusive_witness :
  Validator.errors
    (Validator.validate Validator.percentageRegistry
       (Validator.setSpeedDocument "n1" 150%float))
  = [("n1", Validator.OutOfRange "percentage")]
  /\ Validator.validate Validator.percentageRegistry
       (Validator.setSpeedDocument "n1" 0%float)
     = Validator.mkValidationResult true [] []
  /\ Validator.validate Validator.percentageRegistry
       (Validator.setSpeedDocument "n1" 100%float)
     = Validator.mkValidationResult true [] []
  /\ List.filter (fun e => String.eqb e.1 "n2")
       (Validator.errors
          (Validator.validate Validator.percentageRegistry
             Validator.speedInLoopDocument))
     = [("n2", Validator.OutOfRange "percentage")].
Proof.
  destruct (percentage_range_is_inclusive Validator.percentageRegistry)
    as (_ & _ & Hspeed).
  destruct (Hspeed eq_refl) as (Hnode & Halone).
  destruct (Halone "n1") as (H150 & H0 & H100).
  split; [exact H150|]. split; [exact H0|]. split; [exact H100|].
  apply (Hnode Validator.speedInLoopDocument "n2" 150%float).
  - cbn [Validator.speedInLoopDocument sequence flat_map allNodes app map
           node_id].
    repeat (apply NoDup_cons; split;
            [rewrite ?elem_of_cons, elem_of_nil; intros Hin;
             repeat (destruct Hin as [Hin|Hin]; [discriminate Hin|]);
             exact Hin|]).
    apply NoDup_nil_2.
  - cbn [Validator.speedInLoopDocument sequence flat_map allNodes app].
    apply elem_of_cons. right. apply elem_of_cons. by left.
Defined.

(** ** Further properties at concrete blocks *)

Lemma lowering_raises_only_expression_errors_witness :
  exists top c,
    top ∈ [lengthCountBlock] /\ c ∈ allBlocks top
    /\ RaisedBy c (Error "Unsupported expression block: text_length").
Proof.
  apply (lowering_raises_only_expression_errors (H:=countingHost)
           [lengthCountBlock] [] 0); vm_compute; reflexivity.
Defined.

Lemma command_chains_always_lower_witness :
  exists nodes s',
    sequenceFrom (Some printBlock) emptyState = Ok (nodes, s')
    /\ Forall2
         (fun b n =>
            exists id,
              n = Command id (block_type b) (commandParameters b)
              /\ IdOf b id)
         (statementBlocks (Some printBlock)) nodes.
Proof.
  apply (command_chains_always_lower (Some printBlock) emptyState);
    [vm_compute; reflexivity|].
  repeat (constructor;
          [first [left; vm_compute; reflexivity
                 | right; vm_compute; reflexivity]|]).
  constructor.
Defined.

Lemma else_branch_absent_or_nonempty_witness :
  Forall (fun n => forall id branches, n <> If id branches (Some []))
    (flat_map allNodes (sequence ifDocument)).
Proof.
  apply Forall_forall. intros n Hn id branches.
  apply (else_branch_absent_or_nonempty (H:=countingHost) [ifBlock]
           [] [] 0 0 ifDocument); [|exact Hn].
  vm_compute. reflexivity.
Defined.

Lemma node_ids_are_block_ids_in_order_witness :
  map ownId (flat_map statementBlocksDeepFrom [sampleProgram])
  = map (fun n => Some (node_id n)) (flat_map allNodes (sequence sampleDocument))
  /\ (NoDup (map ownId (flat_map statementBlocksDeepFrom [sampleProgram])) ->
      NoDup (map node_id (flat_map allNodes (sequence sampleDocument)))).
Proof.
  apply (node_ids_are_block_ids_in_order (H:=countingHost) [sampleProgram]
           [] [] 0 0 sampleDocument).
  - vm_compute. reflexivity.
  - vm_compute. reflexivity.
  - vm_compute. repeat (constructor; [by eexists|]). constructor.
Defined.

Lemma console_lists_skipped_blocks_witness :
  ["Ignoring unsupported statement block: text_print"]
  = [] ++ map warningFor (flat_map skippedFromBlock [printBlock]).
Proof.
  apply (console_lists_skipped_blocks (H:=countingHost) [printBlock] []
           ["Ignoring unsupported statement block: text_print"] 0 0
           (mkDocument "1.0" ∅ [Command "g1" "grab" None]));
    vm_compute; reflexivity.
Defined.

Lemma workspaces_lower_independently_witness :
  exists doc1 console1' gen1' doc2 console2' gen2',
    workspaceToDocument [sampleProgram] ["earlier"] 7
    = Ok (doc1, console1', gen1')
    /\ workspaceToDocument [printBlock] [] 0 = Ok (doc2, console2', gen2')
    /\ sequence (mkDocument "1.0" (metadataOf kukaMetadata)
                   (sampleSequence ++ [Command "g1" "grab" None]))
       = sequence doc1 ++ sequence doc2
    /\ metadata (mkDocument "1.0" (metadataOf kukaMetadata)
                   (sampleSequence ++ [Command "g1" "grab" None]))
       = match last (flat_map metadataBlocksFromBlock [printBlock]) with
         | Some _ => metadata doc2
         | None => metadata doc1
         end.
Proof.
  apply (workspaces_lower_independently (H:=countingHost)
           [sampleProgram] [printBlock] []
           ["Ignoring unsupported statement block: text_print"] 0 0
           (mkDocument "1.0" (metadataOf kukaMetadata)
              (sampleSequence ++ [Command "g1" "grab" None]))
           ["earlier"] [] 7 0).
  - vm_compute. reflexivity.
  - vm_compute. reflexivity.
Defined.

Lemma command_parameters_well_formed_witness :
  map_Forall (fun _ => WellFormedParam) circleParameters.
Proof.
  apply (command_parameters_well_formed (H:=countingHost) [circleBlock]
           [] [] 0 0
           (mkDocument "1.0" ∅
              [Command "c1" "move_circular" (Some circleParameters)])
           eq_refl eq_refl "c1" "move_circular").
  left.
Defined.

Lemma metadata_empty_or_complete_witness :
  CompleteMetadata (metadata sampleDocument).
Proof.
  apply (metadata_empty_or_complete (H:=countingHost) [sampleProgram]
           [] [] 0 0 sampleDocument).
  vm_compute. reflexivity.
Defined.

(** ** Properties of the script loader *)

Section LoaderProperties.
Import Loader.
Variable loads : string -> bool.

Lemma head_loaded_snoc (p : Page) src rest :
  head (appendChild src p) ++ loaded loads rest
  = head p ++ src :: loaded loads rest.
Proof. simpl. by rewrite <- app_assoc. Qed.

Lemma remove_appendChild src p : remove (appendChild src p) = p.
Proof.
  destruct p as [h c e]. unfold remove, appendChild. simpl.
  by rewrite removelast_last.
Qed.

(** X9: [loadScriptsSequentially] calls exactly one of its callbacks,
    once.  It calls [onSuccess] when every script loads, with all of them
    in the page in the order of the list; otherwise it calls [onFailure]
    with the first script that does not load, the scripts before it in the
    page, that script removed again and no later script asked for. *)
Theorem loadScriptsSequentially_outcome
    (sources : list string) (onSuccess : Callback)
    (onFailure : string -> Callback) (p : Page) :
  loadScriptsSequentially loads sources onSuccess onFailure p
  = match firstFailure loads sources with
    | None =>
        onSuccess (mkPage (head p ++ sources) (console p) (events p))
    | Some failed =>
        onFailure failed
          (mkPage (head p ++ loaded loads sources) (console p) (events p))
    end.
Proof.
  revert p. induction sources as [|src rest IH]; intros p; simpl.
  - rewrite app_nil_r. by destruct p.
  - destruct (loads src) eqn:Hsrc.
    + rewrite IH. simpl. by rewrite <- !app_assoc.
    + rewrite remove_appendChild, app_nil_r. by destruct p.
Qed.

Lemma firstFailure_None sources :
  firstFailure loads sources = None <-> forallb loads sources = true.
Proof.
  induction sources as [|src rest IH]; simpl; [done|].
  destruct (loads src); simpl; [exact IH | split; discriminate].
Qed.

Lemma firstFailure_Some sources failed :
  firstFailure loads sources = Some failed ->
  failed ∈ sources /\ loads failed = false.
Proof.
  induction sources as [|src rest IH]; simpl; [done|].
  destruct (loads src) eqn:Hsrc.
  - intros [Hin Hf]%IH. split; [by right | done].
  - intros [= <-]. split; [by left | done].
Qed.

Variables LOCAL CDN SUPPORT : list string.

(** X10: what [startLoading] tells the page.  It dispatches
    [RobotBlocklyReady] when the local bundle or, failing that, the CDN
    bundle loads completely and every support script loads after it;
    [RobotBlocklyFailed] when neither bundle loads completely; and no event
    at all when a bundle loads but a support script does not.  It never
    dispatches two events, and it touches no event dispatched before. *)
Theorem startLoading_events (p : Page) :
  events (startLoading loads LOCAL CDN SUPPORT p)
  = events p
    ++ (if forallb loads LOCAL || forallb loads CDN
        then if forallb loads SUPPORT then ["RobotBlocklyReady"] else []
        else ["RobotBlocklyFailed"]).
Proof.
  assert (forall q,
             events (finalize loads SUPPORT q)
             = events q
               ++ (if forallb loads SUPPORT
                   then ["RobotBlocklyReady"] else [])) as Hfinal.
  { intros q. unfold finalize. rewrite loadScriptsSequentially_outcome.
    destruct (firstFailure loads SUPPORT) as [failed|] eqn:Hs.
    - destruct (forallb loads SUPPORT) eqn:Hall.
      + apply firstFailure_None in Hall. congruence.
      + simpl. by rewrite app_nil_r.
    - apply firstFailure_None in Hs. by rewrite Hs. }
  unfold startLoading. rewrite loadScriptsSequentially_outcome.
  destruct (firstFailure loads LOCAL) as [failedLocal|] eqn:Hl.
  - assert (forallb loads LOCAL = false) as ->.
    { destruct (forallb loads LOCAL) eqn:Hall; [|done].
      apply firstFailure_None in Hall. congruence. }
    cbv zeta. rewrite loadScriptsSequentially_outcome. simpl.
    destruct (firstFailure loads CDN) as [failedCdn|] eqn:Hc.
    + assert (forallb loads CDN = false) as ->.
      { destruct (forallb loads CDN) eqn:Hall; [|done].
        apply firstFailure_None in Hall. congruence. }
      done.
    + apply firstFailure_None in Hc. rewrite Hc. by rewrite Hfinal.
  - apply firstFailure_None in Hl. rewrite Hl. simpl. by rewrite Hfinal.
Qed.

(** X11: the scripts [startLoading] leaves in the page, after those that
    were there: the local scripts up to the first that fails; then, if one
    failed, the CDN scripts up to the first that fails, so that local
    scripts loaded before the failure stay in the page beside their CDN
    copies; then, if a bundle is complete, the support scripts up to the
    first that fails.  A script that fails is not in the page. *)
Theorem startLoading_head (p : Page) :
  head (startLoading loads LOCAL CDN SUPPORT p)
  = head p
    ++ loaded loads LOCAL
    ++ (if forallb loads LOCAL then loaded loads SUPPORT
        else loaded loads CDN
             ++ (if forallb loads CDN then loaded loads SUPPORT else []))
  /\ Forall (fun src => loads src = true)
       (loaded loads LOCAL ++ loaded loads CDN ++ loaded loads SUPPORT).
Proof.
  assert (forall sources, forallb loads sources = true ->
                          loaded loads sources = sources) as Hfull.
  { induction sources as [|src rest IH]; simpl; [done|].
    destruct (loads src); simpl; [|done]. intros Hrest. by rewrite IH. }
  assert (forall sources, Forall (fun src => loads src = true)
                            (loaded loads sources)) as Hloaded.
  { induction sources as [|src rest IH]; simpl; [constructor|].
    destruct (loads src) eqn:Hsrc; by constructor. }
  split; [|by rewrite !Forall_app].
  assert (forall q,
             head (finalize loads SUPPORT q)
             = head q ++ loaded loads SUPPORT) as Hfinal.
  { intros q. unfold finalize. rewrite loadScriptsSequentially_outcome.
    destruct (firstFailure loads SUPPORT) as [failed|] eqn:Hs; simpl;
      [done|].
    apply firstFailure_None in Hs. by rewrite Hfull. }
  unfold startLoading. rewrite loadScriptsSequentially_outcome.
  destruct (firstFailure loads LOCAL) as [failedLocal|] eqn:Hl.
  - assert (forallb loads LOCAL = false) as ->.
    { destruct (forallb loads LOCAL) eqn:Hall; [|done].
      apply firstFailure_None in Hall. congruence. }
    cbv zeta. rewrite loadScriptsSequentially_outcome. simpl.
    destruct (firstFailure loads CDN) as [failedCdn|] eqn:Hc.
    + assert (forallb loads CDN = false) as ->.
      { destruct (forallb loads CDN) eqn:Hall; [|done].
        apply firstFailure_None in Hall. congruence. }
      simpl. by rewrite app_nil_r, app_assoc.
    + apply firstFailure_None in Hc. rewrite Hc, Hfinal. simpl.
      by rewrite (Hfull CDN), !app_assoc.
  - apply firstFailure_None in Hl. rewrite Hl, Hfinal. simpl.
    by rewrite (Hfull LOCAL), !app_assoc.
Qed.

(** X12: the console after [startLoading]: nothing is written when the
    local bundle and the support scripts load; every other outcome leaves
    its trace, the fall-back to the CDN a warning and each failure that
    ends the loading one error that names the script that did not load. *)
Theorem startLoading_console (p : Page) :
  console (startLoading loads LOCAL CDN SUPPORT p)
  = console p
    ++ (match firstFailure loads LOCAL with
        | None => []
        | Some _ =>
            [(level_warn,
              "Local Blockly bundles not found. Falling back to CDN.")]
        end)
    ++ (match firstFailure loads LOCAL, firstFailure loads CDN with
        | Some _, Some failed =>
            [(level_error, "Unable to load Blockly from CDN: " +:+ failed)]
        | _, _ =>
            match firstFailure loads SUPPORT with
            | Some failed =>
                [(level_error,
                  "Failed to load Blockly support script: " +:+ failed)]
            | None => []
            end
        end).
Proof.
  assert (forall q,
             console (finalize loads SUPPORT q)
             = console q
               ++ match firstFailure loads SUPPORT with
                  | Some failed =>
                      [(level_error,
                        "Failed to load Blockly support script: "
                        +:+ failed)]
                  | None => []
                  end) as Hfinal.
  { intros q. unfold finalize. rewrite loadScriptsSequentially_outcome.
    destruct (firstFailure loads SUPPORT) as [failed|]; simpl; [done|].
    by rewrite app_nil_r. }
  unfold startLoading. rewrite loadScriptsSequentially_outcome.
  destruct (firstFailure loads LOCAL) as [failedLocal|].
  - cbv zeta. rewrite loadScriptsSequentially_outcome. simpl.
    destruct (firstFailure loads CDN) as [failedCdn|].
    + simpl. by rewrite <- app_assoc.
    + rewrite Hfinal. simpl. by rewrite <- app_assoc.
  - by rewrite Hfinal.
Qed.

End LoaderProperties.

(** The two loaders in a browser without local bundles. *)
Example loader_falls_back_to_cdn :
  Loader.startLoading Loader.cdnOnly Loader.LOCAL_SCRIPTS Loader.CDN_SCRIPTS
    Loader.SUPPORT_SCRIPTS Loader.emptyPage
  = Loader.mkPage (Loader.CDN_SCRIPTS ++ Loader.SUPPORT_SCRIPTS)
      [(Loader.level_warn,
        "Local Blockly bundles not found. Falling back to CDN.")]
      ["RobotBlocklyReady"]
  /\ Loader.startLoading Loader.cdnOnly Loader.LOCAL_SCRIPTS_IR
       Loader.CDN_SCRIPTS_IR Loader.SUPPORT_SCRIPTS_IR Loader.emptyPage
     = Loader.mkPage (Loader.CDN_SCRIPTS_IR ++ Loader.SUPPORT_SCRIPTS_IR)
         [(Loader.level_warn,
           "Local Blockly bundles not found. Falling back to CDN.")]
         ["RobotBlocklyReady"].
Proof. split; reflexivity. Qed.

Ltac list_member :=
  repeat (apply elem_of_cons; first [left; reflexivity | right]).

(** ** The block definitions and the generator *)

Section BlockDefinitionProperties.
Import RobotBlocks.
Context `{Host}.

(** X13: the generator reads no field that the definition of the block
    does not create.  Two blocks of a type defined in [robot_blocks.js]
    that agree on the fields of the definition get the same parameters,
    and two metadata blocks that agree on them leave the same metadata;
    whatever other fields the blocks carry is ignored. *)
Theorem generator_reads_declared_fields
    (type : string) (definition : BlockDefinition) (b b' : Block)
    (metadata : gmap string Value) :
  (type, definition) ∈ Blocks ->
  block_type b = type ->
  block_type b' = type ->
  (forall name, name ∈ fieldNames definition ->
                getFieldValue b name = getFieldValue b' name) ->
  commandParameters b = commandParameters b'
  /\ (type = "set_metadata" -> setMetadata metadata b = setMetadata metadata b').
Proof.
  intros Hdef Hb Hb' Hagree.
  assert (commandParameters b = commandParameters b') as Hparams.
  { unfold commandParameters. rewrite Hb, Hb'.
    destruct (bool_decide _); [done|]. f_equal.
    destruct (parameterReaders !! type) as [reader|] eqn:Hreader; [|done].
    unfold parameterReaders in Hreader.
    apply elem_of_list_to_map_2 in Hreader.
    unfold Blocks, commandBlocks in Hdef. cbn [app] in Hdef.
    repeat (apply elem_of_cons in Hdef as [[= -> ->]|Hdef]);
      [..|by apply elem_of_nil in Hdef];
      repeat (apply elem_of_cons in Hreader as [[= ->]|Hreader]);
      try (by apply elem_of_nil in Hreader);
      cbv beta zeta;
      unfold storeReader, numberParam, pointFrom, arrayFrom, numberField;
      cbn [map];
      repeat match goal with
        | |- context [getFieldValue b ?name] =>
            rewrite (Hagree name)
              by (vm_compute;
                  repeat (apply elem_of_cons;
                          first [left; reflexivity | right]))
        end;
      reflexivity. }
  split; [exact Hparams|].
  intros ->. unfold Blocks, commandBlocks in Hdef. cbn [app] in Hdef.
  apply elem_of_cons in Hdef as [[= ->]|Hdef].
  - unfold setMetadata.
    repeat match goal with
      | |- context [getFieldValue b ?name] =>
          rewrite (Hagree name)
            by (vm_compute;
                repeat (apply elem_of_cons;
                        first [left; reflexivity | right]))
      end.
    reflexivity.
  - exfalso.
    repeat (apply elem_of_cons in Hdef as [[=]|Hdef]).
    by apply elem_of_nil in Hdef.
Qed.

(** X14: the toolbox, the block definitions and the generator fit.  Every
    block type the toolbox offers is one the generator handles: the
    metadata block, a statement type with a lowering rule, or an expression
    type with a case in [expressionFrom].  Among the types that are no
    member name of [Object.prototype], those the generator lowers to a
    command are exactly the types [robot_blocks.js] defines with
    [createBlock]; and the toolbox offers every block the file defines. *)
Theorem toolbox_blocks_are_lowered :
  (forall type,
      type ∈ toolboxTypes ->
      type = "set_metadata" \/ is_Some (statementRule type)
      \/ type ∈ expressionTypes)
  /\ (forall type,
         ownType type = true ->
         statementRule type = Some kind_command
         <-> type ∈ map fst Blocks /\ type <> "set_metadata")
  /\ (forall type, type ∈ map fst Blocks -> type ∈ toolboxTypes).
Proof.
  split; [|split].
  - intros type Hin. vm_compute in Hin.
    repeat (apply elem_of_cons in Hin as [->|Hin]);
      [..|by apply elem_of_nil in Hin];
      first [ by left
            | right; left; vm_compute; by eexists
            | right; right; unfold expressionTypes; list_member ].
  - intros type _. split.
    + unfold statementRule.
      repeat match goal with
        | |- (if String.eqb type ?t then _ else _) = _ -> _ =>
            destruct (String.eqb type t); [discriminate|]
        end.
      destruct (isCommandType type) eqn:Hcmd; [intros _|discriminate].
      unfold isCommandType in Hcmd.
      apply orb_true_iff in Hcmd
        as [[reader Hr]%bool_decide_eq_true | Hc%bool_decide_eq_true].
      * unfold parameterReaders in Hr. apply elem_of_list_to_map_2 in Hr.
        repeat (apply elem_of_cons in Hr as [[= -> _]|Hr]);
          [..|by apply elem_of_nil in Hr];
          (split; [vm_compute; list_member | discriminate]).
      * unfold commandsWithoutParameters in Hc.
        apply elem_of_list_to_set in Hc.
        repeat (apply elem_of_cons in Hc as [->|Hc]);
          [..|by apply elem_of_nil in Hc];
          (split; [vm_compute; list_member | discriminate]).
    + intros [Hin Hne]. vm_compute in Hin.
      repeat (apply elem_of_cons in Hin as [->|Hin]);
        [done|..|by apply elem_of_nil in Hin];
        vm_compute; reflexivity.
  - intros type Hin. vm_compute in Hin.
    repeat (apply elem_of_cons in Hin as [->|Hin]);
      [..|by apply elem_of_nil in Hin];
      vm_compute; list_member.
Qed.

End BlockDefinitionProperties.

Lemma generator_reads_declared_fields_witness :
  commandParameters connectBlock = commandParameters brandedConnectBlock
  /\ ("connect_robot" = "set_metadata" ->
      setMetadata ∅ connectBlock = setMetadata ∅ brandedConnectBlock).
Proof.
  apply (generator_reads_declared_fields (H:=countingHost) "connect_robot"
           (RobotBlocks.createBlock "connect_robot" "#5C81A6"
              [RobotBlocks.addTextField "IP" "IP address" "192.168.0.10";
               RobotBlocks.addNumberField "PORT" "Port" 60008%float;
               RobotBlocks.addNumberField "TIMEOUT" "Timeout (ms)"
                 5000%float]).2).
  - right. left.
  - reflexivity.
  - reflexivity.
  - intros name Hin. vm_compute in Hin.
    repeat (apply elem_of_cons in Hin as [->|Hin]);
      [reflexivity.. | by apply elem_of_nil in Hin].
Defined.

(** ** Properties of the Python generator *)

Section PythonProperties.
Import RobotPython.
Context `{Host} `{Render}.

Lemma generated_parent block :
  generated block = true -> exists parent, getParent block = Some parent.
Proof.
  unfold generated. intros [Hp _]%andb_true_iff.
  by apply bool_decide_eq_true in Hp as [parent Hp]; exists parent.
Qed.

Lemma generated_within block :
  generated block = true -> isWithinMain block = true.
Proof. unfold generated. by intros [_ Hw]%andb_true_iff. Qed.

Lemma statement_outside block methodName argsBuilder target definitions_ :
  generated block = false ->
  statement block methodName argsBuilder target definitions_
  = ("", definitions_).
Proof.
  unfold generated, statement. intros Hgen.
  destruct (getParent block) as [parent|]; [|done].
  rewrite bool_decide_eq_true_2 in Hgen by by eexists.
  simpl in Hgen. by rewrite Hgen.
Qed.

Lemma statement_robot block methodName argsBuilder definitions_ :
  generated block = true ->
  statement block methodName argsBuilder None definitions_
  = ("new_robot" +:+ "." +:+ methodName +:+ "("
     +:+ match argsBuilder with Some build => build block | None => "" end
     +:+ ")" +:+ newline,
     ensureRobotRuntime definitions_).
Proof.
  intros Hgen. unfold statement.
  destruct (generated_parent _ Hgen) as [parent ->].
  by rewrite (generated_within _ Hgen).
Qed.

Lemma statement_cv_model block methodName argsBuilder definitions_ :
  generated block = true ->
  statement block methodName argsBuilder (Some "cv_model") definitions_
  = ("cv_model" +:+ "." +:+ methodName +:+ "("
     +:+ match argsBuilder with Some build => build block | None => "" end
     +:+ ")" +:+ newline,
     ensureCvModelRuntime definitions_).
Proof.
  intros Hgen. unfold statement.
  destruct (generated_parent _ Hgen) as [parent ->].
  by rewrite (generated_within _ Hgen).
Qed.

Lemma connect_robot_outside block definitions_ :
  generated block = false -> connect_robot block definitions_ = ("", definitions_).
Proof.
  unfold generated, connect_robot. intros Hgen.
  destruct (getParent block) as [parent|]; [|done].
  rewrite bool_decide_eq_true_2 in Hgen by by eexists.
  simpl in Hgen. by rewrite Hgen.
Qed.

Lemma query_outside methodName argsBuilder block definitions_ :
  generated block = false ->
  query methodName argsBuilder block definitions_ = ("", definitions_).
Proof.
  intros Hgen. unfold query. by rewrite statement_outside.
Qed.

(** X15: outside [main_entry] nothing is generated.  For a block that has
    no parent, or that does not lie within a [main_entry] block, every
    handler returns the empty string and leaves [python.definitions_] as it
    is, whatever the fields of the block hold. *)
Theorem nothing_generated_outside_main
    (type : string) (handler : Placed -> Code string) (block : Placed)
    (definitions_ : Definitions) :
  (type, handler) ∈ forBlock ->
  generated block = false ->
  handler block definitions_ = ("", definitions_).
Proof.
  intros Hin Hgen. unfold forBlock in Hin.
  repeat (apply elem_of_cons in Hin as [[= _ ->]|Hin]);
    [..|by apply elem_of_nil in Hin];
    cbv zeta;
    repeat match goal with
      | |- (if ?c then _ else _) _ = _ => destruct c
      end;
    first [ by apply statement_outside
          | by apply connect_robot_outside
          | by apply query_outside ].
Qed.

Lemma ensure_key key value definitions :
  truthy_str value = true ->
  exists v, ensure key value definitions !! key = Some v
            /\ truthy_str v = true.
Proof.
  intros Hvalue. unfold ensure.
  destruct (definitions !! key) as [v|] eqn:Hkey.
  - destruct (truthy_str v) eqn:Hv.
    + by exists v.
    + exists value. by rewrite lookup_insert_eq.
  - exists value. by rewrite lookup_insert_eq.
Qed.

Lemma ensure_other key value definitions key' :
  key' <> key -> ensure key value definitions !! key' = definitions !! key'.
Proof.
  intros Hne. unfold ensure.
  destruct (definitions !! key) as [v|]; [destruct (truthy_str v)|];
    by rewrite ?lookup_insert_ne.
Qed.

Lemma ensure_truthy key value definitions key' v :
  definitions !! key' = Some v -> truthy_str v = true ->
  ensure key value definitions !! key' = Some v.
Proof.
  intros Hkey' Hv. destruct (decide (key' = key)) as [->|Hne].
  - unfold ensure. by rewrite Hkey', Hv.
  - by rewrite ensure_other.
Qed.

Lemma ensure_twice key1 value1 key2 value2 definitions_ :
  truthy_str value1 = true -> truthy_str value2 = true -> key1 <> key2 ->
  RuntimeEnsured [key1; key2] definitions_
    (Some (ensure key2 value2
             (ensure key1 value1 (default ∅ definitions_)))).
Proof.
  intros Hv1 Hv2 Hne. eexists. split; [reflexivity|]. split; [|split].
  - intros key [->|[->|[]%elem_of_nil]%elem_of_cons]%elem_of_cons.
    + destruct (ensure_key key1 value1 (default ∅ definitions_) Hv1)
        as (v & Hkey & Hv).
      exists v. split; [|done]. by apply ensure_truthy.
    + by apply ensure_key.
  - intros key v Hkey Hv. apply ensure_truthy; [|done].
    by apply ensure_truthy.
  - intros key Hkey.
    rewrite !ensure_other; [done|..];
      intros ->; apply Hkey; [left | right; left].
Qed.

Lemma ensureRobotRuntime_ensured definitions_ :
  RuntimeEnsured ["import_robot_module"; "robot_instance"] definitions_
    (ensureRobotRuntime definitions_).
Proof. by apply ensure_twice. Qed.

Lemma ensureCvModelRuntime_ensured definitions_ :
  RuntimeEnsured ["import_cv_model"; "cv_model_instance"] definitions_
    (ensureCvModelRuntime definitions_).
Proof. by apply ensure_twice. Qed.

Lemma append_truthy s t : truthy_str t = true -> s +:+ t <> "".
Proof. intros Ht Heq. destruct s, t; simpl in *; discriminate. Qed.

Lemma storeCall_call store rest :
  storeCall store ("new_robot" +:+ rest) <> "".
Proof.
  assert (truthy_str (trim ("new_robot" +:+ rest)) = true) as Hcall
    by reflexivity.
  unfold storeCall. cbv zeta. rewrite Hcall. simpl negb. cbv iota.
  destruct (truthy store); by apply append_truthy.
Qed.

Lemma query_inside methodName argsBuilder block definitions_ :
  generated block = true ->
  exists rest,
    query methodName argsBuilder block definitions_
    = (storeCall (getFieldValue (self block) "STORE") ("new_robot" +:+ rest),
       ensureRobotRuntime definitions_).
Proof.
  intros Hgen. unfold query. rewrite statement_robot by done.
  by eexists.
Qed.

Lemma connect_robot_inside block definitions_ :
  generated block = true ->
  exists rest,
    connect_robot block definitions_
    = ("new_robot.brand = " +:+ rest, ensureRobotRuntime definitions_).
Proof.
  intros Hgen. unfold connect_robot.
  destruct (generated_parent _ Hgen) as [parent ->].
  rewrite (generated_within _ Hgen). simpl negb. cbv iota zeta.
  rewrite statement_robot by done. by eexists.
Qed.

(** X16: code never goes without its runtime.  For a block below a parent
    and within [main_entry] every handler returns code, and when it has
    returned, [python.definitions_] holds the import and the instance of
    the object the code calls ([new_robot], or [cv_model] for the two model
    blocks); a definition that was there is kept, and no other key is
    touched. *)
Theorem generated_code_has_its_runtime
    (type : string) (handler : Placed -> Code string) (block : Placed)
    (definitions_ : Definitions) :
  (type, handler) ∈ forBlock ->
  generated block = true ->
  exists code definitions_',
    handler block definitions_ = (code, definitions_')
    /\ code <> ""
    /\ RuntimeEnsured (runtimeKeys type) definitions_ definitions_'.
Proof.
  intros Hin Hgen. unfold forBlock in Hin.
  repeat (apply elem_of_cons in Hin as [[= -> ->]|Hin]);
    [..|by apply elem_of_nil in Hin];
    cbv zeta;
    repeat match goal with
      | |- context [(if ?c then _ else _) definitions_] => destruct c
      end;
    first
      [ rewrite statement_robot by done;
        do 2 eexists; split; [reflexivity|];
        split; [discriminate | apply ensureRobotRuntime_ensured]
      | rewrite statement_cv_model by done;
        do 2 eexists; split; [reflexivity|];
        split; [discriminate | apply ensureCvModelRuntime_ensured]
      | destruct (connect_robot_inside block definitions_ Hgen)
          as [rest ->];
        do 2 eexists; split; [reflexivity|];
        split; [discriminate | apply ensureRobotRuntime_ensured]
      | match goal with
        | |- context [query ?m ?a block definitions_] =>
            destruct (query_inside m a block definitions_ Hgen)
              as [rest ->]
        end;
        do 2 eexists; split; [reflexivity|];
        split; [apply storeCall_call | apply ensureRobotRuntime_ensured] ].
Qed.

Lemma truthy_append s t :
  truthy_str t = true -> truthy_str (s +:+ t) = true.
Proof. intros Ht. by destruct s. Qed.

Lemma trimEnd_append s t :
  truthy_str (trimEnd t) = true -> trimEnd (s +:+ t) = s +:+ trimEnd t.
Proof.
  intros Ht. induction s as [|a s IH]; [done|].
  simpl. rewrite IH, (truthy_append _ _ Ht). simpl.
  by rewrite andb_false_r.
Qed.

Lemma trimEnd_prefix s t u :
  trimEnd t = u -> truthy_str u = true -> trimEnd (s +:+ t) = s +:+ u.
Proof. intros <- Hu. by apply trimEnd_append. Qed.

Lemma trim_call methodName args :
  trim ("new_robot" +:+ "." +:+ methodName +:+ "(" +:+ args +:+ ")"
        +:+ newline)
  = "new_robot" +:+ "." +:+ methodName +:+ "(" +:+ args +:+ ")".
Proof.
  unfold trim.
  change (trimStart ("new_robot" +:+ ?rest)) with ("new_robot" +:+ rest).
  assert (trimEnd (")" +:+ newline) = ")") as Hend by reflexivity.
  repeat first
    [ exact Hend
    | apply trimEnd_prefix; [|by repeat apply truthy_append] ].
Qed.

(** X17: a query handler assigns the call it makes.  Within [main_entry]
    the code of a query block is the line of the call on [new_robot],
    preceded by the name in STORE and an equals sign when the field holds
    one; trimming the call loses the line end only, whatever the
    arguments. *)
Theorem query_assigns_its_call
    (methodName : string) (argsBuilder : option (Placed -> string))
    (block : Placed) (definitions_ : Definitions) :
  generated block = true ->
  let store := getFieldValue (self block) "STORE" in
  let call :=
    "new_robot" +:+ "." +:+ methodName +:+ "("
    +:+ match argsBuilder with Some build => build block | None => "" end
    +:+ ")" in
  query methodName argsBuilder block definitions_
  = (if truthy store then toString store +:+ " = " +:+ call +:+ newline
     else call +:+ newline,
     ensureRobotRuntime definitions_).
Proof.
  intros Hgen store call. unfold query.
  rewrite statement_robot by done. unfold storeCall. cbv zeta.
  rewrite trim_call. fold call.
  assert (truthy_str call = true) as -> by reflexivity.
  reflexivity.
Qed.

(** X18: the two generators part on a speed of zero.  For a [set_speed] or
    [set_acceleration] block whose PERCENTAGE is zero (or empty) the Python
    handler writes the call with 50, its fallback, while the parameters of
    the command node say 0. *)
Theorem zero_percentage_is_fifty_in_python
    (type : string) (handler : Placed -> Code string) (block : Placed)
    (definitions_ : Definitions) :
  (type, handler) ∈ forBlock ->
  type ∈ ["set_speed"; "set_acceleration"] ->
  block_type (self block) = type ->
  generated block = true ->
  truthy (getFieldValue (self block) "PERCENTAGE") = false ->
  handler block definitions_
  = ("new_robot" +:+ "." +:+ ("motion." +:+ type) +:+ "("
     +:+ NumberToString 50%float +:+ ")" +:+ newline,
     ensureRobotRuntime definitions_)
  /\ commandParameters (self block)
     = Some {[ "percentage" := PValue (VNum 0%float) ]}.
Proof.
  intros Hin Htype Hblock Hgen Hzero.
  assert (RobotPython.numberField block "PERCENTAGE" 50%float = 50%float)
    as Hpython.
  { unfold RobotPython.numberField, JS.or. by rewrite Hzero. }
  pose proof (numberParam_falsy (self block) "PERCENTAGE" 0%float Hzero)
    as Hir.
  unfold commandParameters. rewrite Hblock.
  unfold forBlock in Hin.
  apply elem_of_cons in Htype as [->|[->|[]%elem_of_nil]%elem_of_cons];
    repeat (apply elem_of_cons in Hin as [[= ->]|Hin]);
    try (by apply elem_of_nil in Hin);
    (split;
     [ cbv zeta; rewrite statement_robot by done; by rewrite Hpython
     | cbv [parameterReaders]; by rewrite <- Hir ]).
Qed.

Lemma getParent_same (block block' : Placed) :
  parents block = parents block' -> getParent block = getParent block'.
Proof. intros Hp. unfold getParent. by rewrite Hp. Qed.

Lemma isWithinMain_same (block block' : Placed) :
  block_type (self block) = block_type (self block') ->
  parents block = parents block' ->
  isWithinMain block = isWithinMain block'.
Proof.
  intros Ht Hp. unfold isWithinMain. rewrite Hp.
  destruct (parents block'); simpl; by rewrite Ht.
Qed.

(** X20: a handler of the Python generator reads no field that the
    definition of its block does not create.  Two blocks of a type defined
    in the Python version of [robot_blocks.js] that stand below the same
    parents and agree on the fields of the definition get the same code and
    leave the same definitions. *)
Theorem python_reads_declared_fields
    (type : string) (definition : RobotBlocks.BlockDefinition)
    (handler : Placed -> Code string) (block block' : Placed)
    (definitions_ : Definitions) :
  (type, definition) ∈ RobotBlocks.PythonBlocks ->
  (type, handler) ∈ forBlock ->
  block_type (self block) = type ->
  block_type (self block') = type ->
  parents block = parents block' ->
  (forall name, name ∈ RobotBlocks.fieldNames definition ->
                getFieldValue (self block) name
                = getFieldValue (self block') name) ->
  handler block definitions_ = handler block' definitions_.
Proof.
  intros Hdef Hin Ht Ht' Hp Hagree.
  assert (getParent block = getParent block') as Hparent
    by by apply getParent_same.
  assert (isWithinMain block = isWithinMain block') as Hwithin
    by (apply isWithinMain_same; [congruence | done]).
  clear Ht Ht' Hp.
  unfold RobotBlocks.PythonBlocks, RobotBlocks.commandBlocks in Hdef.
  cbn [app] in Hdef. unfold forBlock in Hin.
  repeat (apply elem_of_cons in Hdef as [[= -> ->]|Hdef]);
    [..|by apply elem_of_nil in Hdef];
    repeat (apply elem_of_cons in Hin as [[= ->]|Hin]);
    try (by apply elem_of_nil in Hin);
    cbv zeta;
    unfold query, connect_robot, statement, textField, joined,
      RobotPython.numberField;
    cbn [map];
    rewrite ?Hparent, ?Hwithin;
    repeat match goal with
      | |- context [getFieldValue (self block) ?name] =>
          rewrite (Hagree name)
            by (vm_compute;
                repeat (apply elem_of_cons;
                        first [left; reflexivity | right]))
      end;
    reflexivity.
Qed.

(** X21: handlers and definitions fit.  The Python generator has a handler
    for every block the Python version of [robot_blocks.js] defines, the
    entry block apart, and for no other block. *)
Theorem python_handlers_cover_definitions (type : string) :
  type ∈ map fst forBlock
  <-> type ∈ map fst RobotBlocks.PythonBlocks /\ type <> "main_entry".
Proof.
  split.
  - intros Hin. vm_compute in Hin.
    repeat (apply elem_of_cons in Hin as [->|Hin]);
      [..|by apply elem_of_nil in Hin];
      (split; [vm_compute; list_member | discriminate]).
  - intros [Hin Hne]. vm_compute in Hin.
    repeat (apply elem_of_cons in Hin as [->|Hin]);
      [done|..|by apply elem_of_nil in Hin];
      vm_compute; list_member.
Qed.

End PythonProperties.

Lemma set_speed_handler_listed :
  ("set_speed", set_speed_handler) ∈ RobotPython.forBlock.
Proof.
  unfold RobotPython.forBlock.
  repeat (apply elem_of_cons; first [left; reflexivity | right]).
Qed.

Lemma nothing_generated_outside_main_witness :
  set_speed_handler looseSpeed None = ("", None).
Proof.
  apply (nothing_generated_outside_main "set_speed" set_speed_handler
           looseSpeed None set_speed_handler_listed).
  reflexivity.
Defined.

Lemma generated_code_has_its_runtime_witness :
  exists code definitions_',
    set_speed_handler placedSpeed None = (code, definitions_')
    /\ code <> ""
    /\ RobotPython.RuntimeEnsured ["import_robot_module"; "robot_instance"]
         None definitions_'.
Proof.
  apply (generated_code_has_its_runtime "set_speed" set_speed_handler
           placedSpeed None set_speed_handler_listed).
  reflexivity.
Defined.

Lemma query_assigns_its_call_witness :
  RobotPython.query "status.snapshot" None placedStatus None
  = ("status = new_robot.status.snapshot()" +:+ RobotPython.newline,
     RobotPython.ensureRobotRuntime None).
Proof.
  apply (query_assigns_its_call "status.snapshot" None placedStatus None).
  reflexivity.
Defined.

Lemma zero_percentage_is_fifty_in_python_witness :
  set_speed_handler placedSpeed None
  = ("new_robot.motion.set_speed(50)" +:+ RobotPython.newline,
     RobotPython.ensureRobotRuntime None)
  /\ commandParameters zeroSpeedBlock
     = Some {[ "percentage" := PValue (VNum 0%float) ]}.
Proof.
  apply (zero_percentage_is_fifty_in_python "set_speed" set_speed_handler
           placedSpeed None set_speed_handler_listed).
  - left.
  - reflexivity.
  - reflexivity.
  - reflexivity.
Defined.

Ltac operators_are_text :=
  let name := fresh "name" in
  let Hname := fresh "Hname" in
  let Htruthy := fresh "Htruthy" in
  intros name Hname Htruthy;
  repeat (apply elem_of_cons in Hname as [->|Hname]);
  try (by apply elem_of_nil in Hname);
  vm_compute in Htruthy; discriminate Htruthy.

Ltac expression_tree :=
  let x := fresh "x" in
  let Hx := fresh "Hx" in
  intros x Hx; vm_compute in Hx;
  repeat (apply elem_of_cons in Hx as [->|Hx]);
  try (by apply elem_of_nil in Hx);
  (split;
   [ unfold expressionTypes;
     repeat (apply elem_of_cons; first [left; reflexivity | right])
   | operators_are_text ]).

Lemma sampleProgram_supported :
  SupportedExpressions sampleProgram.
Proof.
  intros c Hc. vm_compute in Hc.
  repeat (apply elem_of_cons in Hc as [->|Hc]);
    try (by apply elem_of_nil in Hc);
    (split; [operators_are_text|]);
    intros name r Hvalue Htarget;
    destruct Hvalue as [[Ht _]|[[Ht ->]|[[Ht ->]|[[Ht _]|[Ht ->]]]]];
    try discriminate Ht;
    vm_compute in Htarget; injection Htarget as <-;
    expression_tree.
Qed.

Lemma supported_expressions_always_lower_witness :
  exists doc console' gen',
    workspaceToDocument (H:=countingHost) [sampleProgram] ["earlier"] 7
    = Ok (doc, console', gen').
Proof.
  apply (supported_expressions_always_lower (H:=countingHost)
           [sampleProgram] ["earlier"] 7); [vm_compute; reflexivity|].
  apply Forall_cons. split; [exact sampleProgram_supported|].
  apply Forall_nil_2.
Defined.

Lemma python_reads_declared_fields_witness :
  set_speed_handler placedSpeed None = set_speed_handler annotatedSpeed None.
Proof.
  apply (python_reads_declared_fields "set_speed"
           (RobotBlocks.createBlock "set_speed" "#5C81A6"
              [RobotBlocks.addNumberField "PERCENTAGE" "Speed %" 50%float]).2
           set_speed_handler placedSpeed annotatedSpeed None).
  - unfold RobotBlocks.PythonBlocks, RobotBlocks.commandBlocks.
    cbn [app]. list_member.
  - exact set_speed_handler_listed.
  - reflexivity.
  - reflexivity.
  - reflexivity.
  - intros name Hin. vm_compute in Hin.
    repeat (apply elem_of_cons in Hin as [->|Hin]);
      [reflexivity.. | by apply elem_of_nil in Hin].
Defined.

Lemma ids_drawn_once_per_anonymous_block_witness :
  2 = drawn (H:=countingHost)
        (sum_list_with drawsOf
           (flat_map statementBlocksDeepFrom
              [anonymousBlock; sampleProgram; anonymousBlock]))
        0.
Proof.
  apply (ids_drawn_once_per_anonymous_block (H:=countingHost)
           [anonymousBlock; sampleProgram; anonymousBlock] [] [] 0 2
           (mkDocument "1.0" (metadataOf kukaMetadata)
              ([Command "uid0" "grab" None] ++ sampleSequence
               ++ [Command "uid1" "grab" None])));
    vm_compute; reflexivity.
Defined.

